(** * Big Brother content script: the in-page interaction engine

    A shallow embedding of [src/content/content.ts]: the selector resolver
    and its element cache, the feature extractor, the action executor and
    the event waiter, with the properties the specification states about
    them.

    The page is a list of nodes in document order; an element is the
    position of its node.  Each node carries what the script reads from the
    browser about it: tag, attributes, computed style and layout, rendered
    text, and where it sits in the tree.  The page is an HTML document in
    no-quirks mode: an HTML element has its tag name in upper case, an
    element of another namespace (SVG, MathML) has no [innerText], and ids
    and classes are compared exactly.  The module state of the script
    (element cache, selector counter, clicked memo, highlight records) is
    threaded through a state-and-exception monad. *)

From Stdlib Require Import String Ascii List ZArith Lia Bool Arith.
From stdpp Require Import base option gmap strings pretty.
Import ListNotations.
Open Scope string_scope.

(** ** Strings as the script uses them *)

Module Str.

Local Open Scope nat_scope.

Definition code (c : ascii) : nat := nat_of_ascii c.

Definition is_letter (c : ascii) : bool :=
  ((65 <=? code c) && (code c <=? 90)) || ((97 <=? code c) && (code c <=? 122)).

Definition is_digit (c : ascii) : bool := (48 <=? code c) && (code c <=? 57).

(** [\w] of a JavaScript regular expression. *)
Definition is_word (c : ascii) : bool :=
  is_letter c || is_digit c || (code c =? 95).

(** [[\w-]]. *)
Definition is_word_or_dash (c : ascii) : bool := is_word c || (code c =? 45).

Definition is_space (c : ascii) : bool :=
  ((9 <=? code c) && (code c <=? 13)) || (code c =? 32).

Fixpoint all (p : ascii -> bool) (s : string) : bool :=
  match s with
  | EmptyString => true
  | String c r => p c && all p r
  end.

Definition nonempty (s : string) : bool :=
  match s with EmptyString => false | _ => true end.

(** [a || b] on strings: the first truthy (non-empty) one. *)
Definition or_else (a b : string) : string := if nonempty a then a else b.

Definition startsWith (s p : string) : bool := String.prefix p s.

Fixpoint includes (s p : string) : bool :=
  String.prefix p s ||
  match s with
  | EmptyString => false
  | String _ r => includes r p
  end.

Fixpoint trimStart (s : string) : string :=
  match s with
  | String c r => if is_space c then trimStart r else s
  | EmptyString => EmptyString
  end.

Fixpoint trimEnd (s : string) : string :=
  match s with
  | EmptyString => EmptyString
  | String c r =>
      match trimEnd r with
      | EmptyString => if is_space c then EmptyString else String c EmptyString
      | r' => String c r'
      end
  end.

Definition trim (s : string) : string := trimEnd (trimStart s).

Definition lower (c : ascii) : ascii :=
  if (65 <=? code c) && (code c <=? 90) then ascii_of_nat (code c + 32) else c.

Fixpoint toLowerCase (s : string) : string :=
  match s with
  | EmptyString => EmptyString
  | String c r => String (lower c) (toLowerCase r)
  end.

(** [xs.join(sep)]. *)
Fixpoint join (sep : string) (xs : list string) : string :=
  match xs with
  | [] => EmptyString
  | [x] => x
  | x :: r => x ++ sep ++ join sep r
  end.

(** The members of [xs] not in [seen], each once, in order of first
    occurrence. *)
Fixpoint distinct (seen xs : list string) : list string :=
  match xs with
  | [] => []
  | x :: r =>
      if bool_decide (x ∈ seen) then distinct seen r else x :: distinct (x :: seen) r
  end.

(** The double quote, spelled by its code. *)
Definition dquote : string := String (ascii_of_nat 34) EmptyString.

(** [/^[a-zA-Z][\w-]*$/.test(s)]. *)
Definition valid_id (s : string) : bool :=
  match s with
  | EmptyString => false
  | String c r => is_letter c && all is_word_or_dash r
  end.

(** [c.match(/^(hover|focus|active|selected|disabled)/)]. *)
Definition transient_class (c : string) : bool :=
  startsWith c "hover" || startsWith c "focus" || startsWith c "active"
  || startsWith c "selected" || startsWith c "disabled".

(** A CSS identifier written without escapes: what may follow [.] or stand
    as a type selector. *)
Definition ident_start (c : ascii) : bool :=
  is_letter c || (code c =? 95) || (128 <=? code c).

Definition ident_char (c : ascii) : bool :=
  ident_start c || is_digit c || (code c =? 45).

Definition css_ident (s : string) : bool :=
  match s with
  | EmptyString => false
  | String c r =>
      if code c =? 45 then
        match r with
        | EmptyString => false
        | String d r' => (ident_start d || (code d =? 45)) && all ident_char r'
        end
      else ident_start c && all ident_char r
  end.

(** What may stand between the quotes of a CSS string: no quote, no
    backslash, no line break. *)
Definition css_string_char (c : ascii) : bool :=
  negb ((code c =? 34) || (code c =? 92) || (code c =? 10)
        || (code c =? 12) || (code c =? 13)).

Definition css_string (s : string) : bool := all css_string_char s.

End Str.

(** ** The page *)

(** An element is the position of its node in document order. *)
Abbreviation Element := nat (only parsing).

Record Node := {
  tagName : string;                       (* [element.tagName]: upper case on an HTML element *)
  attributes : gmap string string;        (* getAttribute / setAttribute *)
  (* getComputedStyle and getBoundingClientRect *)
  display : string;
  visibility : string;
  opacity : string;
  rectWidth : Z;
  rectHeight : Z;
  (* rendered text *)
  innerText : option string;              (* a string on an HTMLElement, undefined elsewhere *)
  textContent : string;
  cleanText : string;                     (* textContent of the clone without style, script, svg *)
  value : option string;                  (* [el.value] when it is a string *)
  (* where the node sits *)
  inBody : bool;                          (* document.body.contains(el) *)
  inProduct : bool;                       (* below a product-card like container *)
  navAncestor : bool;                     (* below header, footer, nav or [role=navigation] *)
  inCartForm : bool;                      (* below form[action*=cart] or product-form *)
  wrappingLabel : option Element;         (* el.closest('label') *)
  (* inline style: property -> (value, important) *)
  style : gmap string (string * bool)
}.

Definition blankNode : Node :=
  {| tagName := "DIV"; attributes := ∅; display := "block"; visibility := "visible";
     opacity := "1"; rectWidth := 0; rectHeight := 0; innerText := Some ""; textContent := "";
     cleanText := ""; value := None; inBody := false; inProduct := false;
     navAncestor := false; inCartForm := false; wrappingLabel := None; style := ∅ |}.

Abbreviation Document := (list Node) (only parsing).

Definition nodeAt (d : Document) (el : Element) : Node := nth el d blankNode.

Definition getAttribute (n : Node) (name : string) : option string :=
  attributes n !! name.

(** [el.getAttribute(name) || ''] *)
Definition attr (n : Node) (name : string) : string :=
  default "" (getAttribute n name).

Definition hasAttr (n : Node) (name v : string) : bool :=
  match getAttribute n name with
  | Some x => bool_decide (x = v)
  | None => false
  end.

(** [[name*="frag"]] *)
Definition attrContains (n : Node) (name frag : string) : bool :=
  match getAttribute n name with
  | Some x => Str.includes x frag
  | None => false
  end.

(** [element.classList]: the tokens of the class attribute, each once, in
    order of first occurrence. *)
Definition classList (n : Node) : list string :=
  Str.distinct [] (String.words (attr n "class")).

Definition hasClass (n : Node) (c : string) : bool :=
  bool_decide (c ∈ classList n).

Definition isTag (n : Node) (t : string) : bool := bool_decide (tagName n = t).

Definition localName (n : Node) : string := Str.toLowerCase (tagName n).

Definition setAttributeNode (name v : string) (n : Node) : Node :=
  {| tagName := tagName n; attributes := <[name := v]> (attributes n);
     display := display n; visibility := visibility n; opacity := opacity n;
     rectWidth := rectWidth n; rectHeight := rectHeight n;
     innerText := innerText n; textContent := textContent n; cleanText := cleanText n;
     value := value n; inBody := inBody n; inProduct := inProduct n;
     navAncestor := navAncestor n; inCartForm := inCartForm n;
     wrappingLabel := wrappingLabel n; style := style n |}.

Definition setStyleNode (st : gmap string (string * bool)) (n : Node) : Node :=
  {| tagName := tagName n; attributes := attributes n;
     display := display n; visibility := visibility n; opacity := opacity n;
     rectWidth := rectWidth n; rectHeight := rectHeight n;
     innerText := innerText n; textContent := textContent n; cleanText := cleanText n;
     value := value n; inBody := inBody n; inProduct := inProduct n;
     navAncestor := navAncestor n; inCartForm := inCartForm n;
     wrappingLabel := wrappingLabel n; style := st |}.

Definition setValueNode (v : string) (n : Node) : Node :=
  {| tagName := tagName n; attributes := attributes n;
     display := display n; visibility := visibility n; opacity := opacity n;
     rectWidth := rectWidth n; rectHeight := rectHeight n;
     innerText := innerText n; textContent := textContent n; cleanText := cleanText n;
     value := Some v; inBody := inBody n; inProduct := inProduct n;
     navAncestor := navAncestor n; inCartForm := inCartForm n;
     wrappingLabel := wrappingLabel n; style := style n |}.

(** In-place update of one node; out of range nothing changes. *)
Definition updateNode (f : Node -> Node) (el : Element) (d : Document) : Document :=
  alter f el d.

(** ** Selectors

    The shapes the script builds: [#id], [tag[attr=value]] with the value
    between double quotes, [tag.c1.c2.c3] and the marker [[data-bb-id=uid]].
    [selector_text] is the text the script builds from its template
    literal.  The script never escapes what it splices in.  The browser
    reads the text back as the shape it was built from when every spliced
    identifier is a plain CSS identifier and every quoted value a plain CSS
    string.  Any other text is taken to raise a SyntaxError, as a class
    token with a colon does; a browser reads some of those other texts as a
    different selector instead (a class token with a dot as two classes),
    which this model does not follow.  The round trip from a generated
    selector back to its element is therefore stated for pages whose markup
    needs no escaping, [plainMarkup] below. *)

Inductive Selector :=
| ById (id : string)
| ByAttr (tag name value : string)
| ByClass (tag : string) (classes : list string)
| ByMarker (uid : string).

Definition selector_text (s : Selector) : string :=
  match s with
  | ById id => "#" ++ id
  | ByAttr tag name v => tag ++ "[" ++ name ++ "=" ++ Str.dquote ++ v ++ Str.dquote ++ "]"
  | ByClass tag cs => tag ++ "." ++ Str.join "." cs
  | ByMarker uid => "[data-bb-id=" ++ Str.dquote ++ uid ++ Str.dquote ++ "]"
  end.

Definition is_marker (s : Selector) : bool :=
  match s with ByMarker _ => true | _ => false end.

Definition selector_ok (s : Selector) : bool :=
  match s with
  | ById id => Str.css_ident id
  | ByAttr tag name v => Str.css_ident tag && Str.css_ident name && Str.css_string v
  | ByClass tag cs => Str.css_ident tag && forallb Str.css_ident cs
  | ByMarker uid => Str.css_string uid
  end.

Definition matches (n : Node) (s : Selector) : bool :=
  match s with
  | ById id => hasAttr n "id" id
  | ByAttr tag name v => bool_decide (localName n = tag) && hasAttr n name v
  | ByClass tag cs => bool_decide (localName n = tag) && forallb (hasClass n) cs
  | ByMarker uid => hasAttr n "data-bb-id" uid
  end.

(** The elements of the document that match, in document order; [None]
    stands for the SyntaxError of an invalid selector. *)
Definition selectAll (d : Document) (s : Selector) : option (list Element) :=
  if selector_ok s
  then Some (List.filter (fun el => matches (nodeAt d el) s) (seq 0 (length d)))
  else None.

(** ** The state of the content script *)

(** What the script does to the page or asks of the event loop, in order. *)
Inductive Effect :=
| EExtract                                   (* extractPageFeatures was entered *)
| EScrollBy (top : Z)                        (* window.scrollBy *)
| EClearHighlights
| EScrollIntoView (el : Element)
| EHighlight (el : Element) (duration : Z)
| EPause (ms : Z)                            (* await new Promise(r => setTimeout(r, ms)) *)
| EMovePointer (el : Element)
| EClick (el : Element)
| EFocus (el : Element)
| ESetValue (el : Element) (text : string)
| EDispatch (el : Element) (event : string).

(** Callbacks handed to [setTimeout] that are still to run. *)
Inductive Timer :=
| RestoreHighlight (el : Element) (delay : Z)
| FadePointer (delay : Z).

Record World := {
  doc : Document;
  pageTitle : string;
  pageUrl : string;
  elementCache : gmap string Element;                 (* Map<string, HTMLElement> *)
  selectorCounter : nat;
  clickedElements : gset string;                      (* Set<string> *)
  highlightedElements : gmap Element (string * string);  (* element -> outline, boxShadow *)
  currentHighlightedEl : option Element;
  pointer : option (Element * string);                (* #bb-pointer: where it points, opacity *)
  timers : list Timer;
  trace : list Effect
}.

Definition with_doc (d : Document) (w : World) : World :=
  {| doc := d; pageTitle := pageTitle w; pageUrl := pageUrl w;
     elementCache := elementCache w; selectorCounter := selectorCounter w;
     clickedElements := clickedElements w; highlightedElements := highlightedElements w;
     currentHighlightedEl := currentHighlightedEl w; pointer := pointer w;
     timers := timers w; trace := trace w |}.

Definition with_cache (c : gmap string Element) (k : nat) (w : World) : World :=
  {| doc := doc w; pageTitle := pageTitle w; pageUrl := pageUrl w;
     elementCache := c; selectorCounter := k;
     clickedElements := clickedElements w; highlightedElements := highlightedElements w;
     currentHighlightedEl := currentHighlightedEl w; pointer := pointer w;
     timers := timers w; trace := trace w |}.

Definition with_clicked (s : gset string) (w : World) : World :=
  {| doc := doc w; pageTitle := pageTitle w; pageUrl := pageUrl w;
     elementCache := elementCache w; selectorCounter := selectorCounter w;
     clickedElements := s; highlightedElements := highlightedElements w;
     currentHighlightedEl := currentHighlightedEl w; pointer := pointer w;
     timers := timers w; trace := trace w |}.

Definition with_highlighted (h : gmap Element (string * string)) (w : World) : World :=
  {| doc := doc w; pageTitle := pageTitle w; pageUrl := pageUrl w;
     elementCache := elementCache w; selectorCounter := selectorCounter w;
     clickedElements := clickedElements w; highlightedElements := h;
     currentHighlightedEl := currentHighlightedEl w; pointer := pointer w;
     timers := timers w; trace := trace w |}.

Definition with_overlay (o : option Element) (w : World) : World :=
  {| doc := doc w; pageTitle := pageTitle w; pageUrl := pageUrl w;
     elementCache := elementCache w; selectorCounter := selectorCounter w;
     clickedElements := clickedElements w; highlightedElements := highlightedElements w;
     currentHighlightedEl := o; pointer := pointer w;
     timers := timers w; trace := trace w |}.

Definition with_pointer (p : option (Element * string)) (w : World) : World :=
  {| doc := doc w; pageTitle := pageTitle w; pageUrl := pageUrl w;
     elementCache := elementCache w; selectorCounter := selectorCounter w;
     clickedElements := clickedElements w; highlightedElements := highlightedElements w;
     currentHighlightedEl := currentHighlightedEl w; pointer := p;
     timers := timers w; trace := trace w |}.

Definition with_timers (t : list Timer) (w : World) : World :=
  {| doc := doc w; pageTitle := pageTitle w; pageUrl := pageUrl w;
     elementCache := elementCache w; selectorCounter := selectorCounter w;
     clickedElements := clickedElements w; highlightedElements := highlightedElements w;
     currentHighlightedEl := currentHighlightedEl w; pointer := pointer w;
     timers := t; trace := trace w |}.

Definition with_trace (t : list Effect) (w : World) : World :=
  {| doc := doc w; pageTitle := pageTitle w; pageUrl := pageUrl w;
     elementCache := elementCache w; selectorCounter := selectorCounter w;
     clickedElements := clickedElements w; highlightedElements := highlightedElements w;
     currentHighlightedEl := currentHighlightedEl w; pointer := pointer w;
     timers := timers w; trace := t |}.

(** ** State and exceptions *)

Inductive Outcome (A : Type) :=
| Return (a : A)
| Throw (e : string).
Arguments Return {A} a.
Arguments Throw {A} e.

Definition M (A : Type) : Type := World -> Outcome A * World.

Definition ret {A} (a : A) : M A := fun w => (Return a, w).

Definition bind {A B} (m : M A) (k : A -> M B) : M B :=
  fun w =>
    match m w with
    | (Return a, w') => k a w'
    | (Throw e, w') => (Throw e, w')
    end.

Definition throw {A} (e : string) : M A := fun w => (Throw e, w).

(** [try { m } catch (e) { h e }] *)
Definition try_catch {A} (m : M A) (h : string -> M A) : M A :=
  fun w =>
    match m w with
    | (Return a, w') => (Return a, w')
    | (Throw e, w') => h e w'
    end.

Definition get : M World := fun w => (Return w, w).
Definition modify (f : World -> World) : M unit := fun w => (Return tt, f w).
Definition emit (e : Effect) : M unit := modify (fun w => with_trace (trace w ++ [e])%list w).

Declare Scope engine_scope.
Delimit Scope engine_scope with engine.
Notation "'let*' x ':=' m 'in' k" := (bind m (fun x => k))
  (at level 10, x name, m at level 100, k at level 200) : engine_scope.
Notation "m ';;' k" := (bind m (fun _ => k))
  (at level 100, k at level 200, right associativity) : engine_scope.
Open Scope engine_scope.

(** ** Selector resolver and element cache *)

(** [document.querySelectorAll(selector)] *)
Definition querySelectorAll (s : Selector) : M (list Element) :=
  fun w =>
    match selectAll (doc w) s with
    | Some l => (Return l, w)
    | None => (Throw "SyntaxError", w)
    end.

(** [document.querySelector(selector)] *)
Definition querySelector (s : Selector) : M (option Element) :=
  let* l := querySelectorAll s in ret (head l).

(** The marker id [`bb-${n}`]. *)
Definition markerId (n : nat) : string := "bb-" ++ pretty n.

(** [try { if (document.querySelectorAll(selector).length === 1) return selector } catch (e) {}]:
    whether the guarded block returns. *)
Definition uniqueInDocument (s : Selector) : M bool :=
  try_catch (let* l := querySelectorAll s in ret (length l =? 1)%nat)
            (fun _ => ret false).

Definition isFormControl (n : Node) : bool :=
  isTag n "INPUT" || isTag n "TEXTAREA" || isTag n "SELECT".

(** [Array.from(element.classList).filter(c => c && !c.match(...))] *)
Definition stableClasses (n : Node) : list string :=
  List.filter (fun c => Str.nonempty c && negb (Str.transient_class c)) (classList n).

(** [classes.slice(0, 3)] *)
Definition firstThree (cs : list string) : list string := firstn 3 cs.

Definition stamp (el : Element) (uid : string) (w : World) : World :=
  with_doc (updateNode (setAttributeNode "data-bb-id" uid) el (doc w))
    (with_cache (<[uid := el]> (elementCache w)) (S (selectorCounter w)) w).

(** The last resort of [generateSelector]: a fresh marker, remembered in the
    cache and stamped on the element. *)
Definition cacheFallback (el : Element) : M Selector :=
  let* w := get in
  let uniqueId := markerId (selectorCounter w) in
  modify (stamp el uniqueId);;
  ret (ByMarker uniqueId).

Definition generateSelector (el : Element) : M Selector :=
  let* w := get in
  let n := nodeAt (doc w) el in
  let id := attr n "id" in
  let* byId :=
    (if Str.nonempty id && Str.valid_id id then uniqueInDocument (ById id) else ret false) in
  if byId then ret (ById id) else
  let name := attr n "name" in
  let* byName :=
    (if isFormControl n && Str.nonempty name
     then uniqueInDocument (ByAttr (localName n) "name" name) else ret false) in
  if byName then ret (ByAttr (localName n) "name" name) else
  let classes := stableClasses n in
  let byClassSel := ByClass (localName n) (firstThree classes) in
  let* byClass :=
    (if (0 <? length classes)%nat then uniqueInDocument byClassSel else ret false) in
  if byClass then ret byClassSel else
  cacheFallback el.

(** [s] without its prefix [p], when it starts with [p]. *)
Fixpoint stripPrefix (p s : string) : option string :=
  match p, s with
  | EmptyString, _ => Some s
  | String c p', String d s' => if Ascii.eqb c d then stripPrefix p' s' else None
  | String _ _, EmptyString => None
  end.

Definition quote : ascii := ascii_of_nat 34.

(** The longest run of characters other than the double quote at the head
    of [s], and what follows it. *)
Fixpoint untilQuote (s : string) : string * string :=
  match s with
  | EmptyString => (EmptyString, EmptyString)
  | String c r =>
      if Ascii.eqb c quote then (EmptyString, s)
      else (String c (fst (untilQuote r)), snd (untilQuote r))
  end.

(** The marker pattern anchored at the head of [s]: [data-bb-id=] between
    brackets, with a non-empty run of characters other than the double
    quote between the quotes; the run is what the pattern captures. *)
Definition markerAt (s : string) : option string :=
  match stripPrefix ("[data-bb-id=" ++ Str.dquote) s with
  | Some rest =>
      let run := untilQuote rest in
      if Str.nonempty (fst run) && Str.startsWith (snd run) (Str.dquote ++ "]")
      then Some (fst run) else None
  | None => None
  end.

(** The leftmost match of the pattern anywhere in [s]. *)
Fixpoint markerIn (s : string) : option string :=
  match markerAt s with
  | Some uid => Some uid
  | None =>
      match s with
      | EmptyString => None
      | String _ r => markerIn r
      end
  end.

(** [selector.match(...)] against the marker pattern: the pattern is not
    anchored, so it is looked for anywhere in the text of the selector. *)
Definition cacheMatch (s : Selector) : option string := markerIn (selector_text s).

Definition getElementBySelector (s : Selector) : M (option Element) :=
  let* w := get in
  let cached :=
    match cacheMatch s with
    | Some cachedId =>
        match elementCache w !! cachedId with
        | Some cachedElement =>
            if inBody (nodeAt (doc w) cachedElement) then Some cachedElement else None
        | None => None
        end
    | None => None
    end in
  match cached with
  | Some el => ret (Some el)
  | None => try_catch (querySelector s) (fun _ => ret None)
  end.

(** [markElementAsClicked] *)
Definition markElementAsClicked (el : Element) : M unit :=
  let* selector := generateSelector el in
  modify (fun w => with_clicked ({[ selector_text selector ]} ∪ clickedElements w) w).

(** ** Feature extractor *)

Inductive FeatureType := link | input | button.

Definition type_text (t : FeatureType) : string :=
  match t with link => "link" | input => "input" | button => "button" end.

(** [PageFeature].  [selector] is kept in its shape, [selector_text] gives
    the string; [origin] is not a field of the script's record: it names the
    element the feature was built from, so that properties about that
    element can be stated. *)
Record PageFeature := {
  index : nat;
  type : FeatureType;
  text : string;
  selector : Selector;
  href : option string;
  placeholder : option string;
  aria_label : option string;
  value_len : option nat;
  already_clicked : bool;
  origin : Element
}.

Definition reindexed (i : nat) (f : PageFeature) : PageFeature :=
  {| index := i; type := type f; text := text f; selector := selector f;
     href := href f; placeholder := placeholder f; aria_label := aria_label f;
     value_len := value_len f; already_clicked := already_clicked f; origin := origin f |}.

Record ContentResponse := {
  success : bool;
  message : option string;
  error : option string;
  respTitle : option string;
  respUrl : option string;
  features : option (list PageFeature)
}.

Definition okMessage (m : string) : ContentResponse :=
  {| success := true; message := Some m; error := None;
     respTitle := None; respUrl := None; features := None |}.

Definition failure (e : string) : ContentResponse :=
  {| success := false; message := None; error := Some e;
     respTitle := None; respUrl := None; features := None |}.

(** [s || undefined] *)
Definition orUndefined (s : string) : option string :=
  if Str.nonempty s then Some s else None.

(** [s.substring(0, 100)] *)
Definition clip (s : string) : string := String.substring 0 100 s.

(** [isVisible] *)
Definition isVisible (n : Node) : bool :=
  negb (bool_decide (display n = "none"))
  && negb (bool_decide (visibility n = "hidden"))
  && negb (bool_decide (opacity n = "0"))
  && (0 <? rectWidth n)%Z && (0 <? rectHeight n)%Z.

(** [document.querySelectorAll] with one of the fixed selector lists of the
    extractor, given as the test a node passes to be matched. *)
Definition queryFixed (p : Node -> bool) (d : Document) : list Element :=
  List.filter (fun el => p (nodeAt d el)) (seq 0 (length d)).

(** The type selector [a]: an HTML anchor, or an element of another
    namespace whose name is [a], such as the anchor of SVG. *)
Definition isAnchor (n : Node) : bool :=
  match innerText n with
  | Some _ => isTag n "A"
  | None => isTag n "a"
  end.

(** [[type="v"]]: the value of the type attribute is compared without
    regard to ASCII case. *)
Definition hasType (n : Node) (v : string) : bool :=
  match getAttribute n "type" with
  | Some x => bool_decide (Str.toLowerCase x = v)
  | None => false
  end.

Definition isProductLink (n : Node) : bool := isAnchor n && inProduct n.

Definition isOtherLink (n : Node) : bool :=
  isAnchor n && bool_decide (is_Some (getAttribute n "href")) && negb (navAncestor n).

(** [el.closest('header, footer, nav, [role=navigation]')] is not null *)
Definition inNavRegion (n : Node) : bool :=
  navAncestor n || isTag n "HEADER" || isTag n "FOOTER" || isTag n "NAV"
  || hasAttr n "role" "navigation".

Definition isInputCandidate (n : Node) : bool :=
  (isTag n "INPUT" && negb (hasType n "hidden") && negb (hasType n "button")
   && negb (hasType n "submit"))
  || isTag n "TEXTAREA" || isTag n "SELECT".

Definition isActionCandidate (n : Node) : bool :=
  hasClass n "add-to-cart" || hasClass n "addtocart"
  || attrContains n "class" "add-to-cart" || attrContains n "class" "AddToCart"
  || attrContains n "id" "add-to-cart" || attrContains n "id" "AddToCart"
  || attrContains n "name" "add"
  || (isTag n "BUTTON" && hasAttr n "name" "add")
  || (isTag n "BUTTON" && hasType n "submit")
  || (isTag n "BUTTON" && inCartForm n).

Definition isButtonCandidate (n : Node) : bool :=
  isTag n "BUTTON"
  || (isTag n "INPUT" && (hasType n "button" || hasType n "submit"))
  || hasAttr n "role" "button".

(** [s.replace(pat, '')]: the first occurrence of [pat] is removed. *)
Fixpoint removeFirst (pat s : string) : string :=
  if String.prefix pat s then String.substring (String.length pat) (String.length s) s
  else match s with
       | EmptyString => EmptyString
       | String c r => String c (removeFirst pat r)
       end.

(** [document.getElementById(id)] *)
Definition getElementById (d : Document) (id : string) : option Element :=
  head (queryFixed (fun n => hasAttr n "id" id) d).

(** [findLabelFor] *)
Definition findLabelFor (el : Element) : M string :=
  let* w := get in
  let n := nodeAt (doc w) el in
  let id := attr n "id" in
  let* byFor :=
    (if Str.nonempty id then querySelector (ByAttr "label" "for" id) else ret None) in
  match byFor with
  | Some label => ret (Str.trim (textContent (nodeAt (doc w) label)))
  | None =>
      match wrappingLabel n with
      | Some parentLabel =>
          let text := Str.trim (textContent (nodeAt (doc w) parentLabel)) in
          let inputText := default "" (value n) in
          ret (Str.trim (removeFirst inputText text))
      | None =>
          let labelledBy := attr n "aria-labelledby" in
          match (if Str.nonempty labelledBy then getElementById (doc w) labelledBy else None) with
          | Some labelEl => ret (Str.trim (textContent (nodeAt (doc w) labelEl)))
          | None => ret ""
          end
      end
  end.

Definition linkFeature (i : nat) (label : string) (s : Selector) (url ariaLabel : string)
    (clicked : bool) (el : Element) : PageFeature :=
  {| index := i; type := link; text := clip label; selector := s;
     href := orUndefined url; placeholder := None; aria_label := orUndefined ariaLabel;
     value_len := None; already_clicked := clicked; origin := el |}.

(** The loop over [allLinks]; [acc] is [linkFeatures] so far.  The counts of
    product and other links only feed a log line and are left out.  On an
    anchor without [innerText] the call of [trim] on it raises a TypeError,
    which nothing catches. *)
Fixpoint collectLinks (links : list Element) (acc : list PageFeature)
    (seenUrls : gset string) (idx : nat) : M (list PageFeature * nat) :=
  match links with
  | [] => ret (acc, idx)
  | el :: rest =>
      if (60 <=? length acc)%nat then ret (acc, idx) else
      let* w := get in
      let n := nodeAt (doc w) el in
      let url := attr n "href" in
      if negb (Str.nonempty url) || Str.startsWith url "javascript:" || bool_decide (url = "#")
      then collectLinks rest acc seenUrls idx else
      if inNavRegion n then collectLinks rest acc seenUrls idx else
      if bool_decide (url ∈ seenUrls) then collectLinks rest acc seenUrls idx else
      let seenUrls' := {[ url ]} ∪ seenUrls in
      if negb (isVisible n) then collectLinks rest acc seenUrls' idx else
      match innerText n with
      | None => throw "TypeError"
      | Some rendered =>
          let label := Str.or_else (Str.trim rendered) (Str.trim (textContent n)) in
          let ariaLabel := attr n "aria-label" in
          if negb (Str.nonempty label) && negb (Str.nonempty ariaLabel)
          then collectLinks rest acc seenUrls' idx else
          if Str.startsWith url "#" && negb (Str.includes url "MainContent")
          then collectLinks rest acc seenUrls' idx else
          let* s := generateSelector el in
          let* w' := get in
          let f := linkFeature idx (Str.or_else label ariaLabel) s url ariaLabel
                     (bool_decide (selector_text s ∈ clickedElements w')) el in
          collectLinks rest (acc ++ [f])%list seenUrls' (S idx)
      end
  end.

Definition valueLength (n : Node) : nat :=
  match value n with Some v => String.length v | None => 0 end.

Definition inputFeature (i : nat) (label name holder ariaLabel : string) (n : Node)
    (s : Selector) (clicked : bool) (el : Element) : PageFeature :=
  {| index := i; type := input;
     text := Str.or_else label (Str.or_else name (Str.or_else holder
               (Str.or_else (attr n "type") "text")));
     selector := s; href := None; placeholder := orUndefined holder;
     aria_label := orUndefined (Str.or_else ariaLabel label);
     value_len := Some (valueLength n); already_clicked := clicked; origin := el |}.

(** The loop over [inputs]. *)
Fixpoint collectInputs (inputs : list Element) (acc : list PageFeature) (idx : nat)
    : M (list PageFeature * nat) :=
  match inputs with
  | [] => ret (acc, idx)
  | el :: rest =>
      if (75 <=? length acc)%nat then ret (acc, idx) else
      let* w := get in
      let n := nodeAt (doc w) el in
      if negb (isVisible n) then collectInputs rest acc idx else
      let holder := attr n "placeholder" in
      let ariaLabel := attr n "aria-label" in
      let name := attr n "name" in
      let* label := findLabelFor el in
      let* s := generateSelector el in
      let* w' := get in
      let f := inputFeature idx label name holder ariaLabel n s
                 (bool_decide (selector_text s ∈ clickedElements w')) el in
      collectInputs rest (acc ++ [f])%list (S idx)
  end.

Definition looksLikeCss (t : string) : bool :=
  Str.includes t ".cls-" || Str.includes t "{" || Str.includes t "fill:"
  || Str.includes t "stroke:".

Definition buttonFeature (i : nat) (label ariaLabel : string) (s : Selector)
    (clicked : bool) (el : Element) : PageFeature :=
  {| index := i; type := button; text := clip label; selector := s;
     href := None; placeholder := None; aria_label := orUndefined ariaLabel;
     value_len := None; already_clicked := clicked; origin := el |}.

(** The loop over [allButtons]; [actionButtons] is the first query result,
    against which [actionButtons.includes(button)] is answered. *)
Fixpoint collectButtons (actionButtons buttons : list Element) (acc : list PageFeature)
    (seenButtonSelectors : gset string) (idx : nat) : M (list PageFeature * nat) :=
  match buttons with
  | [] => ret (acc, idx)
  | el :: rest =>
      if (75 <=? length acc)%nat then ret (acc, idx) else
      let* w := get in
      let n := nodeAt (doc w) el in
      let isActionButton := bool_decide (el ∈ actionButtons) in
      if negb isActionButton && negb (isVisible n)
      then collectButtons actionButtons rest acc seenButtonSelectors idx else
      let hasSize := (0 <? rectWidth n)%Z || (0 <? rectHeight n)%Z in
      if isActionButton && negb hasSize && negb (inBody n)
      then collectButtons actionButtons rest acc seenButtonSelectors idx else
      let label := Str.or_else (Str.trim (cleanText n)) (default "" (value n)) in
      let ariaLabel := attr n "aria-label" in
      let buttonName := attr n "name" in
      if looksLikeCss label
      then collectButtons actionButtons rest acc seenButtonSelectors idx else
      if negb (Str.nonempty label) && negb (Str.nonempty ariaLabel)
         && negb (Str.nonempty buttonName)
      then collectButtons actionButtons rest acc seenButtonSelectors idx else
      let* s := generateSelector el in
      if bool_decide (selector_text s ∈ seenButtonSelectors)
      then collectButtons actionButtons rest acc seenButtonSelectors idx else
      let* w' := get in
      let f := buttonFeature idx (Str.or_else label (Str.or_else ariaLabel buttonName))
                 ariaLabel s (bool_decide (selector_text s ∈ clickedElements w')) el in
      collectButtons actionButtons rest (acc ++ [f])%list
        ({[ selector_text s ]} ∪ seenButtonSelectors) (S idx)
  end.

(** [`${f.type}:${f.text}:${f.href || ''}`] *)
Definition dedupKey (f : PageFeature) : string :=
  type_text (type f) ++ ":" ++ text f ++ ":" ++ default "" (href f).

(** [features.filter(f => ...)] with the [seen] set of keys. *)
Fixpoint uniqueBy (seen : gset string) (fs : list PageFeature) : list PageFeature :=
  match fs with
  | [] => []
  | f :: rest =>
      if bool_decide (dedupKey f ∈ seen) then uniqueBy seen rest
      else f :: uniqueBy ({[ dedupKey f ]} ∪ seen) rest
  end.

(** [uniqueFeatures.forEach((f, idx) => { f.index = idx })] *)
Fixpoint reindexFrom (i : nat) (fs : list PageFeature) : list PageFeature :=
  match fs with
  | [] => []
  | f :: rest => reindexed i f :: reindexFrom (S i) rest
  end.

Definition extractPageFeatures : M ContentResponse :=
  emit EExtract;;
  let* w0 := get in
  let productLinks := queryFixed isProductLink (doc w0) in
  let otherLinks := queryFixed isOtherLink (doc w0) in
  let allLinks := (productLinks ++ otherLinks)%list in
  let* links := collectLinks allLinks [] ∅ 0 in
  let* w1 := get in
  let inputs := queryFixed isInputCandidate (doc w1) in
  let* ins := collectInputs inputs [] (snd links) in
  let* w2 := get in
  let actionButtons := queryFixed isActionCandidate (doc w2) in
  let otherButtons := queryFixed isButtonCandidate (doc w2) in
  let allButtons := (actionButtons ++ otherButtons)%list in
  let* btns := collectButtons actionButtons allButtons [] ∅ (snd ins) in
  let collected := (fst links ++ fst ins ++ fst btns)%list in
  let uniqueFeatures := reindexFrom 0 (uniqueBy ∅ collected) in
  ret {| success := true;
         message := Some ("Found " ++ pretty (length uniqueFeatures) ++ " interactive elements");
         error := None;
         respTitle := Some (pageTitle w0);
         respUrl := Some (pageUrl w0);
         features := Some uniqueFeatures |}.

(** ** Highlight subsystem *)

(** [element.style.outline] and the like: the value, or the empty string. *)
Definition styleValue (n : Node) (prop : string) : string :=
  match style n !! prop with Some (v, _) => v | None => "" end.

(** [element.style.setProperty(prop, v, 'important')] *)
Definition setImportant (prop v : string) (n : Node) : Node :=
  setStyleNode (<[prop := (v, true)]> (style n)) n.

(** [element.style.prop = v]: the empty string removes the declaration. *)
Definition assignStyle (prop v : string) (n : Node) : Node :=
  if Str.nonempty v then setStyleNode (<[prop := (v, false)]> (style n)) n
  else setStyleNode (delete prop (style n)) n.

Definition restoreStyles (el : Element) (original : string * string) (d : Document)
    : Document :=
  updateNode (fun n => assignStyle "box-shadow" (snd original)
                         (assignStyle "outline" (fst original) n)) el d.

(** [stopOverlayTracking] *)
Definition stopOverlayTracking : M unit := modify (with_overlay None).

(** [clearAllHighlights] *)
Definition clearAllHighlights : M unit :=
  emit EClearHighlights;;
  modify (fun w => with_doc (map_fold restoreStyles (doc w) (highlightedElements w)) w);;
  modify (with_highlighted ∅);;
  stopOverlayTracking;;
  modify (fun w =>
    match pointer w with
    | Some (at_el, _) => with_pointer (Some (at_el, "0")) w
    | None => w
    end).

(** [highlightElement(element, duration)] *)
Definition highlightElement (el : Element) (duration : Z) : M unit :=
  emit (EHighlight el duration);;
  modify (fun w =>
    match highlightedElements w !! el with
    | Some _ => w
    | None =>
        let n := nodeAt (doc w) el in
        with_highlighted
          (<[el := (styleValue n "outline", styleValue n "box-shadow")]> (highlightedElements w)) w
    end);;
  modify (fun w => with_doc
    (updateNode (fun n =>
       setImportant "box-shadow" "0 0 0 4px rgba(255, 0, 0, 0.35)"
         (setImportant "outline-offset" "2px"
            (setImportant "outline" "3px solid #ff0000" n))) el (doc w)) w);;
  if (0 <? duration)%Z
  then modify (fun w => with_timers (timers w ++ [RestoreHighlight el duration])%list w)
  else ret tt.

(** [movePointerToElement]: the pointer node is created on first use and
    kept apart from the page's own nodes. *)
Definition movePointerToElement (el : Element) : M unit :=
  emit (EMovePointer el);;
  modify (with_pointer (Some (el, "1")));;
  modify (fun w => with_timers (timers w ++ [FadePointer 2500])%list w).

(** ** Action executor *)

(** [targetIndex] as the payload carries it. *)
Inductive JsIndex := Undefined | Null | Num (n : Z).

Record ActionPayload := {
  action : string;
  targetIndex : JsIndex;
  textInput : option string
}.

(** [targetIndex === null] *)
Definition isNull (t : JsIndex) : bool :=
  match t with Null => true | _ => false end.

(** [f.index === targetIndex] *)
Definition indexIs (t : JsIndex) (f : PageFeature) : bool :=
  match t with
  | Num n => bool_decide (Z.of_nat (index f) = n)
  | _ => false
  end.

(** [`${targetIndex}`] *)
Definition indexText (t : JsIndex) : string :=
  match t with
  | Undefined => "undefined"
  | Null => "null"
  | Num n => pretty n
  end.

(** [element.value = v]: the element keeps the text it is given, as a text
    field does.  A control that refuses an assigned value or rewrites it (a
    file input, a number or date field, a select) is not described. *)
Definition setValue (el : Element) (v : string) : M unit :=
  emit (ESetValue el v);;
  modify (fun w => with_doc (updateNode (setValueNode v) el (doc w)) w).

(** [executeAction].  The awaits are recorded as pauses; what the scripts
    of the page do during a pause, on a click or on focus, input and change
    events is outside the engine: the page is taken to stay as the engine
    left it. *)
Definition executeAction (payload : ActionPayload) : M ContentResponse :=
  if bool_decide (action payload = "SCROLL")
  then emit (EScrollBy 300);; ret (okMessage "Scrolled down") else
  if bool_decide (action payload = "WAIT")
  then emit (EPause 1000);; ret (okMessage "Waited 1 second") else
  if isNull (targetIndex payload)
  then ret (failure "No target element specified") else
  let* r := extractPageFeatures in
  match List.find (indexIs (targetIndex payload)) (default [] (features r)) with
  | None =>
      ret (failure ("Element with index " ++ indexText (targetIndex payload) ++ " not found"))
  | Some feature =>
      let* found := getElementBySelector (selector feature) in
      match found with
      | None => ret (failure ("Could not find element: " ++ selector_text (selector feature)))
      | Some element =>
          clearAllHighlights;;
          emit (EScrollIntoView element);;
          highlightElement element 5000;;
          emit (EPause 500);;
          if bool_decide (action payload = "CLICK") then
            movePointerToElement element;;
            emit (EPause 800);;
            emit (EClick element);;
            markElementAsClicked element;;
            ret (okMessage ("Clicked: " ++ text feature))
          else if bool_decide (action payload = "TYPE") then
            match textInput payload with
            | Some (String c rest) =>
                let t := String c rest in
                emit (EFocus element);;
                setValue element t;;
                emit (EDispatch element "input");;
                emit (EDispatch element "change");;
                ret (okMessage ("Typed " ++ Str.dquote ++ t ++ Str.dquote ++ " into "
                                ++ text feature))
            | _ => ret (failure "No text to type")
            end
          else ret (failure ("Unknown action: " ++ action payload))
      end
  end.

(** ** Event waiter *)

Record WaitPayload := {
  event : string;
  waitIndex : JsIndex;                 (* targetIndex, null when omitted *)
  waitSelector : option Selector;
  timeoutMs : Z
}.

(** The two callbacks a wait on an element registers, and the one of a wait
    on scroll. *)
Inductive Handler := onClick | onInput | onScroll.

Global Instance Handler_eq_dec : EqDecision Handler.
Proof. solve_decision. Defined.

(** Where the wait listens. *)
Inductive WaitTarget := OnWindow | OnElement (el : Element).

(** The closure of the promise a wait returns: the [done] flag, the
    capturing listeners it has registered, whether its timer is still to
    fire, and every call of [resolve] so far. *)
Record Pending := {
  target : WaitTarget;
  awaited : string;
  done : bool;
  listeners : list (string * Handler);
  timerArmed : bool;
  resolved : list ContentResponse
}.

Definition addEventListener (ty : string) (h : Handler) (p : Pending) : Pending :=
  {| target := target p; awaited := awaited p; done := done p;
     listeners := (listeners p ++ [(ty, h)])%list;
     timerArmed := timerArmed p; resolved := resolved p |}.

Definition removeEventListener (ty : string) (h : Handler) (p : Pending) : Pending :=
  {| target := target p; awaited := awaited p; done := done p;
     listeners := List.filter (fun l => negb (bool_decide (l = (ty, h)))) (listeners p);
     timerArmed := timerArmed p; resolved := resolved p |}.

Definition setTimer (armed : bool) (p : Pending) : Pending :=
  {| target := target p; awaited := awaited p; done := done p;
     listeners := listeners p; timerArmed := armed; resolved := resolved p |}.

Definition settle (r : ContentResponse) (p : Pending) : Pending :=
  {| target := target p; awaited := awaited p; done := true;
     listeners := listeners p; timerArmed := timerArmed p;
     resolved := (resolved p ++ [r])%list |}.

(** [finish(ok, msg)] of a wait on an element. *)
Definition finish (ok : bool) (msg : string) (p : Pending) : Pending :=
  if done p then p else
  let p1 := settle (if ok then okMessage msg else failure msg) p in
  removeEventListener "change" onInput
    (removeEventListener "input" onInput
       (removeEventListener "click" onClick p1)).

(** The scroll wait: its listener and its timer callback share the guard. *)
Definition finishScroll (ok : bool) (p : Pending) : Pending :=
  if done p then p else
  let r := if ok then okMessage "Detected scroll"
           else failure "Timed out waiting for scroll" in
  removeEventListener "scroll" onScroll (settle r p).

Definition newPending (t : WaitTarget) (ev : string) : Pending :=
  {| target := t; awaited := ev; done := false; listeners := [];
     timerArmed := false; resolved := [] |}.

(** The executor of [new Promise(...)] for a wait on [element]. *)
Definition startElementWait (el : Element) (ev : string) : Pending :=
  let p := newPending (OnElement el) ev in
  if bool_decide (ev = "click") then
    setTimer true (addEventListener "click" onClick p)
  else if bool_decide (ev = "input") then
    setTimer true (addEventListener "change" onInput (addEventListener "input" onInput p))
  else finish false ("Unknown event: " ++ ev) p.

Definition startScrollWait : Pending :=
  setTimer true (addEventListener "scroll" onScroll (newPending OnWindow "scroll")).

(** What a wait answers at once, or the promise it leaves pending. *)
Inductive WaitStart :=
| Answered (r : ContentResponse)
| Waiting (p : Pending).

(** [waitForEvent] up to the point where the promise is created. *)
Definition waitForEvent (payload : WaitPayload) : M WaitStart :=
  if bool_decide (event payload = "scroll") then ret (Waiting startScrollWait) else
  let* resolvedSelector :=
    (match waitSelector payload with
     | Some s => ret (Some s)
     | None =>
         if isNull (waitIndex payload) then ret None else
         let* r := extractPageFeatures in
         ret (selector <$> List.find (indexIs (waitIndex payload)) (default [] (features r)))
     end) in
  match resolvedSelector with
  | None => ret (Answered (failure "No selector/targetIndex provided"))
  | Some s =>
      let* found := getElementBySelector s in
      match found with
      | None => ret (Answered (failure ("Could not find element: " ++ selector_text s)))
      | Some el => ret (Waiting (startElementWait el (event payload)))
      end
  end.

(** What reaches a pending wait afterwards: an event of some type arriving
    at its target in the capture phase, or its timer firing. *)
Inductive Stimulus :=
| Dispatched (ty : string)
| TimerFired.

Definition callHandler (h : Handler) (p : Pending) : Pending :=
  match h with
  | onClick => finish true "Detected click" p
  | onInput => finish true "Detected input" p
  | onScroll => finishScroll true p
  end.

(** A listener still registered when its turn comes is called. *)
Definition deliver (ty : string) (p : Pending) : Pending :=
  fold_left
    (fun q l =>
       if bool_decide (fst l = ty) && bool_decide (l ∈ listeners q)
       then callHandler (snd l) q else q)
    (listeners p) p.

Definition react (p : Pending) (s : Stimulus) : Pending :=
  match s with
  | Dispatched ty => deliver ty p
  | TimerFired =>
      if timerArmed p then
        let q := setTimer false p in
        match target p with
        | OnWindow => finishScroll false q
        | OnElement _ => finish false ("Timed out waiting for " ++ awaited p) q
        end
      else p
  end.

Definition run (p : Pending) (ss : list Stimulus) : Pending := fold_left react ss p.

(** ** Example pages *)

(** A rendered element: visible, inside body, with the given tag,
    attributes and text. *)
Definition element (tag : string) (attrs : list (string * string)) (label : string) : Node :=
  {| tagName := tag; attributes := list_to_map attrs; display := "block";
     visibility := "visible"; opacity := "1"; rectWidth := 80; rectHeight := 20;
     innerText := Some label; textContent := label; cleanText := label; value := None;
     inBody := true; inProduct := false; navAncestor := false; inCartForm := false;
     wrappingLabel := None; style := ∅ |}.


(** The script as loaded on a page: empty cache and memo, counter at 0. *)
Definition loaded (d : Document) : World :=
  {| doc := d; pageTitle := "Shop"; pageUrl := "https://shop.example/";
     elementCache := ∅; selectorCounter := 0; clickedElements := ∅;
     highlightedElements := ∅; currentHighlightedEl := None; pointer := None;
     timers := []; trace := [] |}.

(** A small shop page: a product link, a search field, an add-to-cart
    button that both button queries match, and a bare button. *)
Definition shopPage : Document :=
  [ element "A" [("href", "/products/tea"); ("class", "card-link")] "Green tea";
    element "INPUT" [("name", "q"); ("type", "search")] "";
    element "BUTTON" [("type", "submit"); ("class", "add-to-cart")] "Add to cart";
    element "BUTTON" [] "Menu" ].


(** A page with one bare button: no id, no name, no class; [mark] is the
    marker attribute it may already carry. *)
Definition bareButtonPage (mark : option string) : Document :=
  [ element "BUTTON"
      match mark with Some m => [("data-bb-id", m)] | None => [] end "Menu" ].

(** [c] repeated [n] times. *)
Fixpoint repeated (n : nat) (c : ascii) : string :=
  match n with
  | O => EmptyString
  | S m => String c (repeated m c)
  end.

(** A text field whose name is 101 characters long. *)
Definition longNamePage : Document :=
  [ element "INPUT" [("type", "text"); ("name", repeated 101 "x")] "" ].

(** A page with one search field. *)
Definition searchPage : Document :=
  [ element "INPUT" [("type", "search"); ("name", "q")] "" ].

(** A text field whose id holds a double quote. *)
Definition quotedIdPage : Document :=
  [ element "INPUT" [("type", "text"); ("id", "user" ++ Str.dquote ++ "name")] "" ].


(** A link whose only class is a responsive utility class with a colon. *)
Definition utilityClassPage : Document :=
  [ element "A" [("href", "/sale"); ("class", "md:flex")] "Sale" ].

(** ** Timers *)

(** [element.style.removeProperty(prop)] *)
Definition removeProperty (prop : string) (n : Node) : Node :=
  setStyleNode (delete prop (style n)) n.

(** The callback [highlightElement] hands to [setTimeout]: if the element
    is still tracked, the forced properties go, the recorded values come
    back and the record is forgotten. *)
Definition restoreHighlight (el : Element) : M unit :=
  modify (fun w =>
    match highlightedElements w !! el with
    | Some original =>
        with_highlighted (delete el (highlightedElements w))
          (with_doc
             (updateNode (fun n =>
                assignStyle "box-shadow" (snd original)
                  (assignStyle "outline" (fst original)
                     (removeProperty "box-shadow"
                        (removeProperty "outline-offset"
                           (removeProperty "outline" n))))) el (doc w)) w)
    | None => w
    end).

(** The callback [movePointerToElement] hands to [setTimeout]. *)
Definition fadePointer : M unit :=
  modify (fun w =>
    match pointer w with
    | Some (at_el, _) => with_pointer (Some (at_el, "0")) w
    | None => w
    end).

Definition callback (t : Timer) : M unit :=
  match t with
  | RestoreHighlight el _ => restoreHighlight el
  | FadePointer _ => fadePointer
  end.

(** The [i]-th pending timer fires: it leaves the pending list and its
    callback runs. *)
Definition timerFires (i : nat) : M unit :=
  let* w := get in
  match nth_error (timers w) i with
  | Some t => modify (fun v => with_timers (delete i (timers v)) v);; callback t
  | None => ret tt
  end.

(** ** Highlight by index *)

Record HighlightPayload := {
  hlIndex : JsIndex;
  hlSelector : option Selector;
  hlDuration : option Z
}.

(** [startOverlayTracking]: the element the overlay follows.  The overlay
    node and the animation-frame loop that positions it are not part of
    the state. *)
Definition startOverlayTracking (el : Element) : M unit :=
  modify (with_overlay (Some el)).

(** [highlightElementByIndex] from the point where the selector is known. *)
Definition highlightResolved (s : Selector) (labelText : string) (duration : Z)
    : M ContentResponse :=
  let* found := getElementBySelector s in
  match found with
  | None => ret (failure ("Could not find element: " ++ selector_text s))
  | Some element =>
      clearAllHighlights;;
      emit (EScrollIntoView element);;
      startOverlayTracking element;;
      highlightElement element duration;;
      movePointerToElement element;;
      let* w := get in
      ret (okMessage ("Highlighted: " ++
             Str.or_else labelText
               (Str.or_else (attr (nodeAt (doc w) element) "aria-label") "element")))
  end.

(** [highlightElementByIndex] *)
Definition highlightElementByIndex (payload : HighlightPayload) : M ContentResponse :=
  let duration := default 5000%Z (hlDuration payload) in
  match hlSelector payload with
  | Some s => highlightResolved s "" duration
  | None =>
      match hlIndex payload with
      | Num k =>
          let* r := extractPageFeatures in
          match List.find (indexIs (Num k)) (default [] (features r)) with
          | None => ret (failure ("Element with index " ++ indexText (Num k) ++ " not found"))
          | Some feature => highlightResolved (selector feature) (text feature) duration
          end
      | _ => ret (failure "No selector/targetIndex provided")
      end
  end.

(** ** The message listener of the content script *)

Inductive Message :=
| PING
| GET_FEATURES
| HIGHLIGHT_ELEMENT (payload : HighlightPayload)
| CLEAR_HIGHLIGHTS
| EXECUTE_ACTION (payload : ActionPayload)
| WAIT_FOR_EVENT (payload : WaitPayload)
| USER_PROMPT
| OtherMessage (type : string).

(** What the listener does with [sendResponse]. *)
Inductive Reply :=
| Pong                              (* success and loaded, both true *)
| Response (r : ContentResponse)
| Promised (p : Pending)            (* the reply comes when the wait settles *)
| NoReply.                          (* the listener returns false *)

Definition successOnly : ContentResponse :=
  {| success := true; message := None; error := None;
     respTitle := None; respUrl := None; features := None |}.

(** [promise.then(sendResponse).catch(error => sendResponse(failure))] *)
Definition orFailure (m : M ContentResponse) : M ContentResponse :=
  try_catch m (fun e => ret (failure e)).

Definition onMessage (m : Message) : M Reply :=
  match m with
  | PING => ret Pong
  | GET_FEATURES => let* r := extractPageFeatures in ret (Response r)
  | HIGHLIGHT_ELEMENT p => let* r := orFailure (highlightElementByIndex p) in ret (Response r)
  | CLEAR_HIGHLIGHTS => clearAllHighlights;; ret (Response successOnly)
  | EXECUTE_ACTION p => let* r := orFailure (executeAction p) in ret (Response r)
  | WAIT_FOR_EVENT p =>
      try_catch
        (let* s := waitForEvent p in
         ret match s with
             | Answered r => Response r
             | Waiting q => Promised q
             end)
        (fun e => ret (Response (failure e)))
  | USER_PROMPT => let* r := extractPageFeatures in ret (Response r)
  | OtherMessage _ => ret NoReply
  end.

(** ** Background service worker *)

Module Background.

(** [getInjectionBlockReason] *)
Definition getInjectionBlockReason (url : option string) : option string :=
  match url with
  | None | Some EmptyString => Some "No tab URL available"
  | Some url =>
      let u := Str.toLowerCase url in
      if Str.startsWith u "chrome://" || Str.startsWith u "edge://"
         || Str.startsWith u "about:"
      then Some "Browser internal pages do not allow extension injection. Open a normal website tab instead."
      else if Str.startsWith u "https://chrome.google.com/webstore"
              || Str.startsWith u "https://chromewebstore.google.com/"
      then Some "Chrome Web Store pages do not allow extension injection."
      else if Str.startsWith u "chrome-extension://"
      then Some "Extension pages do not allow injection into themselves."
      else if Str.startsWith u "file://"
      then Some "File pages require enabling “Allow access to file URLs” in the extension settings."
      else None
  end.

(** What the worker meets when it tries a tab: whether a content script
    answers the ping, the script files the manifest lists, and the error
    with which [executeScript] fails, if it does, as its message and its
    string form. *)
Record Browser := {
  scriptAnswers : bool;
  manifestScripts : list string;
  injectionError : option (string * string)
}.

(** The calls the worker makes. *)
Inductive Call :=
| SendPing (tabId : nat)
| ExecuteScript (tabId : nat) (files : list string)
| Pause (ms : Z)
| Forward (tabId : nat).

Record Ensured := { ok : bool; reason : option string }.

(** [ensureContentScript], with the calls it made. *)
Definition ensureContentScript (b : Browser) (tabId : nat) (tabUrl : option string)
    : Ensured * list Call :=
  match getInjectionBlockReason tabUrl with
  | Some blocked => ({| ok := false; reason := Some blocked |}, [])
  | None =>
      if scriptAnswers b then ({| ok := true; reason := None |}, [SendPing tabId])
      else
        match manifestScripts b with
        | [] => ({| ok := false;
                    reason := Some "Extension manifest has no content_scripts entry to inject." |},
                 [SendPing tabId])
        | files =>
            match injectionError b with
            | None => ({| ok := true; reason := None |},
                       [SendPing tabId; ExecuteScript tabId files; Pause 100])
            | Some (msg, str) =>
                ({| ok := false;
                    reason := Some ("Failed to inject content script: " ++
                                    Str.or_else msg (Str.or_else str "Unknown injection error")) |},
                 [SendPing tabId; ExecuteScript tabId files])
            end
        end
  end.

Definition contentMessageTypes : list string :=
  ["USER_PROMPT"; "GET_FEATURES"; "EXECUTE_ACTION"; "WAIT_FOR_EVENT";
   "HIGHLIGHT_ELEMENT"; "CLEAR_HIGHLIGHTS"].

(** The active tab as [chrome.tabs.query] gives it: its id, if it has one,
    and its url.  An id of 0 counts as none, as [!activeTab?.id] has it. *)
Record Tab := { tabId : option nat; tabUrl : option string }.

(** What comes back from the content script: its response, or the message
    of [chrome.runtime.lastError]. *)
Inductive Delivery :=
| Delivered (r : ContentResponse)
| LastError (msg : string).

(** The routing branch of the worker's message listener: the response it
    sends, if the message is one it routes, and the calls it made. *)
Definition route (b : Browser) (activeTab : option Tab) (type target : string)
    (d : Delivery) : option ContentResponse * list Call :=
  if bool_decide (type ∈ contentMessageTypes) && bool_decide (target = "content") then
    match activeTab with
    | Some {| tabId := Some (S i); tabUrl := url |} =>
        let id := S i in
        let '(injected, calls) := ensureContentScript b id url in
        if ok injected then
          match d with
          | Delivered r => (Some r, (calls ++ [Forward id])%list)
          | LastError msg => (Some (failure msg), (calls ++ [Forward id])%list)
          end
        else
          (Some (failure (default "Could not inject content script. Try refreshing the page."
                            (match reason injected with
                             | Some (String c r) => Some (String c r)
                             | _ => None
                             end))), calls)
    | _ => (Some (failure "No active tab found"), [])
    end
  else (None, []).

End Background.

(** ** Procedures of the backend client *)

Module Api.

(** [Procedure]: what the matching reads of it. *)
Record Procedure := { procId : string; goal : string }.

(** [s.split(/\s+/)]: the pieces between runs of white space; an empty
    piece stands at an end where the string begins or ends with white
    space. *)
Fixpoint splitFrom (s cur : string) (inSpace : bool) : list string :=
  match s with
  | EmptyString => [cur]
  | String c r =>
      if Str.is_space c then
        if inSpace then splitFrom r EmptyString true
        else cur :: splitFrom r EmptyString true
      else splitFrom r (cur ++ String c EmptyString) false
  end.

Definition splitSpaces (s : string) : list string := splitFrom s EmptyString false.

(** The number of words of the goal, longer than two characters, that the
    goal of the procedure contains. *)
Definition score (goalLower : string) (proc : Procedure) : nat :=
  let procGoalLower := Str.toLowerCase (goal proc) in
  length (List.filter
            (fun word => Str.includes procGoalLower word && (2 <? String.length word)%nat)
            (splitSpaces goalLower)).

(** One round of the loop over the procedures, on [bestMatch] and
    [bestScore]. *)
Definition better (goalLower : string) (best : option Procedure * nat) (proc : Procedure)
    : option Procedure * nat :=
  if (snd best <? score goalLower proc)%nat then (Some proc, score goalLower proc) else best.

(** [findMatchingProcedure], given what [getProcedures] brought: [None]
    when it threw or gave no list. *)
Definition findMatchingProcedure (fetched : option (list Procedure)) (userGoal : string)
    : option Procedure :=
  match fetched with
  | None | Some [] => None
  | Some procedures =>
      let goalLower := Str.toLowerCase userGoal in
      let best := fold_left (better goalLower) procedures (None, 0%nat) in
      if (1 <=? snd best)%nat then fst best else None
  end.

End Api.

(** ** Vocabulary of the properties *)
(** Whether a selector looks at the marker attribute. *)
Definition readsMarker (s : Selector) : bool :=
  match s with
  | ByMarker _ => true
  | ByAttr _ name _ => bool_decide (name = "data-bb-id")
  | _ => false
  end.

(** A selector that passed the uniqueness check for [el] in state [w]. *)
Definition checkedSelector (el : Element) (s : Selector) (w : World) : Prop :=
  readsMarker s = false /\ matches (nodeAt (doc w) el) s = true /\
  exists x, selectAll (doc w) s = Some [x].

(** What a call of [generateSelector] does: either it returns a checked
    selector and the state is untouched, or it mints the marker of the
    current counter and stamps the element. *)
Definition generated (el : Element) (w : World) (s : Selector) (w' : World) : Prop :=
  (checkedSelector el s w /\ w' = w) \/
  (s = ByMarker (markerId (selectorCounter w)) /\
   w' = stamp el (markerId (selectorCounter w)) w).

(** The three lists the loops produce, before they are joined. *)
Record Collected (links ins btns : list PageFeature) : Prop := {
  links_budget : (length links <= 60)%nat;
  links_type : Forall (fun f => type f = link /\ (String.length (text f) <= 100)%nat) links;
  inputs_budget : (length ins <= 75)%nat;
  inputs_type : Forall (fun f => type f = input /\ href f = None) ins;
  buttons_budget : (length btns <= 75)%nat;
  buttons_type :
    Forall (fun f => type f = button /\ href f = None /\ (String.length (text f) <= 100)%nat) btns
}.

Global Instance FeatureType_eq_dec : EqDecision FeatureType.
Proof. solve_decision. Defined.

(** The number of features of one type. *)
Definition countType (t : FeatureType) (fs : list PageFeature) : nat :=
  length (List.filter (fun f => bool_decide (type f = t)) fs).

(** The triple on which the inventory is de-duplicated, [href] read as the
    empty string when absent. *)
Definition triple (f : PageFeature) : FeatureType * string * string :=
  (type f, text f, default "" (href f)).



Global Instance Effect_eq_dec : EqDecision Effect.
Proof. solve_decision. Defined.


(** The steps every CLICK or TYPE goes through once its element is found,
    in the order the script takes them. *)
Definition choreography (el : Element) : list Effect :=
  [EClearHighlights; EScrollIntoView el; EHighlight el 5000; EPause 500].

(** The steps of the action proper. *)
Definition stepsOfAction (payload : ActionPayload) (el : Element) : list Effect :=
  if bool_decide (action payload = "CLICK")
  then [EMovePointer el; EPause 800; EClick el]
  else match textInput payload with
       | Some (String c rest) =>
           [EFocus el; ESetValue el (String c rest);
            EDispatch el "input"; EDispatch el "change"]
       | _ => []
       end.

(** No node has another [value] in [d'] than in [d]. *)
Definition sameValues (d d' : Document) : Prop :=
  forall i, value (nodeAt d' i) = value (nodeAt d i).

(** The state the script is in when the pause before the action ends. *)
Definition afterChoreography (el : Element) (w : World) : World :=
  snd ((clearAllHighlights;; emit (EScrollIntoView el);; highlightElement el 5000;;
        emit (EPause 500)) w).

(** Whether a wait for [ev] listens for events of type [ty]. *)
Definition awaits (ev ty : string) : bool :=
  (bool_decide (ev = "click") && bool_decide (ty = "click"))
  || (bool_decide (ev = "input") && (bool_decide (ty = "input") || bool_decide (ty = "change"))).

(** What may come before the awaited event: events of other types, and not
    the timer. *)
Definition quiet (ev : string) (s : Stimulus) : bool :=
  match s with
  | Dispatched ty => negb (awaits ev ty)
  | TimerFired => false
  end.

(** The answer of a wait for [ev] that saw its event. *)
Definition detected (ev : string) : ContentResponse :=
  okMessage (if bool_decide (ev = "click") then "Detected click" else "Detected input").

(** A node without its marker attribute. *)
Definition unmarked (n : Node) : Node :=
  {| tagName := tagName n; attributes := delete "data-bb-id" (attributes n);
     display := display n; visibility := visibility n; opacity := opacity n;
     rectWidth := rectWidth n; rectHeight := rectHeight n;
     innerText := innerText n; textContent := textContent n; cleanText := cleanText n;
     value := value n; inBody := inBody n; inProduct := inProduct n;
     navAncestor := navAncestor n; inCartForm := inCartForm n;
     wrappingLabel := wrappingLabel n; style := style n |}.

(** Every key of the element cache is a marker the counter has already
    passed. *)
Definition issued (w : World) : Prop :=
  forall uid el, elementCache w !! uid = Some el ->
    exists k, (k < selectorCounter w)%nat /\ uid = markerId k.

(** Whether exactly one element of the document matches; a selector the
    browser rejects counts as not unique. *)
Definition uniqueIn (d : Document) (s : Selector) : bool :=
  match selectAll d s with
  | Some l => (length l =? 1)%nat
  | None => false
  end.

(** The selector [generateSelector] settles on before it falls back to a
    marker, read off the node and the document. *)
Definition chooseSelector (n : Node) (d : Document) : option Selector :=
  if Str.nonempty (attr n "id") && Str.valid_id (attr n "id")
     && uniqueIn d (ById (attr n "id"))
  then Some (ById (attr n "id"))
  else if isFormControl n && Str.nonempty (attr n "name")
          && uniqueIn d (ByAttr (localName n) "name" (attr n "name"))
  then Some (ByAttr (localName n) "name" (attr n "name"))
  else if (0 <? length (stableClasses n))%nat
          && uniqueIn d (ByClass (localName n) (firstThree (stableClasses n)))
  then Some (ByClass (localName n) (firstThree (stableClasses n)))
  else None.

(** What selectors other than markers can see of a node: its tag and its
    attributes but the marker. *)
Definition markup (n : Node) : string * gmap string string :=
  (tagName n, delete "data-bb-id" (attributes n)).

(** Two documents of the same length whose nodes agree under [g]. *)
Definition agreeOn {A} (g : Node -> A) (d d' : Document) : Prop :=
  length d' = length d /\ forall i, g (nodeAt d' i) = g (nodeAt d i).

(** What may come before a scroll wait settles: events other than scroll. *)
Definition quietForScroll (s : Stimulus) : bool :=
  match s with
  | Dispatched ty => negb (bool_decide (ty = "scroll"))
  | TimerFired => false
  end.

(** What the extractor has checked of the element a feature was built
    from, by the type of the feature. *)
Definition offered (n : Node) (f : PageFeature) : Prop :=
  match type f with
  | link =>
      isTag n "A" = true /\ isVisible n = true /\ inNavRegion n = false /\
      href f = Some (attr n "href") /\ attr n "href" <> "#" /\
      Str.startsWith (attr n "href") "javascript:" = false
  | input =>
      isInputCandidate n = true /\ isVisible n = true /\
      value_len f = Some (valueLength n)
  | button =>
      (isActionCandidate n = true \/ isButtonCandidate n = true) /\
      (isActionCandidate n = true \/ isVisible n = true)
  end.





Definition allLinks (d : Document) : list Element :=
  (queryFixed isProductLink d ++ queryFixed isOtherLink d)%list.

(** * Properties *)

(** ** The marker pattern *)



























(** ** The resolver *)

Lemma uniqueInDocument_run (s : Selector) (w : World) :
  uniqueInDocument s w =
  (Return match selectAll (doc w) s with
          | Some l => (length l =? 1)%nat
          | None => false
          end, w).
Proof.
  unfold uniqueInDocument, try_catch, bind, querySelectorAll, ret.
  destruct (selectAll (doc w) s); reflexivity.
Qed.

Lemma attr_nonempty (n : Node) (name : string) :
  Str.nonempty (attr n name) = true -> getAttribute n name = Some (attr n name).
Proof.
  unfold attr. destruct (getAttribute n name); simpl; [reflexivity | discriminate].
Qed.

Lemma hasAttr_attr (n : Node) (name : string) :
  Str.nonempty (attr n name) = true -> hasAttr n name (attr n name) = true.
Proof.
  intros H. unfold hasAttr. rewrite (attr_nonempty _ _ H).
  apply bool_decide_eq_true. reflexivity.
Qed.

Lemma In_firstn {A} (k : nat) (l : list A) (x : A) : In x (firstn k l) -> In x l.
Proof.
  revert l. induction k as [|k IH]; intros [|y l]; simpl; try tauto.
  intros [H|H]; [left; exact H | right; apply IH, H].
Qed.

Lemma stableClasses_hasClass (n : Node) (k : nat) :
  forallb (hasClass n) (firstn k (stableClasses n)) = true.
Proof.
  apply forallb_forall. intros c Hc.
  apply bool_decide_eq_true. apply list_elem_of_In.
  apply In_firstn in Hc. unfold stableClasses in Hc.
  apply filter_In in Hc. tauto.
Qed.

Lemma length_one {A} (l : list A) : (length l =? 1)%nat = true -> exists x, l = [x].
Proof.
  destruct l as [|x [|y l]]; simpl; try discriminate. eauto.
Qed.

Lemma checked_step (el : Element) (w : World) (s : Selector) (k : bool -> M Selector) :
  matches (nodeAt (doc w) el) s = true -> readsMarker s = false ->
  k true = ret s ->
  (exists s' w', k false w = (Return s', w') /\ generated el w s' w') ->
  exists s' w', bind (uniqueInDocument s) k w = (Return s', w') /\ generated el w s' w'.
Proof.
  intros Hm Hnm Htrue Hfalse. unfold bind. rewrite uniqueInDocument_run.
  destruct (selectAll (doc w) s) as [l|] eqn:Hsel; [|exact Hfalse].
  destruct (length l =? 1)%nat eqn:Hlen; [|exact Hfalse].
  rewrite Htrue. exists s, w. split; [reflexivity|]. left. split; [|reflexivity].
  destruct (length_one _ Hlen) as [x ->]. repeat split; eauto.
Qed.

Lemma cacheFallback_run (el : Element) (w : World) :
  exists s' w', cacheFallback el w = (Return s', w') /\ generated el w s' w'.
Proof.
  unfold cacheFallback, bind, get, modify, ret. cbn.
  eexists _, _. split; [reflexivity|]. right. split; reflexivity.
Qed.

(** [generateSelector] never throws. *)
Lemma generateSelector_run (el : Element) (w : World) :
  exists s w', generateSelector el w = (Return s, w') /\ generated el w s w'.
Proof.
  unfold generateSelector, bind at 1, get. cbv zeta.
  set (n := nodeAt (doc w) el).
  assert (Hclass : exists s' w',
     (let* byClass := if (0 <? length (stableClasses n))%nat
                      then uniqueInDocument (ByClass (localName n) (firstThree (stableClasses n)))
                      else ret false in
      if byClass then ret (ByClass (localName n) (firstThree (stableClasses n)))
      else cacheFallback el) w = (Return s', w') /\ generated el w s' w').
  { destruct (0 <? length (stableClasses n))%nat.
    - apply checked_step; [|reflexivity|reflexivity|apply cacheFallback_run].
      simpl. fold n. rewrite bool_decide_eq_true_2 by reflexivity.
      apply stableClasses_hasClass.
    - apply cacheFallback_run. }
  assert (Hname : exists s' w',
     (let* byName := if isFormControl n && Str.nonempty (attr n "name")
                     then uniqueInDocument (ByAttr (localName n) "name" (attr n "name"))
                     else ret false in
      if byName then ret (ByAttr (localName n) "name" (attr n "name")) else
      let* byClass := if (0 <? length (stableClasses n))%nat
                      then uniqueInDocument (ByClass (localName n) (firstThree (stableClasses n)))
                      else ret false in
      if byClass then ret (ByClass (localName n) (firstThree (stableClasses n)))
      else cacheFallback el) w = (Return s', w') /\ generated el w s' w').
  { destruct (isFormControl n && Str.nonempty (attr n "name")) eqn:Hc.
    - apply andb_true_iff in Hc as [_ Hne].
      apply checked_step; [|reflexivity|reflexivity|exact Hclass].
      simpl. fold n. rewrite bool_decide_eq_true_2 by reflexivity.
      apply hasAttr_attr, Hne.
    - exact Hclass. }
  destruct (Str.nonempty (attr n "id") && Str.valid_id (attr n "id")) eqn:Hc.
  - apply andb_true_iff in Hc as [Hne _].
    apply checked_step; [|reflexivity|reflexivity|exact Hname].
    simpl. fold n. apply hasAttr_attr, Hne.
  - exact Hname.
Qed.

Lemma findLabelFor_state (el : Element) (w : World) :
  snd (findLabelFor el w) = w.
Proof.
  unfold findLabelFor, querySelector, querySelectorAll.
  unfold bind, get, ret. cbn.
  destruct (Str.nonempty (attr (nodeAt (doc w) el) "id")); cbn.
  1: destruct (selectAll (doc w) _) as [l|]; cbn; [|reflexivity].
  1: destruct (head l); cbn; [reflexivity|].
  all: destruct (wrappingLabel (nodeAt (doc w) el)); cbn; [reflexivity|].
  all: destruct (Str.nonempty (attr (nodeAt (doc w) el) "aria-labelledby")); cbn;
      [destruct (getElementById _ _)|]; reflexivity.
Qed.

(** ** Loop rules

    Each collection loop keeps any property of the features collected so
    far and the state that survives one more accepted candidate. *)

Ltac skip_with IH H :=
  repeat match type of H with
         | (if ?c then _ else _) _ = _ =>
             destruct c eqn:?; [solve [eapply IH; eauto] |]
         end.

Section LoopRules.

Variable P : list PageFeature -> World -> Prop.
Variable cands : list Element.

Lemma collectLinks_rule :
  (forall acc w el s w1 i label url aria clicked,
      P acc w -> In el cands -> (length acc < 60)%nat ->
      generateSelector el w = (Return s, w1) ->
      P (acc ++ [linkFeature i label s url aria clicked el]) w1) ->
  forall links, incl links cands ->
  forall acc seen idx w out w',
    P acc w ->
    collectLinks links acc seen idx w = (Return out, w') -> P (fst out) w'.
Proof.
  intros Hstep links. induction links as [|el rest IH]; intros Hincl acc seen idx w out w' HP H.
  - inversion H; subst. exact HP.
  - assert (Hrest : incl rest cands) by (intros x Hx; apply Hincl; right; exact Hx).
    assert (Hel : In el cands) by (apply Hincl; left; reflexivity).
    specialize (IH Hrest).
    cbn [collectLinks] in H. destruct (60 <=? length acc)%nat eqn:Hlen.
    + inversion H; subst. exact HP.
    + apply Nat.leb_gt in Hlen.
      unfold bind at 1, get in H. cbv zeta in H.
      skip_with IH H.
      destruct (innerText (nodeAt (doc w) el)) as [rendered|]; [|discriminate H].
      skip_with IH H.
      destruct (generateSelector_run el w) as (s & w1 & Hg & _).
      unfold bind at 1 in H. rewrite Hg in H.
      unfold bind at 1, get in H.
      eapply IH; [|exact H]. eapply Hstep; eauto.
Qed.

Lemma collectInputs_rule :
  (forall acc w el s w1 i label name holder aria n clicked,
      P acc w -> In el cands -> (length acc < 75)%nat ->
      generateSelector el w = (Return s, w1) ->
      P (acc ++ [inputFeature i label name holder aria n s clicked el]) w1) ->
  forall inputs, incl inputs cands ->
  forall acc idx w out w',
    P acc w ->
    collectInputs inputs acc idx w = (Return out, w') -> P (fst out) w'.
Proof.
  intros Hstep inputs. induction inputs as [|el rest IH]; intros Hincl acc idx w out w' HP H.
  - inversion H; subst. exact HP.
  - assert (Hrest : incl rest cands) by (intros x Hx; apply Hincl; right; exact Hx).
    assert (Hel : In el cands) by (apply Hincl; left; reflexivity).
    specialize (IH Hrest).
    cbn [collectInputs collectButtons] in H. destruct (75 <=? length acc)%nat eqn:Hlen.
    + inversion H; subst. exact HP.
    + apply Nat.leb_gt in Hlen.
      unfold bind at 1, get in H. cbv zeta in H.
      skip_with IH H.
      unfold bind at 1 in H.
      pose proof (findLabelFor_state el w) as Hst.
      destruct (findLabelFor el w) as [[label|e] w0]; simpl in Hst; subst w0;
        [|discriminate].
      destruct (generateSelector_run el w) as (s & w1 & Hg & _).
      unfold bind at 1 in H. rewrite Hg in H.
      unfold bind at 1, get in H.
      eapply IH; [|exact H]. eapply Hstep; eauto.
Qed.

Lemma collectButtons_rule :
  (forall acc w el s w1, P acc w -> In el cands ->
      generateSelector el w = (Return s, w1) -> P acc w1) ->
  (forall acc w el s w1 i label aria clicked,
      P acc w -> In el cands -> (length acc < 75)%nat ->
      generateSelector el w = (Return s, w1) ->
      P (acc ++ [buttonFeature i label aria s clicked el]) w1) ->
  forall actionButtons buttons, incl buttons cands ->
  forall acc seen idx w out w',
    P acc w ->
    collectButtons actionButtons buttons acc seen idx w = (Return out, w') ->
    P (fst out) w'.
Proof.
  intros Hskip Hstep actionButtons buttons.
  induction buttons as [|el rest IH]; intros Hincl acc seen idx w out w' HP H.
  - inversion H; subst. exact HP.
  - assert (Hrest : incl rest cands) by (intros x Hx; apply Hincl; right; exact Hx).
    assert (Hel : In el cands) by (apply Hincl; left; reflexivity).
    specialize (IH Hrest).
    cbn [collectInputs collectButtons] in H. destruct (75 <=? length acc)%nat eqn:Hlen.
    + inversion H; subst. exact HP.
    + apply Nat.leb_gt in Hlen.
      unfold bind at 1, get in H. cbv zeta in H.
      skip_with IH H.
      destruct (generateSelector_run el w) as (s & w1 & Hg & _).
      unfold bind at 1 in H. rewrite Hg in H.
      destruct (bool_decide (selector_text s ∈ seen)).
      * eapply IH; [|exact H]. eapply Hskip; eauto.
      * unfold bind at 1, get in H.
        eapply IH; [|exact H]. eapply Hstep; eauto.
Qed.

End LoopRules.

(** ** What selector generation changes *)

Lemma generateSelector_cases (el : Element) (w : World) (s : Selector) (w1 : World) :
  generateSelector el w = (Return s, w1) -> generated el w s w1.
Proof.
  intros H. destruct (generateSelector_run el w) as (s' & w' & Hg & Hc).
  rewrite Hg in H. inversion H; subst. exact Hc.
Qed.

Lemma updateNode_length (f : Node -> Node) (el : Element) (d : Document) :
  length (updateNode f el d) = length d.
Proof. unfold updateNode. apply length_alter. Qed.

Lemma nodeAt_updateNode (f : Node -> Node) (el i : Element) (d : Document) :
  (el < length d)%nat ->
  nodeAt (updateNode f el d) i = if decide (i = el) then f (nodeAt d el) else nodeAt d i.
Proof.
  intros Hlt. unfold nodeAt, updateNode.
  destruct (decide (i = el)) as [->|Hne].
  - rewrite !nth_lookup. rewrite list_lookup_alter_eq.
    destruct (lookup_lt_is_Some_2 d el Hlt) as [x Hx]. rewrite Hx. reflexivity.
  - rewrite !nth_lookup. rewrite list_lookup_alter_ne by congruence. reflexivity.
Qed.

Lemma updateNode_out_of_range (f : Node -> Node) (el : Element) (d : Document) :
  (length d <= el)%nat -> updateNode f el d = d.
Proof.
  intros Hge. unfold updateNode. apply list_eq. intros i.
  destruct (decide (i = el)) as [->|Hne].
  - rewrite list_lookup_alter_eq. rewrite (lookup_ge_None_2 d el Hge). reflexivity.
  - apply list_lookup_alter_ne. congruence.
Qed.

Lemma generateSelector_length (el : Element) (w : World) (s : Selector) (w1 : World) :
  generateSelector el w = (Return s, w1) -> length (doc w1) = length (doc w).
Proof.
  intros H. destruct (generateSelector_cases _ _ _ _ H) as [[_ ->]|[_ ->]];
    [reflexivity|]. simpl. apply updateNode_length.
Qed.

Lemma queryFixed_lt (p : Node -> bool) (d : Document) (el : Element) :
  In el (queryFixed p d) -> (el < length d)%nat.
Proof.
  unfold queryFixed. intros H. apply filter_In in H as [H _].
  apply in_seq in H. lia.
Qed.

Lemma uniqueBy_In (seen : gset string) (fs : list PageFeature) (f : PageFeature) :
  In f (uniqueBy seen fs) -> In f fs.
Proof.
  revert seen. induction fs as [|g fs IH]; intros seen; simpl; [tauto|].
  destruct (bool_decide (dedupKey g ∈ seen)).
  - intros H. right. eapply IH, H.
  - intros [H|H]; [left; exact H | right; eapply IH, H].
Qed.

Lemma reindexFrom_In (i : nat) (fs : list PageFeature) (f : PageFeature) :
  In f (reindexFrom i fs) -> exists g j, In g fs /\ f = reindexed j g.
Proof.
  revert i. induction fs as [|g fs IH]; intros i; simpl; [tauto|].
  intros [H|H].
  - exists g, i. split; [left; reflexivity | symmetry; exact H].
  - destruct (IH _ H) as (g' & j & Hin & ->). exists g', j. split; [right; exact Hin | reflexivity].
Qed.

(** ** A rule for the whole extraction

    [R] is a property of the state and [Q] one of a selector, the element it
    was generated for and the state.  If [R] holds once the extraction has
    left its mark in the trace, and selector generation keeps both and
    establishes [Q] for the selector it returns, then [R] holds at the end
    and every feature of the inventory satisfies [Q] in the final state. *)

Section ExtractRule.

Variable R : World -> Prop.
Variable Q : Selector -> Element -> World -> Prop.

Hypothesis R_gen : forall w el s w1,
    R w -> generateSelector el w = (Return s, w1) -> R w1.
Hypothesis Q_gen : forall w el s w1 s0 el0,
    R w -> Q s0 el0 w -> generateSelector el w = (Return s, w1) -> Q s0 el0 w1.
Hypothesis Q_new : forall w el s w1,
    R w -> (el < length (doc w))%nat ->
    generateSelector el w = (Return s, w1) -> Q s el w1.

Let Qf (w : World) (f : PageFeature) : Prop := Q (selector f) (origin f) w.

Let Inv (n : nat) (before : list PageFeature) (acc : list PageFeature) (w : World) : Prop :=
  R w /\ length (doc w) = n /\ Forall (Qf w) before /\ Forall (Qf w) acc.

Lemma Inv_skip n before acc w el s w1 :
  Inv n before acc w -> generateSelector el w = (Return s, w1) -> Inv n before acc w1.
Proof.
  intros (HR & Hlen & Hb & Ha) Hg. repeat split.
  - eapply R_gen; eauto.
  - rewrite (generateSelector_length _ _ _ _ Hg). exact Hlen.
  - eapply List.Forall_impl; [|exact Hb]. intros f Hf. eapply Q_gen; eauto.
  - eapply List.Forall_impl; [|exact Ha]. intros f Hf. eapply Q_gen; eauto.
Qed.

Lemma Inv_push n before acc w el s w1 f :
  Inv n before acc w -> (el < n)%nat -> generateSelector el w = (Return s, w1) ->
  selector f = s -> origin f = el -> Inv n before (acc ++ [f]) w1.
Proof.
  intros HI Hlt Hg Hs Ho.
  destruct (Inv_skip _ _ _ _ _ _ _ HI Hg) as (HR & Hlen & Hb & Ha).
  split; [exact HR|]. split; [exact Hlen|]. split; [exact Hb|].
  apply Forall_app. split; [exact Ha|]. constructor; [|constructor].
  unfold Qf. rewrite Hs, Ho. destruct HI as (HR0 & Hlen0 & _).
  eapply Q_new; [exact HR0| |exact Hg]. lia.
Qed.

Lemma extractPageFeatures_rule (w : World) (r : ContentResponse) (w' : World) :
  R (with_trace (trace w ++ [EExtract]) w) -> extractPageFeatures w = (Return r, w') ->
  R w' /\ length (doc w') = length (doc w) /\
  exists fs, features r = Some fs /\
             Forall (fun f => Q (selector f) (origin f) w') fs.
Proof.
  intros HR0 H. unfold extractPageFeatures in H.
  unfold bind at 1, emit, modify in H.
  set (w0 := with_trace (trace w ++ [EExtract]) w) in *.
  unfold bind at 1, get in H. cbv zeta in H.
  set (n := length (doc w0)).
  unfold bind at 1 in H.
  destruct (collectLinks _ [] ∅ 0 w0) as [[links|e] w1] eqn:Hlinks; [|discriminate].
  assert (H1 : Inv n [] (fst links) w1).
  { eapply (collectLinks_rule (Inv n [])
              (queryFixed isProductLink (doc w0) ++ queryFixed isOtherLink (doc w0)));
      [| apply incl_refl | | exact Hlinks].
    - intros acc v el s v1 i label url aria clicked HI Hin _ Hg.
      eapply Inv_push; eauto.
      apply in_app_or in Hin as [Hin|Hin]; eapply queryFixed_lt; exact Hin.
    - repeat split; auto. }
  unfold bind at 1, get in H.
  unfold bind at 1 in H.
  destruct (collectInputs _ [] (snd links) w1) as [[ins|e] w2] eqn:Hins; [|discriminate].
  assert (H2 : Inv n (fst links) (fst ins) w2).
  { eapply (collectInputs_rule (Inv n (fst links)) (queryFixed isInputCandidate (doc w1)));
      [| apply incl_refl | | exact Hins].
    - intros acc v el s v1 i label name holder aria nd clicked HI Hin _ Hg.
      eapply Inv_push; eauto.
      destruct H1 as (_ & Hlen & _). rewrite <- Hlen. eapply queryFixed_lt; exact Hin.
    - destruct H1 as (HR1 & Hlen & _ & Ha). repeat split; auto. }
  unfold bind at 1, get in H.
  unfold bind at 1 in H.
  destruct (collectButtons _ _ [] ∅ (snd ins) w2) as [[btns|e] w3] eqn:Hbtns; [|discriminate].
  assert (H3 : Inv n (fst links ++ fst ins) (fst btns) w3).
  { eapply (collectButtons_rule (Inv n (fst links ++ fst ins))
              (queryFixed isActionCandidate (doc w2) ++ queryFixed isButtonCandidate (doc w2)));
      [| | apply incl_refl | | exact Hbtns].
    - intros acc v el s v1 HI _ Hg. eapply Inv_skip; eauto.
    - intros acc v el s v1 i label aria clicked HI Hin _ Hg.
      eapply Inv_push; eauto.
      destruct H2 as (_ & Hlen & _). rewrite <- Hlen.
      apply in_app_or in Hin as [Hin|Hin]; eapply queryFixed_lt; exact Hin.
    - destruct H2 as (HR2 & Hlen & Hb & Ha). repeat split; auto.
      apply Forall_app. split; assumption. }
  unfold ret in H. inversion H; subst r w'. clear H.
  destruct H3 as (HR3 & Hlen & Hb & Ha).
  split; [exact HR3|]. split; [exact Hlen|].
  eexists. split; [reflexivity|].
  apply List.Forall_forall. intros f Hf.
  apply reindexFrom_In in Hf as (g & j & Hg & ->). simpl.
  apply uniqueBy_In in Hg.
  rewrite app_assoc in Hg. apply in_app_or in Hg as [Hg|Hg].
  - eapply (proj1 (List.Forall_forall _ _) Hb); exact Hg.
  - eapply (proj1 (List.Forall_forall _ _) Ha); exact Hg.
Qed.

End ExtractRule.

(** ** Budgets and labels *)

Lemma clip_length (s : string) : (String.length (clip s) <= 100)%nat.
Proof.
  unfold clip. generalize 100%nat as m. intros m. revert s.
  induction m as [|m IH]; intros [|c s]; simpl; try lia.
  specialize (IH s). lia.
Qed.

Lemma extractPageFeatures_shape (w : World) (r : ContentResponse) (w' : World) :
  extractPageFeatures w = (Return r, w') ->
  success r = true /\
  exists links ins btns,
    Collected links ins btns /\
    features r = Some (reindexFrom 0 (uniqueBy ∅ (links ++ ins ++ btns))).
Proof.
  intros H. unfold extractPageFeatures in H.
  unfold bind at 1, emit, modify in H.
  unfold bind at 1, get in H. cbv zeta in H.
  unfold bind at 1 in H.
  destruct (collectLinks _ [] ∅ 0 _) as [[links|e] w1] eqn:Hlinks; [|discriminate].
  unfold bind at 1, get in H. unfold bind at 1 in H.
  destruct (collectInputs _ [] (snd links) w1) as [[ins|e] w2] eqn:Hins; [|discriminate].
  unfold bind at 1, get in H. unfold bind at 1 in H.
  destruct (collectButtons _ _ [] ∅ (snd ins) w2) as [[btns|e] w3] eqn:Hbtns; [|discriminate].
  unfold ret in H. inversion H; subst r w'. clear H.
  split; [reflexivity|].
  exists (fst links), (fst ins), (fst btns). split; [|reflexivity].
  assert (L : (length (fst links) <= 60)%nat /\
       Forall (fun f => type f = link /\ (String.length (text f) <= 100)%nat) (fst links)).
  { eapply (collectLinks_rule (fun acc _ => (length acc <= 60)%nat /\
       Forall (fun f => type f = link /\ (String.length (text f) <= 100)%nat) acc));
      [| apply incl_refl | | exact Hlinks]; cbv beta.
    - intros acc v el s v1 i label url aria clicked [Hl Hf] _ Hlt _. split.
      + rewrite length_app. simpl. lia.
      + apply Forall_app. split; [exact Hf|].
        constructor; [split; [reflexivity|apply clip_length]|constructor].
    - split; [simpl; lia|constructor]. }
  assert (I : (length (fst ins) <= 75)%nat /\
       Forall (fun f => type f = input /\ href f = None) (fst ins)).
  { eapply (collectInputs_rule (fun acc _ => (length acc <= 75)%nat /\
       Forall (fun f => type f = input /\ href f = None) acc));
      [| apply incl_refl | | exact Hins]; cbv beta.
    - intros acc v el s v1 i label name holder aria nd clicked [Hl Hf] _ Hlt _. split.
      + rewrite length_app. simpl. lia.
      + apply Forall_app. split; [exact Hf|].
        constructor; [split; reflexivity|constructor].
    - split; [simpl; lia|constructor]. }
  assert (B : (length (fst btns) <= 75)%nat /\
       Forall (fun f => type f = button /\ href f = None /\
                        (String.length (text f) <= 100)%nat) (fst btns)).
  { eapply (collectButtons_rule (fun acc _ => (length acc <= 75)%nat /\
       Forall (fun f => type f = button /\ href f = None /\
                        (String.length (text f) <= 100)%nat) acc));
      [| | apply incl_refl | | exact Hbtns]; cbv beta.
    - intros acc v el s v1 HP _ _. exact HP.
    - intros acc v el s v1 i label aria clicked [Hl Hf] _ Hlt _. split.
      + rewrite length_app. simpl. lia.
      + apply Forall_app. split; [exact Hf|].
        constructor; [repeat split; apply clip_length|constructor].
    - split; [simpl; lia|constructor]. }
  destruct L, I, B.
  constructor; assumption.
Qed.

Lemma countType_app (t : FeatureType) (a b : list PageFeature) :
  countType t (a ++ b) = (countType t a + countType t b)%nat.
Proof. unfold countType. rewrite List.filter_app, length_app. reflexivity. Qed.

Lemma countType_le_length (t : FeatureType) (fs : list PageFeature) :
  (countType t fs <= length fs)%nat.
Proof. unfold countType. apply List.filter_length_le. Qed.

Lemma countType_other (t : FeatureType) (fs : list PageFeature) :
  Forall (fun f => type f <> t) fs -> countType t fs = 0%nat.
Proof.
  unfold countType. induction 1 as [|f fs Hf _ IH]; simpl; [reflexivity|].
  rewrite bool_decide_eq_false_2 by exact Hf. exact IH.
Qed.

Lemma countType_uniqueBy (t : FeatureType) (seen : gset string) (fs : list PageFeature) :
  (countType t (uniqueBy seen fs) <= countType t fs)%nat.
Proof.
  revert seen. unfold countType.
  induction fs as [|f fs IH]; intros seen; simpl; [lia|].
  destruct (bool_decide (dedupKey f ∈ seen)); simpl.
  - specialize (IH seen). destruct (bool_decide (type f = t)); simpl; lia.
  - specialize (IH ({[dedupKey f]} ∪ seen)).
    destruct (bool_decide (type f = t)); simpl; lia.
Qed.

Lemma countType_reindexFrom (t : FeatureType) (i : nat) (fs : list PageFeature) :
  countType t (reindexFrom i fs) = countType t fs.
Proof.
  revert i. unfold countType. induction fs as [|f fs IH]; intros i; simpl; [reflexivity|].
  destruct (bool_decide (type f = t)); simpl; rewrite IH; reflexivity.
Qed.

Lemma triple_reindexFrom (i : nat) (fs : list PageFeature) :
  map triple (reindexFrom i fs) = map triple fs.
Proof.
  revert i. induction fs as [|f fs IH]; intros i; simpl; [reflexivity|].
  rewrite IH. reflexivity.
Qed.

Lemma dedupKey_triple (f g : PageFeature) : triple f = triple g -> dedupKey f = dedupKey g.
Proof.
  unfold triple, dedupKey. intros H. inversion H as [[H1 H2 H3]].
  rewrite H1, H2, H3. reflexivity.
Qed.

Lemma uniqueBy_keys (seen : gset string) (fs : list PageFeature) (f : PageFeature) :
  In f (uniqueBy seen fs) -> dedupKey f ∉ seen.
Proof.
  revert seen. induction fs as [|g fs IH]; intros seen; simpl; [tauto|].
  destruct (bool_decide (dedupKey g ∈ seen)) eqn:Hk.
  - apply IH.
  - apply bool_decide_eq_false in Hk. intros [<-|H]; [exact Hk|].
    apply IH in H. set_solver.
Qed.

Lemma uniqueBy_NoDup (seen : gset string) (fs : list PageFeature) :
  List.NoDup (map triple (uniqueBy seen fs)).
Proof.
  revert seen. induction fs as [|g fs IH]; intros seen; simpl; [constructor|].
  destruct (bool_decide (dedupKey g ∈ seen)) eqn:Hk; [apply IH|].
  simpl. constructor; [|apply IH].
  intros Hin. apply in_map_iff in Hin as (f & Heq & Hf).
  apply uniqueBy_keys in Hf. apply dedupKey_triple in Heq.
  rewrite Heq in Hf. set_solver.
Qed.

(** ** Stamping leaves everything but the marker attribute alone *)

Lemma nodeAt_updateNode_proj {A} (g : Node -> A) (f : Node -> Node) (el i : Element)
    (d : Document) :
  (forall n, g (f n) = g n) -> g (nodeAt (updateNode f el d) i) = g (nodeAt d i).
Proof.
  intros Hg. destruct (le_lt_dec (length d) el) as [Hge|Hlt].
  - rewrite updateNode_out_of_range by exact Hge. reflexivity.
  - rewrite nodeAt_updateNode by exact Hlt.
    destruct (decide (i = el)) as [->|_]; [apply Hg | reflexivity].
Qed.




Lemma markerId_inj (a b : nat) : markerId a = markerId b -> a = b.
Proof.
  unfold markerId. intros H. apply (inj (String.app "bb-")) in H.
  apply (inj pretty) in H. exact H.
Qed.

Lemma markerId_nonempty (k : nat) : Str.nonempty (markerId k) = true.
Proof. reflexivity. Qed.


(** ** Selector round trip *)




(** ** The inventory *)

(** C2. Budget and de-duplication: whatever the page, the inventory holds
    at most 60 link features, at most 75 input features and at most 75
    button features, and no two of its features share the triple of type,
    text and href (href read as empty when absent). *)
Theorem budget_and_dedup (w : World) (r : ContentResponse) (w' : World) :
  extractPageFeatures w = (Return r, w') ->
  exists fs, features r = Some fs /\
    (countType link fs <= 60)%nat /\
    (countType input fs <= 75)%nat /\
    (countType button fs <= 75)%nat /\
    List.NoDup (map triple fs).
Proof.
  intros H. apply extractPageFeatures_shape in H as (_ & links & ins & btns & C & ->).
  destruct C as [Ll Lt Il It Bl Bt].
  eexists. split; [reflexivity|].
  assert (Hl : forall t, (countType t (reindexFrom 0 (uniqueBy ∅ (links ++ ins ++ btns)))
                          <= countType t links + countType t ins + countType t btns)%nat).
  { intros t. rewrite countType_reindexFrom.
    etransitivity; [apply countType_uniqueBy|]. rewrite !countType_app. lia. }
  repeat split.
  - specialize (Hl link).
    rewrite (countType_other link ins), (countType_other link btns) in Hl.
    + pose proof (countType_le_length link links). lia.
    + eapply List.Forall_impl; [|exact Bt]. intros f (-> & _). discriminate.
    + eapply List.Forall_impl; [|exact It]. intros f (-> & _). discriminate.
  - specialize (Hl input).
    rewrite (countType_other input links), (countType_other input btns) in Hl.
    + pose proof (countType_le_length input ins). lia.
    + eapply List.Forall_impl; [|exact Bt]. intros f (-> & _). discriminate.
    + eapply List.Forall_impl; [|exact Lt]. intros f (-> & _). discriminate.
  - specialize (Hl button).
    rewrite (countType_other button links), (countType_other button ins) in Hl.
    + pose proof (countType_le_length button btns). lia.
    + eapply List.Forall_impl; [|exact It]. intros f (-> & _). discriminate.
    + eapply List.Forall_impl; [|exact Lt]. intros f (-> & _). discriminate.
  - rewrite triple_reindexFrom. apply uniqueBy_NoDup.
Qed.

Lemma budget_and_dedup_witness :
  exists r w' fs, extractPageFeatures (loaded shopPage) = (Return r, w') /\
    features r = Some fs /\
    (countType link fs <= 60)%nat /\ (countType input fs <= 75)%nat /\
    (countType button fs <= 75)%nat /\ List.NoDup (map triple fs).
Proof.
  destruct (extractPageFeatures (loaded shopPage)) as [[r|e] w'] eqn:H.
  - destruct (budget_and_dedup _ _ _ H) as (fs & Hfs & Hrest).
    exists r, w', fs. split; [reflexivity|]. split; [exact Hfs | exact Hrest].
  - vm_compute in H. discriminate H.
Defined.




(** ** Markers and the clicked memo *)

(** C10. Extraction is not read-only. On a page whose one button has no
    id, no name and no class, whatever the state of the script and
    whatever marker the button already carries, an extraction stamps the
    button with the marker of the current counter and records it in the
    element cache; the next extraction over the same page stamps the next
    marker, which differs from the first. *)
Theorem extraction_stamps_fresh_marker (w : World) (mark : option string) :
  let c := selectorCounter w in
  let w0 := with_doc (bareButtonPage mark) w in
  let w1 := snd (extractPageFeatures w0) in
  let w2 := snd (extractPageFeatures w1) in
  doc w1 = bareButtonPage (Some (markerId c)) /\
  doc w1 <> bareButtonPage None /\
  elementCache w1 = <[markerId c := 0%nat]> (elementCache w) /\
  selectorCounter w1 = S c /\
  doc w2 = bareButtonPage (Some (markerId (S c))) /\
  elementCache w2 = <[markerId (S c) := 0%nat]> (elementCache w1) /\
  markerId (S c) <> markerId c.
Proof.
  intros c w0 w1 w2.
  assert (H1 : doc w1 = bareButtonPage (Some (markerId c))).
  { subst w1 w0 c. destruct mark; vm_compute; reflexivity. }
  assert (H2 : doc w2 = bareButtonPage (Some (markerId (S c)))).
  { subst w2 w1 w0 c. destruct mark; vm_compute; reflexivity. }
  repeat split.
  - exact H1.
  - rewrite H1. intros Heq.
    apply (f_equal (fun d => getAttribute (nodeAt d 0) "data-bb-id")) in Heq.
    vm_compute in Heq. discriminate Heq.
  - subst w1 w0 c. destruct mark; vm_compute; reflexivity.
  - subst w1 w0 c. destruct mark; vm_compute; reflexivity.
  - exact H2.
  - subst w2 w1 w0 c. destruct mark; vm_compute; reflexivity.
  - intros Heq. apply markerId_inj in Heq. lia.
Qed.

(** C4 at a bare button. The click succeeds and the memo records the
    marker minted at click time; the next extraction mints another marker
    for the same button, looks that one up in the memo and reports the
    button as not clicked. *)
Theorem clicked_marker_element_not_flagged :
  exists resp w1 r w2 f,
    executeAction {| action := "CLICK"; targetIndex := Num 0; textInput := None |}
      (loaded (bareButtonPage None)) = (Return resp, w1) /\
    resp = okMessage "Clicked: Menu" /\
    In (EClick 0) (trace w1) /\
    elements (clickedElements w1) = [selector_text (ByMarker "bb-1")] /\
    extractPageFeatures w1 = (Return r, w2) /\
    features r = Some [f] /\ origin f = 0%nat /\
    selector f = ByMarker "bb-2" /\ already_clicked f = false.
Proof.
  eexists _, _, _, _, _.
  split; [vm_compute; reflexivity|].
  split; [reflexivity|].
  split; [vm_compute; tauto|].
  split; [vm_compute; reflexivity|].
  split; [vm_compute; reflexivity|].
  repeat split.
Qed.

(** The memo does its work for an element with a checked selector: the
    add-to-cart button of the shop page is selected by its class at click
    time and again at the next extraction. *)
Lemma clicked_class_element_flagged :
  exists resp w1 r w2 f,
    executeAction {| action := "CLICK"; targetIndex := Num 2; textInput := None |}
      (loaded shopPage) = (Return resp, w1) /\
    resp = okMessage "Clicked: Add to cart" /\
    extractPageFeatures w1 = (Return r, w2) /\
    nth_error (default [] (features r)) 2 = Some f /\ origin f = 2%nat /\
    selector f = ByClass "button" ["add-to-cart"] /\ already_clicked f = true.
Proof.
  eexists _, _, _, _, _.
  split; [vm_compute; reflexivity|].
  split; [reflexivity|].
  split; [vm_compute; reflexivity|].
  repeat split.
Qed.

(** ** Labels *)

(** Link and button labels are cut to 100 characters. *)
Lemma link_and_button_labels_bounded (w : World) (r : ContentResponse) (w' : World)
    (fs : list PageFeature) (f : PageFeature) :
  extractPageFeatures w = (Return r, w') -> features r = Some fs -> In f fs ->
  type f <> input -> (String.length (text f) <= 100)%nat.
Proof.
  intros H Hfs Hin Hty.
  apply extractPageFeatures_shape in H as (_ & links & ins & btns & C & Hr).
  rewrite Hfs in Hr. inversion Hr; subst fs. clear Hr.
  apply reindexFrom_In in Hin as (g & j & Hg & ->). simpl in *.
  apply uniqueBy_In in Hg. destruct C as [_ Lt _ It _ Bt].
  apply in_app_or in Hg as [Hg|Hg];
    [|apply in_app_or in Hg as [Hg|Hg]].
  - apply (proj1 (List.Forall_forall _ _) Lt g Hg).
  - destruct (proj1 (List.Forall_forall _ _) It g Hg) as [Hi _]. contradiction.
  - apply (proj1 (List.Forall_forall _ _) Bt g Hg).
Qed.

(** C7 at a text field whose name has 101 characters: the label of an
    input feature is taken whole, so the inventory carries a text of 101
    characters. *)
Theorem input_label_not_truncated :
  exists r w' f,
    extractPageFeatures (loaded longNamePage) = (Return r, w') /\
    features r = Some [f] /\ type f = input /\
    text f = repeated 101 "x" /\ String.length (text f) = 101%nat.
Proof.
  eexists _, _, _.
  split; [vm_compute; reflexivity|].
  repeat split.
Qed.

(** ** The action executor *)

(** Settles the comparisons of one literal action name with another. *)
Ltac settle_actions :=
  repeat match goal with
         | |- context [bool_decide (?a = ?b)] =>
             first [ rewrite (bool_decide_eq_false_2 (a = b)) by discriminate
                   | rewrite (bool_decide_eq_true_2 (a = b)) by reflexivity ]
         end.

Lemma getElementBySelector_state (s : Selector) (w : World) :
  snd (getElementBySelector s w) = w.
Proof.
  unfold getElementBySelector, bind, get.
  destruct (match cacheMatch s with Some _ => _ | None => _ end); [reflexivity|].
  unfold try_catch, querySelector, bind, querySelectorAll, ret.
  destruct (selectAll (doc w) s); reflexivity.
Qed.

Lemma generateSelector_trace (el : Element) (w : World) (s : Selector) (w1 : World) :
  generateSelector el w = (Return s, w1) -> trace w1 = trace w.
Proof.
  intros H. destruct (generateSelector_cases _ _ _ _ H) as [[_ ->]|[_ ->]]; reflexivity.
Qed.

Lemma sameValues_refl (d : Document) : sameValues d d.
Proof. intros i. reflexivity. Qed.

Lemma sameValues_trans (a b c : Document) :
  sameValues a b -> sameValues b c -> sameValues a c.
Proof. intros H1 H2 i. rewrite H2, H1. reflexivity. Qed.

Lemma sameValues_updateNode (f : Node -> Node) (el : Element) (d : Document) :
  (forall n, value (f n) = value n) -> sameValues d (updateNode f el d).
Proof. intros Hf i. apply (nodeAt_updateNode_proj value). exact Hf. Qed.

Lemma generateSelector_values (el : Element) (w : World) (s : Selector) (w1 : World) :
  generateSelector el w = (Return s, w1) -> sameValues (doc w) (doc w1).
Proof.
  intros H. destruct (generateSelector_cases _ _ _ _ H) as [[_ ->]|[_ ->]].
  - apply sameValues_refl.
  - simpl. apply sameValues_updateNode. reflexivity.
Qed.

(** The extraction changes no value and appends nothing to the trace but
    its own mark. *)
Lemma extractPageFeatures_values (w : World) (r : ContentResponse) (w' : World) :
  extractPageFeatures w = (Return r, w') -> sameValues (doc w) (doc w').
Proof.
  intros H.
  destruct (extractPageFeatures_rule (fun v => sameValues (doc w) (doc v)) (fun _ _ _ => True)
              (fun v el s v1 Hv Hg =>
                 sameValues_trans _ _ _ Hv (generateSelector_values _ _ _ _ Hg))
              (fun _ _ _ _ _ _ _ _ _ => I) (fun _ _ _ _ _ _ _ => I)
              w r w' (sameValues_refl _) H) as (Hv & _).
  exact Hv.
Qed.

Lemma extractPageFeatures_trace (w : World) (r : ContentResponse) (w' : World) :
  extractPageFeatures w = (Return r, w') -> trace w' = (trace w ++ [EExtract])%list.
Proof.
  intros H.
  destruct (extractPageFeatures_rule
              (fun v => trace v = (trace w ++ [EExtract])%list) (fun _ _ _ => True)
              (fun v el s v1 Hv Hg => eq_trans (generateSelector_trace _ _ _ _ Hg) Hv)
              (fun _ _ _ _ _ _ _ _ _ => I) (fun _ _ _ _ _ _ _ => I)
              w r w' eq_refl H) as (Hv & _).
  exact Hv.
Qed.

Lemma restoreStyles_values (h : gmap nat (string * string)) (d : Document) :
  sameValues d (map_fold restoreStyles d h).
Proof.
  apply (map_fold_weak_ind (fun d' _ => sameValues d d')).
  - apply sameValues_refl.
  - intros el orig m d' _ IH. eapply sameValues_trans; [exact IH|].
    unfold restoreStyles. apply sameValues_updateNode.
    intros n. unfold assignStyle.
    destruct (Str.nonempty (fst orig)), (Str.nonempty (snd orig)); reflexivity.
Qed.

Lemma clearAllHighlights_run (w : World) :
  exists w', clearAllHighlights w = (Return tt, w') /\
    trace w' = (trace w ++ [EClearHighlights])%list /\
    sameValues (doc w) (doc w').
Proof.
  unfold clearAllHighlights, stopOverlayTracking, emit, modify, bind.
  eexists. split; [reflexivity|].
  cbn [pointer with_overlay with_highlighted with_doc with_trace].
  destruct (pointer w) as [[at_el op]|];
    cbn [trace doc with_pointer with_overlay with_highlighted with_doc with_trace
         highlightedElements];
    (split; [reflexivity | apply restoreStyles_values]).
Qed.

Lemma highlightElement_run (el : Element) (duration : Z) (w : World) :
  exists w', highlightElement el duration w = (Return tt, w') /\
    trace w' = (trace w ++ [EHighlight el duration])%list /\
    sameValues (doc w) (doc w') /\
    is_Some (highlightedElements w' !! el).
Proof.
  unfold highlightElement, emit, modify, bind, ret.
  cbn [highlightedElements with_trace].
  destruct (highlightedElements w !! el) as [orig|] eqn:Hh;
    destruct (0 <? duration)%Z;
    (eexists; split; [reflexivity|]);
    cbn [trace doc highlightedElements with_timers with_doc with_highlighted with_trace];
    (split; [reflexivity|]);
    (split; [apply sameValues_updateNode; reflexivity|]).
  1, 2: rewrite Hh; eauto.
  all: rewrite lookup_insert_eq; eauto.
Qed.

Lemma movePointerToElement_run (el : Element) (w : World) :
  exists w', movePointerToElement el w = (Return tt, w') /\
    trace w' = (trace w ++ [EMovePointer el])%list /\ doc w' = doc w.
Proof.
  unfold movePointerToElement, emit, modify, bind.
  eexists. split; [reflexivity|]. split; reflexivity.
Qed.

Lemma markElementAsClicked_run (el : Element) (w : World) :
  exists w', markElementAsClicked el w = (Return tt, w') /\
    trace w' = trace w /\ sameValues (doc w) (doc w').
Proof.
  unfold markElementAsClicked, bind, modify.
  destruct (generateSelector_run el w) as (s & w1 & Hg & _). rewrite Hg.
  eexists. split; [reflexivity|]. simpl.
  split; [eapply generateSelector_trace; eauto | eapply generateSelector_values; eauto].
Qed.

Lemma bind_returns {A B} (m : M A) (k : A -> M B) (w : World) (a : A) (v : World) :
  m w = (Return a, v) -> bind m k w = k a v.
Proof. intros H. unfold bind. rewrite H. reflexivity. Qed.

Lemma emit_returns (e : Effect) (w : World) :
  emit e w = (Return tt, with_trace (trace w ++ [e]) w).
Proof. reflexivity. Qed.

(** The common part of CLICK and TYPE, from the cleared highlights to the
    pause. *)
Lemma choreography_run (el : Element) (w : World) :
  (forall K : M ContentResponse,
      (clearAllHighlights;; emit (EScrollIntoView el);; highlightElement el 5000;;
       emit (EPause 500);; K) w = K (afterChoreography el w)) /\
  trace (afterChoreography el w) = (trace w ++ choreography el)%list /\
  sameValues (doc w) (doc (afterChoreography el w)) /\
  is_Some (highlightedElements (afterChoreography el w) !! el).
Proof.
  destruct (clearAllHighlights_run w) as (w1 & H1 & T1 & V1).
  destruct (highlightElement_run el 5000
              (with_trace (trace w1 ++ [EScrollIntoView el]) w1)) as (w2 & H2 & T2 & V2 & S2).
  assert (E : afterChoreography el w = with_trace (trace w2 ++ [EPause 500]) w2).
  { unfold afterChoreography.
    rewrite (bind_returns _ _ _ _ _ H1).
    rewrite (bind_returns _ _ _ _ _ (emit_returns _ _)).
    rewrite (bind_returns _ _ _ _ _ H2). reflexivity. }
  rewrite E. split; [|split; [|split]].
  - intros K.
    rewrite (bind_returns _ _ _ _ _ H1).
    rewrite (bind_returns _ _ _ _ _ (emit_returns _ _)).
    rewrite (bind_returns _ _ _ _ _ H2).
    rewrite (bind_returns _ _ _ _ _ (emit_returns _ _)). reflexivity.
  - simpl. rewrite T2. simpl. rewrite T1. unfold choreography.
    rewrite <- !app_assoc. reflexivity.
  - simpl. eapply sameValues_trans; [exact V1|]. exact V2.
  - exact S2.
Qed.

(** What CLICK and TYPE do once the extraction has returned [r], the
    feature [f] carries the index and its selector resolves to [el]. *)
Lemma executeAction_found (payload : ActionPayload) (k : Z) (w : World)
    (r : ContentResponse) (w1 : World) (f : PageFeature) (el : Element) (w2 : World) :
  action payload = "CLICK" \/ action payload = "TYPE" ->
  targetIndex payload = Num k ->
  extractPageFeatures w = (Return r, w1) ->
  List.find (indexIs (Num k)) (default [] (features r)) = Some f ->
  getElementBySelector (selector f) w1 = (Return (Some el), w2) ->
  exists resp w',
    executeAction payload w = (Return resp, w') /\
    trace w' = (trace w ++ [EExtract] ++ choreography el ++ stepsOfAction payload el)%list /\
    (stepsOfAction payload el = [] ->
     resp = failure "No text to type" /\
     sameValues (doc w) (doc w') /\ is_Some (highlightedElements w' !! el)).
Proof.
  intros Ha Ht Hx Hf Hg.
  pose proof (getElementBySelector_state (selector f) w1) as Hs.
  rewrite Hg in Hs. simpl in Hs. subst w2.
  pose proof (extractPageFeatures_trace _ _ _ Hx) as Tx.
  pose proof (extractPageFeatures_values _ _ _ Hx) as Vx.
  destruct payload as [a t txt]. simpl in Ha, Ht. subst t.
  unfold executeAction, stepsOfAction. cbn [action targetIndex textInput isNull].
  destruct Ha as [-> | ->].
  - rewrite !bool_decide_eq_false_2 by discriminate.
    rewrite !bool_decide_eq_true_2 by reflexivity.
    unfold bind at 1. rewrite Hx, Hf.
    unfold bind at 1. rewrite Hg.
    destruct (choreography_run el w1) as (Hk & Tv & Vv & Sv). rewrite Hk.
    destruct (movePointerToElement_run el (afterChoreography el w1)) as (v1 & H1 & T1 & D1).
    rewrite (bind_returns _ _ _ _ _ H1).
    rewrite (bind_returns _ _ _ _ _ (emit_returns _ _)).
    rewrite (bind_returns _ _ _ _ _ (emit_returns _ _)).
    match goal with
    | |- context [bind (markElementAsClicked el) _ ?u] =>
        destruct (markElementAsClicked_run el u) as (v2 & H2 & T2 & D2)
    end.
    rewrite (bind_returns _ _ _ _ _ H2).
    eexists _, _. split; [reflexivity|]. split; [|discriminate].
    rewrite T2. simpl. rewrite T1, Tv, Tx. rewrite <- !app_assoc. reflexivity.
  - rewrite !bool_decide_eq_false_2 by discriminate.
    rewrite !bool_decide_eq_true_2 by reflexivity.
    unfold bind at 1. rewrite Hx, Hf.
    unfold bind at 1. rewrite Hg.
    destruct (choreography_run el w1) as (Hk & Tv & Vv & Sv). rewrite Hk.
    destruct txt as [[|c rest]|].
    + eexists _, _. split; [reflexivity|]. split.
      * etransitivity; [exact Tv|]. rewrite Tx, <- !app_assoc. reflexivity.
      * intros _. split; [reflexivity|]. split; [|exact Sv].
        eapply sameValues_trans; eauto.
    + unfold setValue, bind, emit, modify, ret.
      eexists _, _. split; [reflexivity|]. split; [|discriminate].
      cbn [trace with_trace with_doc]. rewrite Tv, Tx, <- !app_assoc. reflexivity.
    + eexists _, _. split; [reflexivity|]. split.
      * etransitivity; [exact Tv|]. rewrite Tx, <- !app_assoc. reflexivity.
      * intros _. split; [reflexivity|]. split; [|exact Sv].
        eapply sameValues_trans; eauto.
Qed.

(** C8, as the script has it. A CLICK or TYPE whose [targetIndex] is null
    is answered with the error of a missing target and the state is left
    as it was: no extraction, nothing touched. With the field omitted the
    test for null does not fire: the extraction runs and the answer is
    that no element has index undefined. *)
Theorem missing_target_null (w : World) (txt : option string) :
  executeAction {| action := "CLICK"; targetIndex := Null; textInput := txt |} w
    = (Return (failure "No target element specified"), w) /\
  executeAction {| action := "TYPE"; targetIndex := Null; textInput := txt |} w
    = (Return (failure "No target element specified"), w) /\
  (forall r w1, extractPageFeatures w = (Return r, w1) ->
     executeAction {| action := "CLICK"; targetIndex := Undefined; textInput := txt |} w
       = (Return (failure "Element with index undefined not found"), w1) /\
     executeAction {| action := "TYPE"; targetIndex := Undefined; textInput := txt |} w
       = (Return (failure "Element with index undefined not found"), w1)).
Proof.
  split; [reflexivity|]. split; [reflexivity|].
  intros r w1 Hx.
  assert (Hnone : List.find (indexIs Undefined) (default [] (features r)) = None).
  { induction (default [] (features r)) as [|f fs IH]; simpl; [reflexivity | exact IH]. }
  unfold executeAction. cbn [action targetIndex textInput isNull].
  settle_actions.
  split; rewrite (bind_returns _ _ _ _ _ Hx), Hnone; reflexivity.
Qed.

Lemma missing_target_null_witness :
  exists r w1,
    extractPageFeatures (loaded shopPage) = (Return r, w1) /\
    executeAction {| action := "CLICK"; targetIndex := Undefined; textInput := None |}
      (loaded shopPage)
      = (Return (failure "Element with index undefined not found"), w1).
Proof.
  eexists _, _. split; [vm_compute; reflexivity|].
  apply (proj2 (proj2 (missing_target_null (loaded shopPage) None))
           _ _ ltac:(vm_compute; reflexivity)).
Defined.

(** C8 as the specification words it fails when the field is omitted: the
    call goes on to the extraction, which stamps the bare button, and the
    error is not the one of a missing target. *)
Lemma omitted_target_runs_extraction :
  exists resp w',
    executeAction {| action := "CLICK"; targetIndex := Undefined; textInput := None |}
      (loaded (bareButtonPage None)) = (Return resp, w') /\
    error resp = Some "Element with index undefined not found" /\
    error resp <> Some "No target element specified" /\
    trace w' = [EExtract] /\
    getAttribute (nodeAt (doc w') 0) "data-bb-id" = Some "bb-0" /\
    doc w' <> doc (loaded (bareButtonPage None)).
Proof.
  eexists _, _. split; [vm_compute; reflexivity|].
  split; [reflexivity|]. split; [discriminate|]. split; [reflexivity|].
  split; [vm_compute; reflexivity|].
  intros Heq. apply (f_equal (fun d => getAttribute (nodeAt d 0) "data-bb-id")) in Heq.
  vm_compute in Heq. discriminate Heq.
Qed.




(** C3, as the script has it. A TYPE with a valid index and no text, once
    the element is found, is answered with the error of the missing text;
    no value in the page has changed and the trace holds no focus, no
    assignment and no event; but the answer comes after the extraction and
    the whole choreography, so the highlights were cleared, the element was
    scrolled into view and highlighted, and a highlight record is kept. *)
Theorem type_without_text (k : Z) (txt : option string) (w : World)
    (r : ContentResponse) (w1 : World) (f : PageFeature) (el : Element) (w2 : World) :
  txt = None \/ txt = Some "" ->
  extractPageFeatures w = (Return r, w1) ->
  List.find (indexIs (Num k)) (default [] (features r)) = Some f ->
  getElementBySelector (selector f) w1 = (Return (Some el), w2) ->
  exists w',
    executeAction {| action := "TYPE"; targetIndex := Num k; textInput := txt |} w
      = (Return (failure "No text to type"), w') /\
    trace w' = (trace w ++ [EExtract] ++ choreography el)%list /\
    sameValues (doc w) (doc w') /\
    is_Some (highlightedElements w' !! el).
Proof.
  intros Ht Hx Hf Hg.
  destruct (executeAction_found
              {| action := "TYPE"; targetIndex := Num k; textInput := txt |}
              k w r w1 f el w2 (or_intror eq_refl) eq_refl Hx Hf Hg)
    as (resp & w' & He & Tr & Hno).
  assert (Hsteps : stepsOfAction
            {| action := "TYPE"; targetIndex := Num k; textInput := txt |} el = []).
  { destruct Ht as [-> | ->]; reflexivity. }
  rewrite Hsteps in Tr. rewrite app_nil_r in Tr.
  destruct (Hno Hsteps) as (-> & Hv & Hs).
  exists w'. repeat split; assumption.
Qed.

Lemma type_without_text_witness :
  exists w',
    executeAction {| action := "TYPE"; targetIndex := Num 0; textInput := None |}
      (loaded searchPage) = (Return (failure "No text to type"), w') /\
    trace w' = (trace (loaded searchPage) ++ [EExtract] ++ choreography 0)%list /\
    sameValues (doc (loaded searchPage)) (doc w') /\
    is_Some (highlightedElements w' !! 0%nat).
Proof.
  eapply (type_without_text 0 None (loaded searchPage)).
  - left. reflexivity.
  - vm_compute. reflexivity.
  - vm_compute. reflexivity.
  - vm_compute. reflexivity.
Defined.

(** C3 as the specification words it fails: the error is returned, but by
    then the field carries the red outline, a highlight record is kept and
    the page was scrolled. *)
Lemma type_without_text_mutates :
  exists w',
    executeAction {| action := "TYPE"; targetIndex := Num 0; textInput := None |}
      (loaded searchPage) = (Return (failure "No text to type"), w') /\
    styleValue (nodeAt (doc (loaded searchPage)) 0) "outline" = "" /\
    styleValue (nodeAt (doc w') 0) "outline" = "3px solid #ff0000" /\
    doc w' <> doc (loaded searchPage) /\
    highlightedElements w' !! 0%nat = Some ("", "") /\
    In (EScrollIntoView 0) (trace w').
Proof.
  eexists. split; [vm_compute; reflexivity|].
  split; [reflexivity|]. split; [vm_compute; reflexivity|].
  split; [|split; [vm_compute; reflexivity | vm_compute; tauto]].
  intros Heq. apply (f_equal (fun d => styleValue (nodeAt d 0) "outline")) in Heq.
  vm_compute in Heq. discriminate Heq.
Qed.

(** ** Errors during the extraction *)





(** ** The event waiter *)

Lemma run_app (p : Pending) (a b : list Stimulus) : run p (a ++ b) = run (run p a) b.
Proof. unfold run. apply fold_left_app. Qed.

(** Once settled with no listener left, a wait is deaf: neither its timer
    nor any event adds a resolution or a listener. *)
Lemma settled_stays (post : list Stimulus) (p : Pending) :
  done p = true -> listeners p = [] ->
  resolved (run p post) = resolved p /\ listeners (run p post) = [] /\
  done (run p post) = true.
Proof.
  revert p. induction post as [|s post IH]; intros p Hd Hl; [auto|].
  simpl. destruct s as [ty|]; simpl.
  - unfold deliver. rewrite Hl. simpl. apply IH; assumption.
  - destruct (timerArmed p) eqn:Ha; [|apply IH; assumption].
    assert (E : forall q, done q = true -> finish false ("Timed out waiting for " ++ awaited p) q = q
                          /\ finishScroll false q = q).
    { intros q Hq. unfold finish, finishScroll. rewrite Hq. split; reflexivity. }
    destruct (E (setTimer false p) Hd) as [E1 E2].
    destruct (target p); rewrite ?E1, ?E2;
      destruct (IH (setTimer false p) Hd Hl) as (R & L & D); auto.
Qed.

(** Before the awaited event, events of other types leave a wait for a
    click or for input as it started. *)
Lemma quiet_stays (el : Element) (ev : string) (pre : list Stimulus) :
  ev = "click" \/ ev = "input" ->
  forallb (quiet ev) pre = true ->
  run (startElementWait el ev) pre = startElementWait el ev.
Proof.
  intros Hev. induction pre as [|s pre IH]; [reflexivity|].
  simpl. intros H. apply andb_true_iff in H as [Hq Hrest].
  destruct s as [ty|]; [|discriminate]. simpl in Hq.
  apply negb_true_iff in Hq.
  assert (E : react (startElementWait el ev) (Dispatched ty) = startElementWait el ev).
  { destruct Hev as [-> | ->]; unfold awaits in Hq; simpl in Hq.
    - change (bool_decide ("click" = "click")) with true in Hq.
      change (bool_decide ("click" = "input")) with false in Hq.
      simpl in Hq. rewrite orb_false_r in Hq. apply bool_decide_eq_false in Hq.
      unfold react, deliver. simpl.
      rewrite (bool_decide_eq_false_2 ("click" = ty)) by congruence. reflexivity.
    - change (bool_decide ("input" = "click")) with false in Hq.
      change (bool_decide ("input" = "input")) with true in Hq.
      simpl in Hq. apply orb_false_iff in Hq as [H1 H2].
      apply bool_decide_eq_false in H1. apply bool_decide_eq_false in H2.
      unfold react, deliver. simpl.
      rewrite (bool_decide_eq_false_2 ("input" = ty)) by congruence.
      rewrite (bool_decide_eq_false_2 ("change" = ty)) by congruence. reflexivity. }
  rewrite E. apply IH, Hrest.
Qed.

(** C9. A wait for a click or for input is pending until the awaited
    event: after any events of other types it has resolved nothing, its
    timer is still to fire and a capturing listener for the awaited type is
    registered.  When the event arrives before the timer fires, the wait
    resolves with success at that event and drops its listeners there;
    whatever follows, the timer or further events, resolves nothing
    more. *)
Theorem wait_resolves_exactly_once (el : Element) (ev ty : string)
    (pre post : list Stimulus) :
  awaits ev ty = true ->
  forallb (quiet ev) pre = true ->
  let p0 := run (startElementWait el ev) pre in
  let p1 := run (startElementWait el ev) (pre ++ [Dispatched ty]) in
  (resolved p0 = [] /\ done p0 = false /\ timerArmed p0 = true /\
   exists h, In (ty, h) (listeners p0)) /\
  resolved p1 = [detected ev] /\ listeners p1 = [] /\
  resolved (run p1 post) = [detected ev] /\ listeners (run p1 post) = [].
Proof.
  intros Ha Hq p0 p1.
  assert (Hev : ev = "click" \/ ev = "input").
  { unfold awaits in Ha. apply orb_true_iff in Ha as [H|H];
      apply andb_true_iff in H as [H _]; apply bool_decide_eq_true in H; auto. }
  assert (H0 : resolved p0 = [] /\ done p0 = false /\ timerArmed p0 = true /\
               exists h, In (ty, h) (listeners p0)).
  { subst p0. rewrite (quiet_stays el ev pre Hev Hq).
    unfold awaits in Ha.
    destruct Hev as [-> | ->].
    - change (bool_decide ("click" = "click")) with true in Ha.
      change (bool_decide ("click" = "input")) with false in Ha.
      simpl in Ha. rewrite orb_false_r in Ha. apply bool_decide_eq_true in Ha. subst ty.
      repeat split. exists onClick. left. reflexivity.
    - change (bool_decide ("input" = "click")) with false in Ha.
      change (bool_decide ("input" = "input")) with true in Ha.
      simpl in Ha. apply orb_true_iff in Ha as [H|H];
        apply bool_decide_eq_true in H; subst ty; repeat split; exists onInput.
      + left. reflexivity.
      + right. left. reflexivity. }
  assert (H1 : resolved p1 = [detected ev] /\ listeners p1 = [] /\ done p1 = true).
  { subst p1. rewrite run_app, (quiet_stays el ev pre Hev Hq).
    unfold awaits in Ha.
    destruct Hev as [-> | ->].
    - change (bool_decide ("click" = "click")) with true in Ha.
      change (bool_decide ("click" = "input")) with false in Ha.
      simpl in Ha. rewrite orb_false_r in Ha. apply bool_decide_eq_true in Ha. subst ty.
      vm_compute. auto.
    - change (bool_decide ("input" = "click")) with false in Ha.
      change (bool_decide ("input" = "input")) with true in Ha.
      simpl in Ha. apply orb_true_iff in Ha as [H|H];
        apply bool_decide_eq_true in H; subst ty; vm_compute; auto. }
  split; [exact H0|].
  destruct H1 as (R & L & D).
  destruct (settled_stays post p1 D L) as (R' & L' & _).
  rewrite R', R. auto.
Qed.

Lemma wait_resolves_exactly_once_witness :
  let p0 := run (startElementWait 0 "click") [Dispatched "mousemove"; Dispatched "input"] in
  let p1 := run (startElementWait 0 "click")
              ([Dispatched "mousemove"; Dispatched "input"] ++ [Dispatched "click"]) in
  (resolved p0 = [] /\ done p0 = false /\ timerArmed p0 = true /\
   exists h, In ("click", h) (listeners p0)) /\
  resolved p1 = [detected "click"] /\ listeners p1 = [] /\
  resolved (run p1 [Dispatched "click"; TimerFired; Dispatched "click"])
    = [detected "click"] /\
  listeners (run p1 [Dispatched "click"; TimerFired; Dispatched "click"]) = [].
Proof.
  apply (wait_resolves_exactly_once 0 "click" "click"
           [Dispatched "mousemove"; Dispatched "input"]
           [Dispatched "click"; TimerFired; Dispatched "click"]).
  - reflexivity.
  - reflexivity.
Defined.

(** Whatever reaches a wait on an element, it resolves at most once. *)
Lemma wait_resolves_at_most_once (el : Element) (ev : string) (ss : list Stimulus) :
  (length (resolved (run (startElementWait el ev) ss)) <= 1)%nat.
Proof.
  assert (G : forall ss p,
             (done p = false /\ resolved p = [] \/
              done p = true /\ (length (resolved p) <= 1)%nat) ->
             (forall l, In l (listeners p) -> snd l <> onScroll) ->
             target p = OnElement el ->
             (length (resolved (run p ss)) <= 1)%nat).
  { clear ss. intros ss. induction ss as [|s ss IH]; intros p Hp Hl Ht.
    - simpl. destruct Hp as [[_ ->]|[_ H]]; simpl; lia.
    - simpl. assert (Hfin : forall ok msg q,
          (done q = false /\ resolved q = [] \/
           done q = true /\ (length (resolved q) <= 1)%nat) ->
          (done (finish ok msg q) = true /\ (length (resolved (finish ok msg q)) <= 1)%nat)
          /\ (forall l, In l (listeners (finish ok msg q)) -> In l (listeners q))
          /\ target (finish ok msg q) = target q).
      { intros ok msg q Hq. unfold finish. destruct (done q) eqn:Hd.
        - destruct Hq as [[Hq _]|[_ Hq]]; [discriminate|]. auto.
        - destruct Hq as [[_ Hq]|[Hq _]]; [|discriminate].
          simpl. rewrite Hq. simpl. split; [split; [reflexivity|lia]|].
          split; [|reflexivity].
          intros l Hin. apply filter_In in Hin as [Hin _].
          apply filter_In in Hin as [Hin _]. apply filter_In in Hin as [Hin _].
          exact Hin. }
      destruct s as [ty|].
      + unfold react, deliver.
        assert (D : forall ls q,
          (done q = false /\ resolved q = [] \/
           done q = true /\ (length (resolved q) <= 1)%nat) ->
          (forall l, In l (listeners q) -> snd l <> onScroll) ->
          target q = OnElement el ->
          let q' := fold_left
            (fun q0 l => if bool_decide (fst l = ty) && bool_decide (l ∈ listeners q0)
                         then callHandler (snd l) q0 else q0) ls q in
          (done q' = false /\ resolved q' = [] \/
           done q' = true /\ (length (resolved q') <= 1)%nat) /\
          (forall l, In l (listeners q') -> snd l <> onScroll) /\
          target q' = OnElement el).
        { intros ls. induction ls as [|l ls IHl]; intros q Hq Hlq Htq; simpl; [auto|].
          destruct (bool_decide (fst l = ty) && bool_decide (l ∈ listeners q)) eqn:Hc;
            [|apply IHl; assumption].
          apply andb_true_iff in Hc as [_ Hin]. apply bool_decide_eq_true in Hin.
          apply list_elem_of_In in Hin. specialize (Hlq l Hin) as Hns.
          destruct l as [lt h]. simpl in *.
          destruct h; [| |contradiction]; simpl;
            match goal with
            | |- context [finish ?ok ?msg q] =>
                destruct (Hfin ok msg q Hq) as (F1 & F2 & F3)
            end;
            (apply IHl; [right; exact F1 | intros l' Hl'; apply Hlq, F2, Hl'
                        | rewrite F3; exact Htq]). }
        destruct (D (listeners p) p Hp Hl Ht) as (D1 & D2 & D3).
        apply IH; assumption.
      + unfold react. destruct (timerArmed p); [|apply IH; assumption].
        rewrite Ht.
        destruct (Hfin false ("Timed out waiting for " ++ awaited p) (setTimer false p) Hp)
          as (F1 & F2 & F3).
        apply IH; [right; exact F1 | intros l Hin; apply Hl, F2, Hin | rewrite F3; exact Ht]. }
  apply G.
  - unfold startElementWait.
    destruct (bool_decide (ev = "click")); [left; auto|].
    destruct (bool_decide (ev = "input")); [left; auto|].
    right. simpl. split; [reflexivity|lia].
  - unfold startElementWait.
    destruct (bool_decide (ev = "click")); [|destruct (bool_decide (ev = "input"))];
      simpl; intros l Hin.
    + destruct Hin as [<-|[]]. discriminate.
    + destruct Hin as [<-|[<-|[]]]; discriminate.
    + destruct Hin.
  - unfold startElementWait.
    destruct (bool_decide (ev = "click")); [|destruct (bool_decide (ev = "input"))];
      reflexivity.
Qed.

(** * Further properties *)

(** ** The shape of the inventory *)

Lemma reindexFrom_length (i : nat) (fs : list PageFeature) :
  length (reindexFrom i fs) = length fs.
Proof. revert i. induction fs as [|f fs IH]; intros i; simpl; [|rewrite IH]; reflexivity. Qed.

Lemma reindexFrom_index (i : nat) (fs : list PageFeature) :
  map index (reindexFrom i fs) = seq i (length fs).
Proof. revert i. induction fs as [|f fs IH]; intros i; simpl; [|rewrite IH]; reflexivity. Qed.

Lemma reindexFrom_app (i : nat) (a b : list PageFeature) :
  reindexFrom i (a ++ b) = (reindexFrom i a ++ reindexFrom (i + length a) b)%list.
Proof.
  revert i. induction a as [|f a IH]; intros i; simpl.
  - rewrite Nat.add_0_r. reflexivity.
  - rewrite IH. replace (i + S (length a))%nat with (S i + length a)%nat by lia.
    reflexivity.
Qed.

Lemma uniqueBy_app (seen : gset string) (a b : list PageFeature) :
  exists seen', uniqueBy seen (a ++ b) = (uniqueBy seen a ++ uniqueBy seen' b)%list.
Proof.
  revert seen. induction a as [|f a IH]; intros seen; simpl.
  - exists seen. reflexivity.
  - destruct (bool_decide (dedupKey f ∈ seen)).
    + apply IH.
    + destruct (IH ({[dedupKey f]} ∪ seen)) as (seen' & ->). exists seen'. reflexivity.
Qed.

Lemma Forall_uniqueBy (P : PageFeature -> Prop) (seen : gset string) (fs : list PageFeature) :
  Forall P fs -> Forall P (uniqueBy seen fs).
Proof.
  intros H. apply List.Forall_forall. intros f Hf. apply uniqueBy_In in Hf.
  exact (proj1 (List.Forall_forall _ _) H f Hf).
Qed.

Lemma Forall_reindexFrom (P : PageFeature -> Prop) (i : nat) (fs : list PageFeature) :
  (forall j f, P f -> P (reindexed j f)) -> Forall P fs -> Forall P (reindexFrom i fs).
Proof.
  intros HP H. apply List.Forall_forall. intros f Hf.
  apply reindexFrom_In in Hf as (g & j & Hg & ->). apply HP.
  exact (proj1 (List.Forall_forall _ _) H g Hg).
Qed.

(** X1. Index density: the indices of an inventory are 0, 1, 2, ... in
    the order of the list, without gaps, however many candidates were
    skipped or dropped as duplicates. *)
Theorem inventory_indices_dense (w : World) (r : ContentResponse) (w' : World) :
  extractPageFeatures w = (Return r, w') ->
  exists fs, features r = Some fs /\ map index fs = seq 0 (length fs).
Proof.
  intros H. apply extractPageFeatures_shape in H as (_ & links & ins & btns & _ & ->).
  eexists. split; [reflexivity|].
  rewrite reindexFrom_index, reindexFrom_length. reflexivity.
Qed.

Lemma inventory_indices_dense_witness :
  exists r w' fs, extractPageFeatures (loaded shopPage) = (Return r, w') /\
    features r = Some fs /\ map index fs = seq 0 (length fs).
Proof.
  destruct (extractPageFeatures (loaded shopPage)) as [[r|e] w'] eqn:H.
  - destruct (inventory_indices_dense _ _ _ H) as (fs & Hfs & Hi).
    exists r, w', fs. auto.
  - vm_compute in H. discriminate H.
Defined.

(** X2. Assembly order: an inventory is a run of link features, then a
    run of input features, then a run of button features. *)
Theorem inventory_grouped_by_type (w : World) (r : ContentResponse) (w' : World) :
  extractPageFeatures w = (Return r, w') ->
  exists ls is_ bs,
    features r = Some (ls ++ is_ ++ bs)%list /\
    Forall (fun f => type f = link) ls /\
    Forall (fun f => type f = input) is_ /\
    Forall (fun f => type f = button) bs.
Proof.
  intros H. apply extractPageFeatures_shape in H as (_ & links & ins & btns & C & ->).
  destruct C as [_ Lt _ It _ Bt].
  destruct (uniqueBy_app ∅ links (ins ++ btns)) as (s1 & E1).
  destruct (uniqueBy_app s1 ins btns) as (s2 & E2).
  rewrite E1, E2, !reindexFrom_app.
  eexists _, _, _. split; [reflexivity|].
  repeat split; apply Forall_reindexFrom; try (intros j f Hf; exact Hf);
    apply Forall_uniqueBy.
  - eapply List.Forall_impl; [|exact Lt]. intros f [Hf _]. exact Hf.
  - eapply List.Forall_impl; [|exact It]. intros f [Hf _]. exact Hf.
  - eapply List.Forall_impl; [|exact Bt]. intros f [Hf _]. exact Hf.
Qed.

Lemma inventory_grouped_by_type_witness :
  exists r w' ls is_ bs,
    extractPageFeatures (loaded shopPage) = (Return r, w') /\
    features r = Some (ls ++ is_ ++ bs)%list /\
    Forall (fun f => type f = link) ls /\
    Forall (fun f => type f = input) is_ /\
    Forall (fun f => type f = button) bs.
Proof.
  destruct (extractPageFeatures (loaded shopPage)) as [[r|e] w'] eqn:H.
  - destruct (inventory_grouped_by_type _ _ _ H) as (ls & is_ & bs & Hfs & Hrest).
    exists r, w', ls, is_, bs. auto.
  - vm_compute in H. discriminate H.
Defined.

(** X3. The de-duplication filter keeps the order of the features, loses
    no key, and keeps for each key the first feature that carries it: any
    feature of the input has a survivor with its key, and that survivor is
    the feature itself unless an earlier feature has the same key. *)
Theorem uniqueBy_keeps_first (fs : list PageFeature) :
  sublist (uniqueBy ∅ fs) fs /\
  (forall f, In f fs -> exists g, In g (uniqueBy ∅ fs) /\ dedupKey g = dedupKey f) /\
  (forall pre f post, fs = (pre ++ f :: post)%list ->
     Forall (fun g => dedupKey g <> dedupKey f) pre -> In f (uniqueBy ∅ fs)).
Proof.
  assert (S : forall seen l, sublist (uniqueBy seen l) l).
  { intros seen l. revert seen. induction l as [|f l IH]; intros seen; simpl.
    - constructor.
    - destruct (bool_decide (dedupKey f ∈ seen)).
      + apply sublist_cons, IH.
      + apply sublist_skip, IH. }
  assert (K : forall l seen f, In f l -> dedupKey f ∉ seen ->
              exists g, In g (uniqueBy seen l) /\ dedupKey g = dedupKey f).
  { induction l as [|h l IH]; intros seen f Hin Hns; [destruct Hin|].
    simpl. destruct (bool_decide (dedupKey h ∈ seen)) eqn:Hk.
    - apply bool_decide_eq_true in Hk. destruct Hin as [->|Hin]; [contradiction|].
      apply IH; assumption.
    - destruct (decide (dedupKey h = dedupKey f)) as [He|Hne].
      + exists h. split; [left; reflexivity | exact He].
      + destruct Hin as [->|Hin]; [contradiction|].
        destruct (IH ({[dedupKey h]} ∪ seen) f Hin) as (g & Hg & Hgk);
          [intros [E%elem_of_singleton|E]%elem_of_union; [congruence | contradiction]|].
        exists g. split; [right; exact Hg | exact Hgk]. }
  assert (F : forall pre seen f post,
              Forall (fun g => dedupKey g <> dedupKey f) pre -> dedupKey f ∉ seen ->
              In f (uniqueBy seen (pre ++ f :: post))).
  { induction pre as [|h pre IH]; intros seen f post Hpre Hns; simpl.
    - rewrite bool_decide_eq_false_2 by exact Hns. left. reflexivity.
    - inversion Hpre as [|? ? Hh Hrest]; subst.
      destruct (bool_decide (dedupKey h ∈ seen)).
      + apply IH; assumption.
      + right. apply IH; [assumption|].
        intros [E%elem_of_singleton|E]%elem_of_union; [congruence | contradiction]. }
  split; [apply S|]. split.
  - intros f Hin. apply K; [exact Hin | set_solver].
  - intros pre f post -> Hpre. apply F; [exact Hpre | set_solver].
Qed.

Lemma uniqueBy_keeps_first_witness :
  let a := linkFeature 0 "Tea" (ById "tea") "/tea" "" false 0 in
  let b := linkFeature 1 "Tea" (ById "tea2") "/tea" "" false 1 in
  In a (uniqueBy ∅ [a; b]).
Proof.
  intros a b.
  apply (proj2 (proj2 (uniqueBy_keeps_first [a; b])) [] a [b]).
  - reflexivity.
  - constructor.
Defined.

(** ** What an extraction leaves alone *)

Lemma unmarked_stamped (uid : string) (n : Node) :
  unmarked (setAttributeNode "data-bb-id" uid n) = unmarked n.
Proof. unfold unmarked. simpl. rewrite delete_insert_eq. reflexivity. Qed.

(** X4. An extraction touches nothing of the page but marker attributes,
    and nothing of the script's state but the element cache and its
    counter: every node is the same up to its marker, and the clicked
    memo, the highlight records, the overlay, the pointer and the pending
    timers are as before. *)
Theorem extraction_frame (w : World) (r : ContentResponse) (w' : World) :
  extractPageFeatures w = (Return r, w') ->
  length (doc w') = length (doc w) /\
  (forall i, unmarked (nodeAt (doc w') i) = unmarked (nodeAt (doc w) i)) /\
  clickedElements w' = clickedElements w /\
  highlightedElements w' = highlightedElements w /\
  currentHighlightedEl w' = currentHighlightedEl w /\
  pointer w' = pointer w /\
  timers w' = timers w.
Proof.
  intros H.
  destruct (extractPageFeatures_rule
              (fun v => (forall i, unmarked (nodeAt (doc v) i) = unmarked (nodeAt (doc w) i)) /\
                        clickedElements v = clickedElements w /\
                        highlightedElements v = highlightedElements w /\
                        currentHighlightedEl v = currentHighlightedEl w /\
                        pointer v = pointer w /\ timers v = timers w)
              (fun _ _ _ => True)) with (w := w) (r := r) (w' := w')
    as (HR & Hlen & _); try exact H; try (intros; exact I).
  - intros v el s v1 HR Hg.
    destruct (generateSelector_cases _ _ _ _ Hg) as [[_ ->]|[_ ->]]; [exact HR|].
    destruct HR as (Hn & Hrest). split; [|exact Hrest].
    intros i. simpl. rewrite <- Hn.
    apply (nodeAt_updateNode_proj unmarked). apply unmarked_stamped.
  - repeat split.
  - split; [exact Hlen | exact HR].
Qed.

Lemma extraction_frame_witness :
  exists r w', extractPageFeatures (loaded shopPage) = (Return r, w') /\
    clickedElements w' = clickedElements (loaded shopPage) /\
    timers w' = timers (loaded shopPage).
Proof.
  destruct (extractPageFeatures (loaded shopPage)) as [[r|e] w'] eqn:H.
  - destruct (extraction_frame _ _ _ H) as (_ & _ & Hc & _ & _ & _ & Ht).
    exists r, w'. auto.
  - vm_compute in H. discriminate H.
Defined.

Lemma issued_fresh (w : World) : issued w -> elementCache w !! markerId (selectorCounter w) = None.
Proof.
  intros Hi. destruct (elementCache w !! markerId (selectorCounter w)) as [el|] eqn:E;
    [|reflexivity].
  destruct (Hi _ _ E) as (k & Hk & Heq). apply markerId_inj in Heq. lia.
Qed.

Lemma issued_stamp (el : Element) (w : World) :
  issued w -> issued (stamp el (markerId (selectorCounter w)) w).
Proof.
  intros Hi uid x. simpl. intros Hl.
  destruct (decide (markerId (selectorCounter w) = uid)) as [<-|Hne].
  - exists (selectorCounter w). split; [lia | reflexivity].
  - rewrite lookup_insert_ne in Hl by exact Hne.
    destruct (Hi _ _ Hl) as (k & Hk & ->). exists k. split; [lia | reflexivity].
Qed.

(** X5. The element cache is append-only and its counter only grows: in a
    state where every cache key is a marker already issued, as it is when
    the script is loaded, an extraction keeps every entry as it was, adds
    entries only under new markers, and never lowers the counter. *)
Theorem cache_append_only (w : World) (r : ContentResponse) (w' : World) :
  issued w ->
  extractPageFeatures w = (Return r, w') ->
  issued w' /\
  (selectorCounter w <= selectorCounter w')%nat /\
  elementCache w ⊆ elementCache w'.
Proof.
  intros Hi H.
  destruct (extractPageFeatures_rule
              (fun v => issued v /\ (selectorCounter w <= selectorCounter v)%nat /\
                        elementCache w ⊆ elementCache v)
              (fun _ _ _ => True)) with (w := w) (r := r) (w' := w')
    as (HR & _); try exact H; try (intros; exact I).
  - intros v el s v1 (Hv & Hc & Hs) Hg.
    destruct (generateSelector_cases _ _ _ _ Hg) as [[_ ->]|[_ ->]]; [auto|].
    split; [apply issued_stamp, Hv|]. simpl. split; [lia|].
    etransitivity; [exact Hs|]. apply insert_subseteq, issued_fresh, Hv.
  - split; [exact Hi|]. split; [simpl; lia | reflexivity].
  - exact HR.
Qed.

Lemma cache_append_only_witness :
  exists r w', extractPageFeatures (loaded shopPage) = (Return r, w') /\
    issued w' /\ (0 <= selectorCounter w')%nat /\ (∅ : gmap string nat) ⊆ elementCache w'.
Proof.
  destruct (extractPageFeatures (loaded shopPage)) as [[r|e] w'] eqn:H.
  - assert (Hi : issued (loaded shopPage)).
    { intros uid el Hl. simpl in Hl. rewrite lookup_empty in Hl. discriminate Hl. }
    destruct (cache_append_only _ _ _ Hi H) as (H1 & H2 & H3).
    exists r, w'. auto.
  - vm_compute in H. discriminate H.
Defined.

(** ** Selectors that stay the same *)

Lemma generateSelector_choose (el : Element) (w : World) :
  generateSelector el w =
  match chooseSelector (nodeAt (doc w) el) (doc w) with
  | Some s => (Return s, w)
  | None => cacheFallback el w
  end.
Proof.
  unfold generateSelector, chooseSelector, uniqueIn.
  unfold bind at 1, get. cbv zeta.
  set (n := nodeAt (doc w) el).
  destruct (Str.nonempty (attr n "id") && Str.valid_id (attr n "id")) eqn:E1; cbn [andb].
  - rewrite (bind_returns _ _ _ _ _ (uniqueInDocument_run _ _)).
    destruct (selectAll (doc w) (ById (attr n "id"))) as [l|];
      [destruct (length l =? 1)%nat; [reflexivity|] |].
    all: destruct (isFormControl n && Str.nonempty (attr n "name")) eqn:E2; cbn [andb];
      [rewrite (bind_returns _ _ _ _ _ (uniqueInDocument_run _ _));
       destruct (selectAll (doc w) (ByAttr (localName n) "name" (attr n "name"))) as [l2|];
       [destruct (length l2 =? 1)%nat; [reflexivity|] |] | unfold bind at 1, ret at 1].
    all: destruct (0 <? length (stableClasses n))%nat eqn:E3; cbn [andb];
      [rewrite (bind_returns _ _ _ _ _ (uniqueInDocument_run _ _));
       destruct (selectAll (doc w) (ByClass (localName n) (firstThree (stableClasses n))))
         as [l3|]; [destruct (length l3 =? 1)%nat|]; reflexivity
      | unfold bind at 1, ret at 1; reflexivity].
  - unfold bind at 1, ret at 1.
    destruct (isFormControl n && Str.nonempty (attr n "name")) eqn:E2; cbn [andb];
      [rewrite (bind_returns _ _ _ _ _ (uniqueInDocument_run _ _));
       destruct (selectAll (doc w) (ByAttr (localName n) "name" (attr n "name"))) as [l2|];
       [destruct (length l2 =? 1)%nat; [reflexivity|] |] | unfold bind at 1, ret at 1].
    all: destruct (0 <? length (stableClasses n))%nat eqn:E3; cbn [andb];
      [rewrite (bind_returns _ _ _ _ _ (uniqueInDocument_run _ _));
       destruct (selectAll (doc w) (ByClass (localName n) (firstThree (stableClasses n))))
         as [l3|]; [destruct (length l3 =? 1)%nat|]; reflexivity
      | unfold bind at 1, ret at 1; reflexivity].
Qed.

Lemma getAttribute_markup (n n' : Node) (name : string) :
  markup n' = markup n -> name <> "data-bb-id" ->
  getAttribute n' name = getAttribute n name.
Proof.
  unfold markup, getAttribute. intros H Hne.
  apply (f_equal snd) in H. simpl in H. rename H into Ha.
  apply (f_equal (fun m => m !! name)) in Ha.
  rewrite !lookup_delete_ne in Ha by congruence. exact Ha.
Qed.

Lemma tagName_markup (n n' : Node) : markup n' = markup n -> tagName n' = tagName n.
Proof. unfold markup. intros H. apply (f_equal fst) in H. exact H. Qed.

Lemma matches_markup (n n' : Node) (s : Selector) :
  markup n' = markup n -> readsMarker s = false -> matches n' s = matches n s.
Proof.
  intros H Hr. pose proof (tagName_markup _ _ H) as Ht.
  destruct s as [id|tag name v|tag cs|u]; simpl in *.
  - unfold hasAttr. rewrite (getAttribute_markup _ _ _ H) by discriminate. reflexivity.
  - apply bool_decide_eq_false in Hr.
    unfold hasAttr, localName. rewrite (getAttribute_markup _ _ _ H) by exact Hr.
    rewrite Ht. reflexivity.
  - unfold localName. rewrite Ht. f_equal.
    induction cs as [|c cs IH]; simpl; [reflexivity|]. rewrite IH. f_equal.
    unfold hasClass, classList, attr.
    rewrite (getAttribute_markup _ _ _ H) by discriminate. reflexivity.
  - discriminate.
Qed.

Lemma selectAll_agree (d d' : Document) (s : Selector) :
  agreeOn markup d d' -> readsMarker s = false -> selectAll d' s = selectAll d s.
Proof.
  intros [Hlen Hn] Hr. unfold selectAll. rewrite Hlen.
  destruct (selector_ok s); [|reflexivity]. f_equal.
  apply List.filter_ext. intros i. apply matches_markup; [apply Hn | exact Hr].
Qed.

Lemma chooseSelector_agree (n n' : Node) (d d' : Document) :
  markup n' = markup n -> agreeOn markup d d' ->
  chooseSelector n' d' = chooseSelector n d.
Proof.
  intros H Hd. unfold chooseSelector, uniqueIn, isFormControl, isTag, stableClasses,
    classList, localName, attr.
  rewrite !(getAttribute_markup _ _ _ H) by discriminate.
  rewrite (tagName_markup _ _ H).
  rewrite !(selectAll_agree _ _ _ Hd) by reflexivity.
  reflexivity.
Qed.

Lemma agreeOn_refl {A} (g : Node -> A) (d : Document) : agreeOn g d d.
Proof. split; [reflexivity | intros i; reflexivity]. Qed.

Lemma agreeOn_trans {A} (g : Node -> A) (a b c : Document) :
  agreeOn g a b -> agreeOn g b c -> agreeOn g a c.
Proof.
  intros [L1 H1] [L2 H2]. split; [congruence|]. intros i. rewrite H2, H1. reflexivity.
Qed.

Lemma agreeOn_updateNode {A} (g : Node -> A) (f : Node -> Node) (el : Element) (d : Document) :
  (forall n, g (f n) = g n) -> agreeOn g d (updateNode f el d).
Proof.
  intros Hf. split; [apply updateNode_length|].
  intros i. apply nodeAt_updateNode_proj, Hf.
Qed.

Lemma markup_stamped (uid : string) (n : Node) :
  markup (setAttributeNode "data-bb-id" uid n) = markup n.
Proof. unfold markup. simpl. rewrite delete_insert_eq. reflexivity. Qed.

Lemma generateSelector_markup (el : Element) (w : World) (s : Selector) (w1 : World) :
  generateSelector el w = (Return s, w1) -> agreeOn markup (doc w) (doc w1).
Proof.
  intros H. destruct (generateSelector_cases _ _ _ _ H) as [[_ ->]|[_ ->]].
  - apply agreeOn_refl.
  - simpl. apply agreeOn_updateNode. apply markup_stamped.
Qed.

(** A checked selector is the one [chooseSelector] names. *)
Lemma generateSelector_checked (el : Element) (w : World) (s : Selector) (w1 : World) :
  generateSelector el w = (Return s, w1) -> is_marker s = false ->
  chooseSelector (nodeAt (doc w) el) (doc w) = Some s /\ w1 = w.
Proof.
  rewrite generateSelector_choose. intros H Hm.
  destruct (chooseSelector (nodeAt (doc w) el) (doc w)) as [s'|].
  - inversion H; subst. auto.
  - unfold cacheFallback, bind, get, modify, ret in H. inversion H; subst. discriminate.
Qed.

(** The selectors of an inventory that are not markers are the ones
    [chooseSelector] names at the end of the extraction. *)
Lemma inventory_chosen (w : World) (r : ContentResponse) (w' : World)
    (fs : list PageFeature) (f : PageFeature) :
  extractPageFeatures w = (Return r, w') -> features r = Some fs -> In f fs ->
  is_marker (selector f) = false ->
  chooseSelector (nodeAt (doc w') (origin f)) (doc w') = Some (selector f).
Proof.
  intros H Hfs Hin Hm.
  destruct (extractPageFeatures_rule (fun _ => True)
              (fun s el v => is_marker s = false ->
                             chooseSelector (nodeAt (doc v) el) (doc v) = Some s)
              (fun _ _ _ _ _ _ => I)) with (w := w) (r := r) (w' := w')
    as (_ & _ & fs' & Hfs' & Hall); try exact H; try exact I.
  - intros v el s v1 s0 el0 _ Hq Hg Hm0. rewrite <- (Hq Hm0).
    pose proof (generateSelector_markup _ _ _ _ Hg) as Ha.
    apply chooseSelector_agree; [apply Ha | exact Ha].
  - intros v el s v1 _ _ Hg Hm0.
    destruct (generateSelector_checked _ _ _ _ Hg Hm0) as [Hc ->]. exact Hc.
  - rewrite Hfs in Hfs'. inversion Hfs'; subst fs'.
    exact (proj1 (List.Forall_forall _ _) Hall f Hin Hm).
Qed.

(** X6. Selector stability across scans: for every feature of an inventory
    whose selector is not a marker, generating the selector of its element
    again right after the extraction gives the same selector and changes
    nothing. *)
Theorem selectors_stable_across_scans (w : World) (r : ContentResponse) (w' : World)
    (fs : list PageFeature) (f : PageFeature) :
  extractPageFeatures w = (Return r, w') -> features r = Some fs -> In f fs ->
  is_marker (selector f) = false ->
  generateSelector (origin f) w' = (Return (selector f), w').
Proof.
  intros H Hfs Hin Hm. rewrite generateSelector_choose.
  rewrite (inventory_chosen _ _ _ _ _ H Hfs Hin Hm). reflexivity.
Qed.

Lemma selectors_stable_across_scans_witness :
  exists r w' f fs, extractPageFeatures (loaded shopPage) = (Return r, w') /\
    features r = Some (f :: fs) /\
    generateSelector (origin f) w' = (Return (selector f), w').
Proof.
  eexists _, _, _, _.
  split; [vm_compute; reflexivity|].
  split; [reflexivity|].
  eapply (selectors_stable_across_scans (loaded shopPage)).
  - vm_compute. reflexivity.
  - reflexivity.
  - left. reflexivity.
  - reflexivity.
Defined.

(** ** What the highlights leave alone *)

Lemma restoreStyles_agree {A} (g : Node -> A) (h : gmap nat (string * string))
    (d : Document) :
  (forall st n, g (setStyleNode st n) = g n) ->
  agreeOn g d (map_fold restoreStyles d h).
Proof.
  intros Hg. apply (map_fold_weak_ind (fun d' _ => agreeOn g d d')).
  - apply agreeOn_refl.
  - intros el orig m d' _ IH. eapply agreeOn_trans; [exact IH|].
    unfold restoreStyles. apply agreeOn_updateNode.
    intros n. unfold assignStyle.
    destruct (Str.nonempty (fst orig)), (Str.nonempty (snd orig)); rewrite !Hg; reflexivity.
Qed.

Lemma clearAllHighlights_frame {A} (g : Node -> A) (w : World) :
  (forall st n, g (setStyleNode st n) = g n) ->
  exists w', clearAllHighlights w = (Return tt, w') /\
    agreeOn g (doc w) (doc w') /\
    clickedElements w' = clickedElements w /\
    elementCache w' = elementCache w /\
    selectorCounter w' = selectorCounter w /\
    highlightedElements w' = ∅ /\
    currentHighlightedEl w' = None.
Proof.
  intros Hg. unfold clearAllHighlights, stopOverlayTracking, emit, modify, bind.
  eexists. split; [reflexivity|].
  cbn [pointer with_overlay with_highlighted with_doc with_trace].
  destruct (pointer w) as [[at_el op]|];
    cbn [trace doc with_pointer with_overlay with_highlighted with_doc with_trace
         highlightedElements clickedElements elementCache selectorCounter
         currentHighlightedEl];
    (split; [apply restoreStyles_agree, Hg | repeat split]).
Qed.

Lemma highlightElement_frame {A} (g : Node -> A) (el : Element) (duration : Z) (w : World) :
  (forall st n, g (setStyleNode st n) = g n) ->
  exists w', highlightElement el duration w = (Return tt, w') /\
    agreeOn g (doc w) (doc w') /\
    clickedElements w' = clickedElements w /\
    elementCache w' = elementCache w /\
    selectorCounter w' = selectorCounter w /\
    currentHighlightedEl w' = currentHighlightedEl w /\
    highlightedElements w' =
      match highlightedElements w !! el with
      | Some _ => highlightedElements w
      | None => <[el := (styleValue (nodeAt (doc w) el) "outline",
                         styleValue (nodeAt (doc w) el) "box-shadow")]> (highlightedElements w)
      end.
Proof.
  intros Hg. unfold highlightElement, emit, modify, bind, ret.
  cbn [highlightedElements with_trace doc].
  destruct (highlightedElements w !! el) as [orig|] eqn:Hh;
    destruct (0 <? duration)%Z;
    (eexists; split; [reflexivity|]);
    cbn [trace doc highlightedElements clickedElements elementCache selectorCounter
         currentHighlightedEl with_timers with_doc with_highlighted with_trace];
    (split; [apply agreeOn_updateNode; intros n; unfold setImportant; rewrite !Hg; reflexivity
            | repeat split]).
Qed.

(** ** Resolving a selector *)



Lemma getElementBySelector_returns (s : Selector) (w : World) :
  exists found, getElementBySelector s w = (Return found, w).
Proof.
  unfold getElementBySelector, bind, get.
  destruct (match cacheMatch s with Some _ => _ | None => _ end);
    [eexists; reflexivity|].
  unfold try_catch, querySelector, bind, querySelectorAll, ret.
  destruct (selectAll (doc w) s); eexists; reflexivity.
Qed.

(** X8. Resolving never throws and never changes the state.  When the
    text of the selector holds no marker and the query for it raises an
    error, the error is caught and the answer is null.  A marker found
    anywhere in the text of the selector, whose cached element is still
    inside body, is answered from the cache without a query, be the
    selector as a whole valid or not. *)
Theorem getElementBySelector_never_throws :
  (forall s w, exists found, getElementBySelector s w = (Return found, w)) /\
  (forall s w e v, cacheMatch s = None -> querySelector s w = (Throw e, v) ->
     getElementBySelector s w = (Return None, v)) /\
  (forall s w uid el,
     cacheMatch s = Some uid -> elementCache w !! uid = Some el ->
     inBody (nodeAt (doc w) el) = true ->
     getElementBySelector s w = (Return (Some el), w)).
Proof.
  split; [|split].
  - intros s w. unfold getElementBySelector, bind, get.
    destruct (match cacheMatch s with Some _ => _ | None => _ end);
      [eexists; reflexivity|].
    unfold try_catch, querySelector, bind, querySelectorAll, ret.
    destruct (selectAll (doc w) s); eexists; reflexivity.
  - intros s w e v Hc Hq. unfold getElementBySelector, bind, get. rewrite Hc.
    unfold try_catch. rewrite Hq. reflexivity.
  - intros s w uid el Hc Hl Hb. unfold getElementBySelector, bind, get.
    rewrite Hc, Hl, Hb. reflexivity.
Qed.

Lemma getElementBySelector_never_throws_witness :
  getElementBySelector (ByClass "a" ["md:flex"]) (loaded utilityClassPage)
    = (Return None, loaded utilityClassPage).
Proof.
  apply (proj1 (proj2 getElementBySelector_never_throws) _ _ "SyntaxError"); reflexivity.
Defined.

(** The marker pattern is looked for anywhere in the text: an attribute
    selector on the marker attribute, whatever stands before it, and an id
    selector that carries the pattern, all name a cached id. *)
Lemma cacheMatch_anywhere :
  cacheMatch (ByAttr "button" "data-bb-id" "bb-0") = Some "bb-0" /\
  cacheMatch (ByAttr "a:b" "data-bb-id" "bb-0") = Some "bb-0" /\
  cacheMatch (ById ("x[data-bb-id=" ++ Str.dquote ++ "bb-7" ++ Str.dquote ++ "]"))
    = Some "bb-7" /\
  cacheMatch (ByAttr "input" "name" "q") = None.
Proof. repeat split. Qed.




(** ** Highlights *)

Lemma styleValue_assign_eq (p v : string) (n : Node) :
  styleValue (assignStyle p v n) p = v.
Proof.
  unfold styleValue, assignStyle. destruct v as [|c v]; simpl.
  - rewrite lookup_delete_eq. reflexivity.
  - rewrite lookup_insert_eq. reflexivity.
Qed.

Lemma styleValue_assign_ne (p q v : string) (n : Node) :
  p <> q -> styleValue (assignStyle p v n) q = styleValue n q.
Proof.
  intros Hne. unfold styleValue, assignStyle. destruct v as [|c v]; simpl.
  - rewrite lookup_delete_ne by exact Hne. reflexivity.
  - rewrite lookup_insert_ne by exact Hne. reflexivity.
Qed.

Lemma styleValue_remove_eq (p : string) (n : Node) :
  styleValue (removeProperty p n) p = "".
Proof. unfold styleValue, removeProperty. simpl. rewrite lookup_delete_eq. reflexivity. Qed.

Lemma styleValue_remove_ne (p q : string) (n : Node) :
  p <> q -> styleValue (removeProperty p n) q = styleValue n q.
Proof.
  intros Hne. unfold styleValue, removeProperty. simpl.
  rewrite lookup_delete_ne by exact Hne. reflexivity.
Qed.

Lemma styleValue_important_eq (p v : string) (n : Node) :
  styleValue (setImportant p v n) p = v.
Proof. unfold styleValue, setImportant. simpl. rewrite lookup_insert_eq. reflexivity. Qed.

Lemma styleValue_important_ne (p q v : string) (n : Node) :
  p <> q -> styleValue (setImportant p v n) q = styleValue n q.
Proof.
  intros Hne. unfold styleValue, setImportant. simpl.
  rewrite lookup_insert_ne by exact Hne. reflexivity.
Qed.

(** The node the restoring callback leaves, read through [styleValue]. *)
Lemma restored_styles (original : string * string) (n : Node) :
  let n' := assignStyle "box-shadow" (snd original)
              (assignStyle "outline" (fst original)
                 (removeProperty "box-shadow"
                    (removeProperty "outline-offset" (removeProperty "outline" n)))) in
  styleValue n' "outline" = fst original /\
  styleValue n' "box-shadow" = snd original /\
  styleValue n' "outline-offset" = "".
Proof.
  cbv zeta. repeat split.
  - rewrite styleValue_assign_ne by discriminate. apply styleValue_assign_eq.
  - apply styleValue_assign_eq.
  - rewrite !styleValue_assign_ne by discriminate.
    rewrite styleValue_remove_ne by discriminate. apply styleValue_remove_eq.
Qed.

(** X10. Highlight restore: highlighting an element that is not yet
    tracked, for a positive duration, forces the red outline and leaves one
    more pending timer; when that timer fires, the inline outline and
    box-shadow read as they did before the highlight, the record and the
    timer are gone and no other node has changed.  The inline
    outline-offset is not brought back: it reads empty afterwards. *)
Theorem highlight_restored_by_timer (el : Element) (duration : Z) (w : World) :
  (0 < duration)%Z -> (el < length (doc w))%nat -> highlightedElements w !! el = None ->
  exists w1 w2,
    highlightElement el duration w = (Return tt, w1) /\
    timers w1 = (timers w ++ [RestoreHighlight el duration])%list /\
    styleValue (nodeAt (doc w1) el) "outline" = "3px solid #ff0000" /\
    timerFires (length (timers w)) w1 = (Return tt, w2) /\
    styleValue (nodeAt (doc w2) el) "outline" = styleValue (nodeAt (doc w) el) "outline" /\
    styleValue (nodeAt (doc w2) el) "box-shadow" = styleValue (nodeAt (doc w) el) "box-shadow" /\
    styleValue (nodeAt (doc w2) el) "outline-offset" = "" /\
    highlightedElements w2 = highlightedElements w /\
    timers w2 = timers w /\
    (forall i, i <> el -> nodeAt (doc w2) i = nodeAt (doc w) i).
Proof.
  intros Hd Hlt Hnone.
  apply Z.ltb_lt in Hd.
  unfold highlightElement, emit, modify, bind, ret.
  cbn [highlightedElements with_trace doc]. rewrite Hnone, Hd.
  eexists _, _. split; [reflexivity|].
  split; [reflexivity|].
  cbn [doc with_timers with_doc with_highlighted with_trace].
  split.
  { rewrite nodeAt_updateNode by exact Hlt. rewrite decide_True by reflexivity.
    rewrite !styleValue_important_ne by discriminate. apply styleValue_important_eq. }
  unfold timerFires, bind, get.
  cbn [timers with_timers with_doc with_highlighted with_trace].
  rewrite nth_error_app2 by lia. rewrite Nat.sub_diag. cbn [nth_error].
  unfold modify, callback, restoreHighlight, modify.
  cbn [timers highlightedElements doc with_timers with_doc with_highlighted with_trace].
  rewrite lookup_insert_eq.
  split; [reflexivity|].
  cbn [timers highlightedElements doc with_timers with_doc with_highlighted with_trace fst snd].
  assert (Hlt' : (el < length (updateNode (fun n : Node =>
             setImportant "box-shadow" "0 0 0 4px rgba(255, 0, 0, 0.35)"
               (setImportant "outline-offset" "2px"
                  (setImportant "outline" "3px solid #ff0000" n))) el (doc w)))%nat)
    by (rewrite updateNode_length; exact Hlt).
  rewrite !(nodeAt_updateNode _ el el _ Hlt'), !decide_True by reflexivity.
  match goal with
  | |- context [removeProperty "outline" ?n] =>
      destruct (restored_styles (styleValue (nodeAt (doc w) el) "outline",
                                 styleValue (nodeAt (doc w) el) "box-shadow") n)
        as (R1 & R2 & R3)
  end.
  cbn [fst snd] in R1, R2, R3.
  split; [exact R1|]. split; [exact R2|]. split; [exact R3|].
  split; [apply delete_insert_id, Hnone|].
  split; [rewrite (delete_middle (timers w) []); apply app_nil_r|].
  intros i Hne.
  rewrite (nodeAt_updateNode _ el i _ Hlt'), decide_False by exact Hne.
  rewrite (nodeAt_updateNode _ el i _ Hlt), decide_False by exact Hne. reflexivity.
Qed.

Lemma highlight_restored_by_timer_witness :
  exists w1 w2,
    highlightElement 0 5000 (loaded searchPage) = (Return tt, w1) /\
    timerFires 0 w1 = (Return tt, w2) /\
    styleValue (nodeAt (doc w2) 0) "outline"
      = styleValue (nodeAt (doc (loaded searchPage)) 0) "outline" /\
    highlightedElements w2 = highlightedElements (loaded searchPage).
Proof.
  destruct (highlight_restored_by_timer 0 5000 (loaded searchPage))
    as (w1 & w2 & H1 & _ & _ & H2 & H3 & _ & _ & H4 & _).
  - reflexivity.
  - simpl. lia.
  - reflexivity.
  - exists w1, w2. auto.
Defined.

Lemma nodeAt_updateNode_other (f : Node -> Node) (el i : Element) (d : Document) :
  i <> el -> nodeAt (updateNode f el d) i = nodeAt d i.
Proof.
  intros Hne. destruct (le_lt_dec (length d) el) as [Hge|Hlt].
  - rewrite updateNode_out_of_range by exact Hge. reflexivity.
  - rewrite nodeAt_updateNode by exact Hlt. rewrite decide_False by exact Hne. reflexivity.
Qed.

(** What the restoring fold of [clearAllHighlights] does to a document. *)
Lemma restoreStyles_fold (h : gmap nat (string * string)) (d : Document) :
  length (map_fold restoreStyles d h) = length d /\
  (forall el orig, h !! el = Some orig -> (el < length d)%nat ->
     styleValue (nodeAt (map_fold restoreStyles d h) el) "outline" = fst orig /\
     styleValue (nodeAt (map_fold restoreStyles d h) el) "box-shadow" = snd orig /\
     styleValue (nodeAt (map_fold restoreStyles d h) el) "outline-offset"
       = styleValue (nodeAt d el) "outline-offset") /\
  (forall i, h !! i = None -> nodeAt (map_fold restoreStyles d h) i = nodeAt d i).
Proof.
  apply (map_fold_weak_ind (fun d' (m : gmap nat (string * string)) =>
    length d' = length d /\
    (forall el orig, m !! el = Some orig -> (el < length d)%nat ->
       styleValue (nodeAt d' el) "outline" = fst orig /\
       styleValue (nodeAt d' el) "box-shadow" = snd orig /\
       styleValue (nodeAt d' el) "outline-offset" = styleValue (nodeAt d el) "outline-offset") /\
    (forall i, m !! i = None -> nodeAt d' i = nodeAt d i))).
  - split; [reflexivity|]. split; [|reflexivity].
    intros el orig H. rewrite lookup_empty in H. discriminate H.
  - intros i x m r Hi (Hlen & Hsome & Hnone). unfold restoreStyles.
    split; [rewrite updateNode_length; exact Hlen|]. split.
    + intros el orig Hl Hlt.
      destruct (decide (el = i)) as [->|Hne].
      * rewrite lookup_insert_eq in Hl. inversion Hl; subst x.
        rewrite nodeAt_updateNode by lia. rewrite decide_True by reflexivity.
        split; [rewrite styleValue_assign_ne by discriminate; apply styleValue_assign_eq|].
        split; [apply styleValue_assign_eq|].
        rewrite !styleValue_assign_ne by discriminate. rewrite (Hnone i Hi). reflexivity.
      * rewrite lookup_insert_ne in Hl by congruence.
        rewrite nodeAt_updateNode_other by exact Hne. apply Hsome; assumption.
    + intros j Hj. apply lookup_insert_None in Hj as [Hj Hne].
      rewrite nodeAt_updateNode_other by congruence. apply Hnone, Hj.
Qed.

(** X11. Clearing restores every tracked element: after
    [clearAllHighlights] no element is tracked and the overlay follows
    none; for every element that was tracked the inline outline and
    box-shadow read as their recorded values, while its outline-offset is
    left as the highlight set it; every untracked node is untouched. *)
Theorem clear_restores_all (w : World) :
  exists w',
    clearAllHighlights w = (Return tt, w') /\
    highlightedElements w' = ∅ /\
    currentHighlightedEl w' = None /\
    (forall el orig, highlightedElements w !! el = Some orig -> (el < length (doc w))%nat ->
       styleValue (nodeAt (doc w') el) "outline" = fst orig /\
       styleValue (nodeAt (doc w') el) "box-shadow" = snd orig /\
       styleValue (nodeAt (doc w') el) "outline-offset"
         = styleValue (nodeAt (doc w) el) "outline-offset") /\
    (forall i, highlightedElements w !! i = None -> nodeAt (doc w') i = nodeAt (doc w) i).
Proof.
  destruct (restoreStyles_fold (highlightedElements w) (doc w)) as (_ & Hsome & Hnone).
  unfold clearAllHighlights, stopOverlayTracking, emit, modify, bind.
  eexists. split; [reflexivity|].
  cbn [pointer with_overlay with_highlighted with_doc with_trace].
  destruct (pointer w) as [[at_el op]|];
    cbn [trace doc with_pointer with_overlay with_highlighted with_doc with_trace
         highlightedElements currentHighlightedEl];
    (split; [reflexivity|]); (split; [reflexivity|]); (split; [exact Hsome | exact Hnone]).
Qed.

Lemma clear_restores_all_witness :
  let w := snd (highlightElement 0 5000 (loaded searchPage)) in
  exists w',
    clearAllHighlights w = (Return tt, w') /\
    styleValue (nodeAt (doc w') 0) "outline" = "" /\
    styleValue (nodeAt (doc w') 0) "outline-offset" = "2px".
Proof.
  intros w.
  destruct (clear_restores_all w) as (w' & H & _ & _ & Hsome & _).
  exists w'. split; [exact H|].
  destruct (Hsome 0%nat ("", "")) as (H1 & _ & H3).
  - reflexivity.
  - vm_compute. lia.
  - split; [exact H1|]. rewrite H3. reflexivity.
Defined.

(** X12. Highlighting by selector: when the payload carries a selector
    that resolves, the index is not looked at and no extraction runs; the
    call succeeds, and afterwards the resolved element is the only one
    tracked as highlighted, the overlay follows it and the pointer shows at
    it.  The steps are clear, scroll into view, highlight, pointer. *)
Theorem highlight_by_selector_tracks_one (s : Selector) (idx : JsIndex)
    (dur : option Z) (w : World) (el : Element) :
  getElementBySelector s w = (Return (Some el), w) ->
  exists resp w',
    highlightElementByIndex {| hlIndex := idx; hlSelector := Some s; hlDuration := dur |} w
      = (Return resp, w') /\
    success resp = true /\
    dom (highlightedElements w') = {[ el ]} /\
    currentHighlightedEl w' = Some el /\
    pointer w' = Some (el, "1") /\
    selectorCounter w' = selectorCounter w /\
    elementCache w' = elementCache w /\
    trace w' = (trace w ++ [EClearHighlights; EScrollIntoView el;
                            EHighlight el (default 5000%Z dur); EMovePointer el])%list.
Proof.
  intros Hg. unfold highlightElementByIndex, highlightResolved.
  cbn [hlSelector hlDuration hlIndex].
  rewrite (bind_returns _ _ _ _ _ Hg).
  destruct (clearAllHighlights_run w) as (w1 & H1 & T1 & _).
  destruct (clearAllHighlights_frame (fun _ => tt) w ltac:(reflexivity))
    as (w1' & H1' & _ & _ & E1 & S1 & L1 & _).
  rewrite H1 in H1'. inversion H1'; subst w1'. clear H1'.
  rewrite (bind_returns _ _ _ _ _ H1).
  rewrite (bind_returns _ _ _ _ _ (emit_returns _ _)).
  unfold startOverlayTracking at 1. unfold bind at 1, modify at 1.
  set (wb := with_overlay (Some el) (with_trace (trace w1 ++ [EScrollIntoView el]) w1)).
  destruct (highlightElement_run el (default 5000%Z dur) wb) as (w2 & H2 & T2 & _).
  destruct (highlightElement_frame (fun _ => tt) el (default 5000%Z dur) wb ltac:(reflexivity))
    as (w2' & H2' & _ & _ & E2 & S2 & C2 & L2).
  rewrite H2 in H2'. inversion H2'; subst w2'. clear H2'.
  rewrite (bind_returns _ _ _ _ _ H2).
  unfold movePointerToElement, emit, modify, bind, get, ret.
  eexists _, _. split; [reflexivity|].
  cbn [success okMessage highlightedElements currentHighlightedEl pointer selectorCounter
       elementCache trace with_trace with_pointer with_timers].
  subst wb. cbn [highlightedElements currentHighlightedEl selectorCounter elementCache
                 with_overlay with_trace trace] in *.
  rewrite L1, lookup_empty in L2.
  split; [reflexivity|].
  split; [rewrite L2, insert_empty, dom_singleton_L; reflexivity|].
  split; [exact C2|]. split; [reflexivity|].
  split; [congruence|]. split; [congruence|].
  rewrite T2. cbn [trace with_overlay with_trace]. rewrite T1, <- !app_assoc. reflexivity.
Qed.

Lemma highlight_by_selector_tracks_one_witness :
  exists resp w',
    highlightElementByIndex
      {| hlIndex := Undefined; hlSelector := Some (ByAttr "input" "name" "q");
         hlDuration := None |} (loaded searchPage) = (Return resp, w') /\
    success resp = true /\
    dom (highlightedElements w') = {[ 0%nat ]} /\
    currentHighlightedEl w' = Some 0%nat.
Proof.
  destruct (highlight_by_selector_tracks_one (ByAttr "input" "name" "q") Undefined None
              (loaded searchPage) 0) as (resp & w' & H & Hs & Hd & Hc & _).
  - reflexivity.
  - exists resp, w'. auto.
Defined.

(** ** More of the event waiter *)

(** X15. Timeout: a wait for a click or for input whose timer fires before
    the awaited event resolves with the timeout failure at that moment and
    drops its listeners; the event arriving later resolves nothing. *)
Theorem wait_times_out_once (el : Element) (ev : string) (pre post : list Stimulus) :
  ev = "click" \/ ev = "input" ->
  forallb (quiet ev) pre = true ->
  let p1 := run (startElementWait el ev) (pre ++ [TimerFired]) in
  resolved p1 = [failure ("Timed out waiting for " ++ ev)] /\ listeners p1 = [] /\
  resolved (run p1 post) = [failure ("Timed out waiting for " ++ ev)] /\
  listeners (run p1 post) = [].
Proof.
  intros Hev Hq p1.
  assert (H1 : resolved p1 = [failure ("Timed out waiting for " ++ ev)] /\
               listeners p1 = [] /\ done p1 = true).
  { subst p1. rewrite run_app, (quiet_stays el ev pre Hev Hq).
    destruct Hev as [-> | ->]; vm_compute; auto. }
  destruct H1 as (R & L & D).
  destruct (settled_stays post p1 D L) as (R' & L' & _).
  rewrite R', R. auto.
Qed.

Lemma wait_times_out_once_witness :
  let p1 := run (startElementWait 0 "input") ([Dispatched "click"] ++ [TimerFired]) in
  resolved p1 = [failure ("Timed out waiting for " ++ "input")] /\ listeners p1 = [] /\
  resolved (run p1 [Dispatched "input"; Dispatched "change"])
    = [failure ("Timed out waiting for " ++ "input")] /\
  listeners (run p1 [Dispatched "input"; Dispatched "change"]) = [].
Proof.
  apply (wait_times_out_once 0 "input" [Dispatched "click"]
           [Dispatched "input"; Dispatched "change"]).
  - right. reflexivity.
  - reflexivity.
Defined.

(** X16. An unknown event kind is refused at once: the promise is settled
    with the failure before any listener is attached or any timer set, and
    nothing that happens later resolves it again. *)
Theorem wait_unknown_event (el : Element) (ev : string) (ss : list Stimulus) :
  ev <> "click" -> ev <> "input" ->
  let p := startElementWait el ev in
  resolved p = [failure ("Unknown event: " ++ ev)] /\
  listeners p = [] /\ timerArmed p = false /\
  resolved (run p ss) = [failure ("Unknown event: " ++ ev)].
Proof.
  intros H1 H2 p. subst p. unfold startElementWait.
  rewrite !bool_decide_eq_false_2 by assumption.
  split; [reflexivity|]. split; [reflexivity|]. split; [reflexivity|].
  apply (settled_stays ss); reflexivity.
Qed.

Lemma wait_unknown_event_witness :
  resolved (startElementWait 0 "hover") = [failure ("Unknown event: " ++ "hover")].
Proof.
  apply (wait_unknown_event 0 "hover" []); discriminate.
Defined.

Lemma scroll_quiet_stays (pre : list Stimulus) :
  forallb quietForScroll pre = true -> run startScrollWait pre = startScrollWait.
Proof.
  induction pre as [|s pre IH]; [reflexivity|].
  simpl. intros H. apply andb_true_iff in H as [Hq Hrest].
  destruct s as [ty|]; [|discriminate]. simpl in Hq.
  apply negb_true_iff, bool_decide_eq_false in Hq.
  assert (E : react startScrollWait (Dispatched ty) = startScrollWait).
  { unfold react, deliver. simpl.
    rewrite (bool_decide_eq_false_2 ("scroll" = ty)) by congruence. reflexivity. }
  rewrite E. apply IH, Hrest.
Qed.

(** X17. The scroll wait settles once: whichever of the first scroll and
    the timer comes first decides the answer, success for the scroll and
    the timeout failure for the timer; its listener is dropped there and
    nothing later resolves again. *)
Theorem scroll_wait_settles_once (pre post : list Stimulus) :
  forallb quietForScroll pre = true ->
  (let p1 := run startScrollWait (pre ++ [Dispatched "scroll"]) in
   resolved p1 = [okMessage "Detected scroll"] /\ listeners p1 = [] /\
   resolved (run p1 post) = [okMessage "Detected scroll"]) /\
  (let p1 := run startScrollWait (pre ++ [TimerFired]) in
   resolved p1 = [failure "Timed out waiting for scroll"] /\ listeners p1 = [] /\
   resolved (run p1 post) = [failure "Timed out waiting for scroll"]).
Proof.
  intros Hq. split; cbv zeta; rewrite run_app, (scroll_quiet_stays pre Hq).
  - split; [reflexivity|]. split; [reflexivity|].
    apply (settled_stays post); reflexivity.
  - split; [reflexivity|]. split; [reflexivity|].
    apply (settled_stays post); reflexivity.
Qed.

Lemma scroll_wait_settles_once_witness :
  let p1 := run startScrollWait ([Dispatched "click"] ++ [Dispatched "scroll"]) in
  resolved p1 = [okMessage "Detected scroll"] /\ listeners p1 = [] /\
  resolved (run p1 [TimerFired; Dispatched "scroll"]) = [okMessage "Detected scroll"].
Proof.
  apply (proj1 (scroll_wait_settles_once [Dispatched "click"]
                  [TimerFired; Dispatched "scroll"] eq_refl)).
Defined.

(** X18. How a wait finds its target: a scroll wait starts at once,
    without resolving any element; otherwise a selector in the payload is
    used as it is and no extraction runs, whatever the index says; and with
    neither a selector nor an index the wait is refused with the state
    untouched. *)
Theorem wait_prefers_selector (ev : string) (idx : JsIndex) (s : Selector)
    (sel : option Selector) (ms : Z) (w : World) :
  waitForEvent {| event := "scroll"; waitIndex := idx; waitSelector := sel;
                  timeoutMs := ms |} w = (Return (Waiting startScrollWait), w) /\
  (ev <> "scroll" ->
   exists start,
     waitForEvent {| event := ev; waitIndex := idx; waitSelector := Some s;
                     timeoutMs := ms |} w = (Return start, w) /\
     start = match fst (getElementBySelector s w) with
             | Return (Some el) => Waiting (startElementWait el ev)
             | _ => Answered (failure ("Could not find element: " ++ selector_text s))
             end) /\
  (ev <> "scroll" ->
   waitForEvent {| event := ev; waitIndex := Null; waitSelector := None;
                   timeoutMs := ms |} w
     = (Return (Answered (failure "No selector/targetIndex provided")), w)).
Proof.
  split; [reflexivity|]. split.
  - intros Hne. unfold waitForEvent. cbn [event waitIndex waitSelector].
    rewrite bool_decide_eq_false_2 by exact Hne.
    unfold bind at 1, ret at 1.
    destruct (getElementBySelector_returns s w) as (found & Hg).
    rewrite (bind_returns _ _ _ _ _ Hg), Hg. cbn [fst].
    destruct found as [el|]; eexists; split; reflexivity.
  - intros Hne. unfold waitForEvent. cbn [event waitIndex waitSelector isNull].
    rewrite bool_decide_eq_false_2 by exact Hne. reflexivity.
Qed.

Lemma wait_prefers_selector_witness :
  waitForEvent {| event := "click"; waitIndex := Null; waitSelector := None;
                  timeoutMs := 30000 |} (loaded shopPage)
    = (Return (Answered (failure "No selector/targetIndex provided")), loaded shopPage).
Proof.
  apply (proj2 (proj2 (wait_prefers_selector "click" Null (ById "x") None 30000
                         (loaded shopPage)))).
  discriminate.
Defined.

(** ** The message listener *)

(** X19. Failures at the message boundary: whatever [executeAction],
    [highlightElementByIndex] or [waitForEvent] does, the listener answers
    the request: a result is passed on as it is, a wait that has started
    answers when it settles, and an exception raised inside becomes a
    failure reply that carries its message.  GET_FEATURES has no such
    guard: an exception of the extraction leaves the listener as an
    exception. *)
Theorem listener_answers_or_fails :
  (forall p w v,
     (forall r, executeAction p w = (Return r, v) ->
        onMessage (EXECUTE_ACTION p) w = (Return (Response r), v)) /\
     (forall e, executeAction p w = (Throw e, v) ->
        onMessage (EXECUTE_ACTION p) w = (Return (Response (failure e)), v))) /\
  (forall p w v,
     (forall r, highlightElementByIndex p w = (Return r, v) ->
        onMessage (HIGHLIGHT_ELEMENT p) w = (Return (Response r), v)) /\
     (forall e, highlightElementByIndex p w = (Throw e, v) ->
        onMessage (HIGHLIGHT_ELEMENT p) w = (Return (Response (failure e)), v))) /\
  (forall p w v,
     (forall r, waitForEvent p w = (Return (Answered r), v) ->
        onMessage (WAIT_FOR_EVENT p) w = (Return (Response r), v)) /\
     (forall q, waitForEvent p w = (Return (Waiting q), v) ->
        onMessage (WAIT_FOR_EVENT p) w = (Return (Promised q), v)) /\
     (forall e, waitForEvent p w = (Throw e, v) ->
        onMessage (WAIT_FOR_EVENT p) w = (Return (Response (failure e)), v))) /\
  (forall w e v, extractPageFeatures w = (Throw e, v) ->
      onMessage GET_FEATURES w = (Throw e, v)).
Proof.
  split; [|split; [|split]].
  - intros p w v. split; intros x H;
      unfold onMessage, orFailure, try_catch, bind, ret; rewrite H; reflexivity.
  - intros p w v. split; intros x H;
      unfold onMessage, orFailure, try_catch, bind, ret; rewrite H; reflexivity.
  - intros p w v. split; [|split]; intros x H;
      unfold onMessage, try_catch, bind, ret; rewrite H; reflexivity.
  - intros w e v H. unfold onMessage, bind. rewrite H. reflexivity.
Qed.

Lemma listener_answers_or_fails_witness :
  let click := {| action := "CLICK"; targetIndex := Num 0; textInput := None |} in
  exists v,
    onMessage (EXECUTE_ACTION click) (loaded quotedIdPage)
      = (Return (Response (failure "SyntaxError")), v) /\
    onMessage GET_FEATURES (loaded quotedIdPage) = (Throw "SyntaxError", v).
Proof.
  intros click.
  destruct (executeAction click (loaded quotedIdPage)) as [[r|e] v] eqn:H.
  - vm_compute in H. discriminate H.
  - assert (He : e = "SyntaxError") by (vm_compute in H; congruence). subst e.
    assert (Hx : extractPageFeatures (loaded quotedIdPage) = (Throw "SyntaxError", v)).
    { vm_compute in H. vm_compute. congruence. }
    exists v. split.
    + exact (proj2 (proj1 listener_answers_or_fails click _ v) _ H).
    + exact (proj2 (proj2 (proj2 listener_answers_or_fails)) _ _ _ Hx).
Defined.

(** ** The background worker *)

Import Background.

Lemma lower_idempotent (c : ascii) : Str.lower (Str.lower c) = Str.lower c.
Proof. destruct c as [[] [] [] [] [] [] [] []]; reflexivity. Qed.

Lemma toLowerCase_idempotent (s : string) :
  Str.toLowerCase (Str.toLowerCase s) = Str.toLowerCase s.
Proof.
  induction s as [|c s IH]; simpl; [reflexivity|]. rewrite lower_idempotent, IH. reflexivity.
Qed.

Lemma startsWith_split (s p : string) :
  Str.startsWith s p = true -> exists rest, s = p ++ rest.
Proof.
  unfold Str.startsWith. revert s. induction p as [|c p IH]; intros s H.
  - exists s. reflexivity.
  - destruct s as [|d s]; simpl in H; [discriminate|].
    destruct (ascii_dec c d) as [->|]; [|discriminate].
    destruct (IH s H) as (rest & ->). exists rest. reflexivity.
Qed.

(** X20. Which pages may be injected: the verdict does not depend on the
    case of the url; an http page is never refused, and an https page is
    refused only when it belongs to the Chrome Web Store. *)
Theorem injection_block_reason :
  (forall url, getInjectionBlockReason (Some (Str.toLowerCase url))
               = getInjectionBlockReason (Some url)) /\
  (forall url, Str.startsWith (Str.toLowerCase url) "http://" = true ->
               getInjectionBlockReason (Some url) = None) /\
  (forall url, Str.startsWith (Str.toLowerCase url) "https://" = true ->
               getInjectionBlockReason (Some url) = None <->
               Str.startsWith (Str.toLowerCase url) "https://chrome.google.com/webstore" = false /\
               Str.startsWith (Str.toLowerCase url) "https://chromewebstore.google.com/" = false).
Proof.
  split; [|split].
  - intros [|c url]; [reflexivity|].
    unfold getInjectionBlockReason. cbn [Str.toLowerCase].
    rewrite lower_idempotent, toLowerCase_idempotent. reflexivity.
  - intros [|c url] H; [discriminate H|].
    unfold getInjectionBlockReason.
    destruct (startsWith_split _ _ H) as (rest & ->). reflexivity.
  - intros [|c url] H; [discriminate H|].
    unfold getInjectionBlockReason.
    destruct (startsWith_split _ _ H) as (rest & E). rewrite E.
    change (Str.startsWith ("https://" ++ rest) "chrome://") with false.
    change (Str.startsWith ("https://" ++ rest) "edge://") with false.
    change (Str.startsWith ("https://" ++ rest) "about:") with false.
    change (Str.startsWith ("https://" ++ rest) "chrome-extension://") with false.
    change (Str.startsWith ("https://" ++ rest) "file://") with false.
    cbn [orb].
    destruct (Str.startsWith ("https://" ++ rest) "https://chrome.google.com/webstore");
      destruct (Str.startsWith ("https://" ++ rest) "https://chromewebstore.google.com/");
      cbn [orb]; split; try discriminate; try tauto; intros [? ?]; discriminate.
Qed.

Lemma injection_block_reason_witness :
  getInjectionBlockReason (Some "HTTP://Shop.Example/Tea") = None.
Proof.
  apply (proj1 (proj2 injection_block_reason)). reflexivity.
Defined.

(** X21. Making sure the content script is there: a refusal always
    carries a non-empty reason and a success none; a page that may not be
    injected is left alone, without even a ping; a tab whose content script
    answers the ping is never injected again; and an injection always uses
    the non-empty list of script files of the manifest, after a ping. *)
Theorem ensureContentScript_discipline (b : Browser) (id : nat) (url : option string) :
  let e := fst (ensureContentScript b id url) in
  let calls := snd (ensureContentScript b id url) in
  (ok e = false -> exists msg, reason e = Some msg /\ msg <> "") /\
  (ok e = true -> reason e = None) /\
  (getInjectionBlockReason url <> None -> calls = [] /\ ok e = false) /\
  (scriptAnswers b = true -> forall files, ~ In (ExecuteScript id files) calls) /\
  (forall files, In (ExecuteScript id files) calls ->
     files = manifestScripts b /\ files <> [] /\ head calls = Some (SendPing id)).
Proof.
  cbv zeta. unfold ensureContentScript.
  assert (Hne : forall u m, getInjectionBlockReason u = Some m -> m <> "").
  { intros u m. unfold getInjectionBlockReason.
    destruct u as [[|c u]|]; try (intros H; inversion H; discriminate).
    repeat match goal with
           | |- (if ?c then _ else _) = _ -> _ => destruct c
           end; intros H; inversion H; discriminate. }
  destruct (getInjectionBlockReason url) as [blocked|] eqn:Hb;
    [| destruct (scriptAnswers b) eqn:Hs;
       [| destruct (manifestScripts b) as [|file rest] eqn:Hm;
          [| destruct (injectionError b) as [[msg str]|] eqn:He]]];
    cbn [fst snd ok reason head].
  - split; [|split; [|split; [|split]]].
    + intros _. exists blocked. split; [reflexivity | exact (Hne _ _ Hb)].
    + discriminate.
    + intros _. split; reflexivity.
    + intros _ files [].
    + intros files [].
  - split; [|split; [|split; [|split]]].
    + discriminate.
    + reflexivity.
    + intros H. destruct H. reflexivity.
    + intros _ files [H|[]]. discriminate H.
    + intros files [H|[]]. discriminate H.
  - split; [|split; [|split; [|split]]].
    + intros _. eexists. split; [reflexivity | discriminate].
    + discriminate.
    + intros H. destruct H. reflexivity.
    + discriminate.
    + intros files [H|[]]. discriminate H.
  - split; [|split; [|split; [|split]]].
    + intros _. eexists. split; [reflexivity | discriminate].
    + discriminate.
    + intros H. destruct H. reflexivity.
    + discriminate.
    + intros files [H|[H|[]]]; [discriminate H|]. inversion H; subst files.
      split; [reflexivity|]. split; [discriminate | reflexivity].
  - split; [|split; [|split; [|split]]].
    + discriminate.
    + reflexivity.
    + intros H. destruct H. reflexivity.
    + discriminate.
    + intros files [H|[H|[H|[]]]]; [discriminate H| |discriminate H]. inversion H; subst files.
      split; [reflexivity|]. split; [discriminate | reflexivity].
Qed.

Lemma ensureContentScript_discipline_witness :
  let b := {| scriptAnswers := true; manifestScripts := ["content.js"];
              injectionError := None |} in
  exists msg, reason (fst (ensureContentScript b 7 (Some "chrome://settings"))) = Some msg /\
              msg <> "".
Proof.
  intros b.
  apply (proj1 (ensureContentScript_discipline b 7 (Some "chrome://settings"))).
  reflexivity.
Defined.


Lemma ensureContentScript_ok (b : Browser) (id : nat) (url : option string) :
  ok (fst (ensureContentScript b id url)) = true -> getInjectionBlockReason url = None.
Proof.
  unfold ensureContentScript.
  destruct (getInjectionBlockReason url); [discriminate | reflexivity].
Qed.

Lemma ensureContentScript_calls (b : Browser) (id : nat) (url : option string) (id' : nat) :
  ~ In (Forward id') (snd (ensureContentScript b id url)).
Proof.
  unfold ensureContentScript.
  destruct (getInjectionBlockReason url); [intros []|].
  destruct (scriptAnswers b); [intros [H|[]]; discriminate H|].
  destruct (manifestScripts b) as [|file rest]; [intros [H|[]]; discriminate H|].
  destruct (injectionError b) as [[msg str]|]; cbn [snd].
  - intros [H|[H|[]]]; discriminate H.
  - intros [H|[H|[H|[]]]]; discriminate H.
Qed.

(** X22. Routing in the worker: a message reaches the content script only
    if its type is one of the six routed types, it is addressed to the
    content script, the active tab has a non-zero id and its page may be
    injected; the forward is then to that tab.  A routed message is always
    answered, with a failure when it is not forwarded.  A message that is
    not routed is not answered and causes no call, and only such a message
    goes unanswered. *)
Theorem route_forwards_only_when_ready (b : Browser) (activeTab : option Tab)
    (type target : string) (d : Delivery) :
  let resp := fst (route b activeTab type target d) in
  let calls := snd (route b activeTab type target d) in
  (forall id, In (Forward id) calls ->
     type ∈ contentMessageTypes /\ target = "content" /\ id <> 0%nat /\
     exists t, activeTab = Some t /\ tabId t = Some id /\
               getInjectionBlockReason (tabUrl t) = None) /\
  (type ∈ contentMessageTypes -> target = "content" ->
     exists r, resp = Some r /\
               ((forall id, ~ In (Forward id) calls) -> success r = false)) /\
  (~ (type ∈ contentMessageTypes /\ target = "content") -> resp = None /\ calls = []) /\
  (resp = None -> ~ (type ∈ contentMessageTypes /\ target = "content")).
Proof.
  cbv zeta. unfold route.
  destruct (bool_decide (type ∈ contentMessageTypes)) eqn:Ht; cbn [andb];
    [destruct (bool_decide (target = "content")) eqn:Hc|].
  - apply bool_decide_eq_true_1 in Ht. apply bool_decide_eq_true_1 in Hc.
    destruct activeTab as [[[[|i]|] url]|]; cbn [fst snd].
    + split; [intros id []|]. split; [|split; [tauto | discriminate]].
      intros _ _. eexists. split; reflexivity.
    + pose proof (ensureContentScript_ok b (S i) url) as Hok.
      pose proof (ensureContentScript_calls b (S i) url) as Hcalls.
      destruct (ensureContentScript b (S i) url) as [injected calls].
      cbn [fst snd] in Hok, Hcalls.
      destruct (ok injected) eqn:Hi.
      * destruct d as [r|msg]; cbn [fst snd];
          (split; [|split; [|split; [tauto | discriminate]]]).
        -- intros id Hin. apply in_app_or in Hin as [Hin|[Hin|[]]];
             [destruct (Hcalls _ Hin)|]. inversion Hin; subst id.
           repeat split; try assumption; try discriminate.
           eexists. repeat split. cbn [tabUrl]. apply Hok. reflexivity.
        -- intros _ _. eexists. split; [reflexivity|]. intros Hno.
           destruct (Hno (S i)). apply in_or_app. right. left. reflexivity.
        -- intros id Hin. apply in_app_or in Hin as [Hin|[Hin|[]]];
             [destruct (Hcalls _ Hin)|]. inversion Hin; subst id.
           repeat split; try assumption; try discriminate.
           eexists. repeat split. cbn [tabUrl]. apply Hok. reflexivity.
        -- intros _ _. eexists. split; [reflexivity|]. intros _. reflexivity.
      * cbn [fst snd]. split; [|split; [|split; [tauto | discriminate]]].
        -- intros id Hin. destruct (Hcalls _ Hin).
        -- intros _ _. eexists. split; reflexivity.
    + split; [intros id []|]. split; [|split; [tauto | discriminate]].
      intros _ _. eexists. split; reflexivity.
    + split; [intros id []|]. split; [|split; [tauto | discriminate]].
      intros _ _. eexists. split; reflexivity.
  - apply bool_decide_eq_false_1 in Hc. cbn [fst snd].
    split; [intros id []|]. split; [tauto|]. split; [intros _; split; reflexivity | tauto].
  - apply bool_decide_eq_false_1 in Ht. cbn [fst snd].
    split; [intros id []|]. split; [tauto|]. split; [intros _; split; reflexivity | tauto].
Qed.

Lemma route_forwards_only_when_ready_witness :
  let b := {| scriptAnswers := false; manifestScripts := ["content.js"];
              injectionError := None |} in
  let tab := {| tabId := Some 7%nat; tabUrl := Some "chrome://settings" |} in
  exists r, fst (route b (Some tab) "GET_FEATURES" "content" (LastError "gone")) = Some r /\
            success r = false.
Proof.
  intros b tab.
  destruct (proj1 (proj2 (route_forwards_only_when_ready b (Some tab)
                            "GET_FEATURES" "content" (LastError "gone"))))
    as (r & Hr & Hs).
  - vm_compute. repeat constructor.
  - reflexivity.
  - exists r. split; [exact Hr|]. apply Hs. intros id [].
Defined.

(** ** What an inventory offers *)

(** The loops again, with what they have checked of each accepted
    candidate. *)
Section OfferRules.

Variable P : list PageFeature -> World -> Prop.
Variable cands : list Element.

Lemma collectLinks_offer :
  (forall acc w el s w1 i label aria,
      P acc w -> In el cands ->
      generateSelector el w = (Return s, w1) ->
      negb (Str.nonempty (attr (nodeAt (doc w) el) "href"))
        || Str.startsWith (attr (nodeAt (doc w) el) "href") "javascript:"
        || bool_decide (attr (nodeAt (doc w) el) "href" = "#") = false ->
      inNavRegion (nodeAt (doc w) el) = false ->
      negb (isVisible (nodeAt (doc w) el)) = false ->
      innerText (nodeAt (doc w) el) <> None ->
      negb (Str.nonempty label) && negb (Str.nonempty aria) = false ->
      P (acc ++ [linkFeature i (Str.or_else label aria) s (attr (nodeAt (doc w) el) "href") aria
                   (bool_decide (selector_text s ∈ clickedElements w1)) el]) w1) ->
  forall links, incl links cands ->
  forall acc seen idx w out w',
    P acc w ->
    collectLinks links acc seen idx w = (Return out, w') -> P (fst out) w'.
Proof.
  intros Hstep links. induction links as [|el rest IH]; intros Hincl acc seen idx w out w' HP H.
  - inversion H; subst. exact HP.
  - assert (Hrest : incl rest cands) by (intros x Hx; apply Hincl; right; exact Hx).
    assert (Hel : In el cands) by (apply Hincl; left; reflexivity).
    specialize (IH Hrest).
    cbn [collectLinks] in H. destruct (60 <=? length acc)%nat eqn:Hlen.
    + inversion H; subst. exact HP.
    + unfold bind at 1, get in H. cbv zeta in H.
      skip_with IH H.
      destruct (innerText (nodeAt (doc w) el)) as [rendered|] eqn:Hinner;
        [|discriminate H].
      skip_with IH H.
      destruct (generateSelector_run el w) as (s & w1 & Hg & _).
      unfold bind at 1 in H. rewrite Hg in H.
      unfold bind at 1, get in H.
      eapply IH; [|exact H]. eapply Hstep; eauto. congruence.
Qed.

Lemma collectInputs_offer :
  (forall acc w el s w1 i label name holder aria,
      P acc w -> In el cands ->
      generateSelector el w = (Return s, w1) ->
      negb (isVisible (nodeAt (doc w) el)) = false ->
      P (acc ++ [inputFeature i label name holder aria (nodeAt (doc w) el) s
                   (bool_decide (selector_text s ∈ clickedElements w1)) el]) w1) ->
  forall inputs, incl inputs cands ->
  forall acc idx w out w',
    P acc w ->
    collectInputs inputs acc idx w = (Return out, w') -> P (fst out) w'.
Proof.
  intros Hstep inputs. induction inputs as [|el rest IH]; intros Hincl acc idx w out w' HP H.
  - inversion H; subst. exact HP.
  - assert (Hrest : incl rest cands) by (intros x Hx; apply Hincl; right; exact Hx).
    assert (Hel : In el cands) by (apply Hincl; left; reflexivity).
    specialize (IH Hrest).
    cbn [collectInputs] in H. destruct (75 <=? length acc)%nat eqn:Hlen.
    + inversion H; subst. exact HP.
    + unfold bind at 1, get in H. cbv zeta in H.
      skip_with IH H.
      unfold bind at 1 in H.
      pose proof (findLabelFor_state el w) as Hst.
      destruct (findLabelFor el w) as [[label|e] w0]; simpl in Hst; subst w0;
        [|discriminate].
      destruct (generateSelector_run el w) as (s & w1 & Hg & _).
      unfold bind at 1 in H. rewrite Hg in H.
      unfold bind at 1, get in H.
      eapply IH; [|exact H]. eapply Hstep; eauto.
Qed.

Lemma collectButtons_offer (actionButtons : list Element) :
  (forall acc w el s w1, P acc w -> In el cands ->
      generateSelector el w = (Return s, w1) -> P acc w1) ->
  (forall acc w el s w1 i label aria name,
      P acc w -> In el cands ->
      generateSelector el w = (Return s, w1) ->
      negb (bool_decide (el ∈ actionButtons)) && negb (isVisible (nodeAt (doc w) el)) = false ->
      negb (Str.nonempty label) && negb (Str.nonempty aria) && negb (Str.nonempty name) = false ->
      P (acc ++ [buttonFeature i (Str.or_else label (Str.or_else aria name)) aria s
                   (bool_decide (selector_text s ∈ clickedElements w1)) el]) w1) ->
  forall buttons, incl buttons cands ->
  forall acc seen idx w out w',
    P acc w ->
    collectButtons actionButtons buttons acc seen idx w = (Return out, w') ->
    P (fst out) w'.
Proof.
  intros Hskip Hstep buttons.
  induction buttons as [|el rest IH]; intros Hincl acc seen idx w out w' HP H.
  - inversion H; subst. exact HP.
  - assert (Hrest : incl rest cands) by (intros x Hx; apply Hincl; right; exact Hx).
    assert (Hel : In el cands) by (apply Hincl; left; reflexivity).
    specialize (IH Hrest).
    cbn [collectButtons] in H. destruct (75 <=? length acc)%nat eqn:Hlen.
    + inversion H; subst. exact HP.
    + unfold bind at 1, get in H. cbv zeta in H.
      skip_with IH H.
      destruct (generateSelector_run el w) as (s & w1 & Hg & _).
      unfold bind at 1 in H. rewrite Hg in H.
      destruct (bool_decide (selector_text s ∈ seen)).
      * eapply IH; [|exact H]. eapply Hskip; eauto.
      * unfold bind at 1, get in H.
        eapply IH; [|exact H]. eapply Hstep; eauto.
Qed.

End OfferRules.

(** What the filters read of a node does not depend on its marker. *)
Lemma getAttribute_unmarked (n : Node) (name : string) :
  name <> "data-bb-id" -> getAttribute (unmarked n) name = getAttribute n name.
Proof.
  intros Hne. unfold getAttribute, unmarked. simpl.
  apply lookup_delete_ne. congruence.
Qed.

Ltac marker_blind :=
  intros;
  unfold isInputCandidate, isActionCandidate, isButtonCandidate, inNavRegion,
         hasAttr, hasType, attrContains, hasClass, classList, attr, isTag;
  rewrite ?getAttribute_unmarked by discriminate; reflexivity.

Lemma attr_unmarked (n : Node) (name : string) :
  name <> "data-bb-id" -> attr (unmarked n) name = attr n name.
Proof. intros Hne. unfold attr. rewrite getAttribute_unmarked by exact Hne. reflexivity. Qed.

Lemma inNavRegion_unmarked (n : Node) : inNavRegion (unmarked n) = inNavRegion n.
Proof. marker_blind. Qed.

Lemma isInputCandidate_unmarked (n : Node) : isInputCandidate (unmarked n) = isInputCandidate n.
Proof. marker_blind. Qed.

Lemma isActionCandidate_unmarked (n : Node) :
  isActionCandidate (unmarked n) = isActionCandidate n.
Proof. marker_blind. Qed.

Lemma isButtonCandidate_unmarked (n : Node) :
  isButtonCandidate (unmarked n) = isButtonCandidate n.
Proof. marker_blind. Qed.

Lemma queryFixed_In (p : Node -> bool) (d : Document) (el : Element) :
  In el (queryFixed p d) -> (el < length d)%nat /\ p (nodeAt d el) = true.
Proof.
  unfold queryFixed. intros H. apply filter_In in H as [H Hp].
  apply in_seq in H. split; [lia | exact Hp].
Qed.

Lemma nonempty_or_else (a b : string) :
  Str.nonempty (Str.or_else a b) = Str.nonempty a || Str.nonempty b.
Proof. unfold Str.or_else. destruct a; reflexivity. Qed.

Lemma nonempty_clip (s : string) : Str.nonempty (clip s) = Str.nonempty s.
Proof. destruct s; reflexivity. Qed.

Section Offer.

Variable w : World.

(** The state differs from [w] in markers, cache and trace at most. *)
Let kept (v : World) : Prop :=
  length (doc v) = length (doc w) /\
  (forall i, unmarked (nodeAt (doc v) i) = unmarked (nodeAt (doc w) i)) /\
  clickedElements v = clickedElements w.

Let sound (f : PageFeature) : Prop :=
  (origin f < length (doc w))%nat /\
  offered (unmarked (nodeAt (doc w) (origin f))) f /\
  already_clicked f = bool_decide (selector_text (selector f) ∈ clickedElements w) /\
  Str.nonempty (text f) = true /\
  (type f <> input -> (String.length (text f) <= 100)%nat).

Let Inv (before acc : list PageFeature) (v : World) : Prop :=
  kept v /\ Forall sound before /\ Forall sound acc.

Lemma kept_generateSelector (v : World) (el : Element) (s : Selector) (v1 : World) :
  kept v -> generateSelector el v = (Return s, v1) -> kept v1.
Proof.
  intros (Hlen & Hn & Hc) Hg.
  destruct (generateSelector_cases _ _ _ _ Hg) as [[_ ->]|[_ ->]]; [repeat split; assumption|].
  split; [|split].
  - simpl. rewrite updateNode_length. exact Hlen.
  - intros i. simpl. rewrite <- Hn.
    apply (nodeAt_updateNode_proj unmarked). apply unmarked_stamped.
  - exact Hc.
Qed.

Lemma Inv_offer_skip before acc v el s v1 :
  Inv before acc v -> generateSelector el v = (Return s, v1) -> Inv before acc v1.
Proof.
  intros (Hk & Hb & Ha) Hg. split; [eapply kept_generateSelector; eauto | split; assumption].
Qed.

Lemma Inv_offer_push before acc v el s v1 f :
  Inv before acc v -> generateSelector el v = (Return s, v1) ->
  (el < length (doc v))%nat -> selector f = s -> origin f = el ->
  already_clicked f = bool_decide (selector_text s ∈ clickedElements v1) ->
  offered (unmarked (nodeAt (doc v) el)) f ->
  Str.nonempty (text f) = true ->
  (type f <> input -> (String.length (text f) <= 100)%nat) ->
  Inv before (acc ++ [f]) v1.
Proof.
  intros HI Hg Hlt Hs Ho Hc Hf Hne Hclip.
  destruct (Inv_offer_skip _ _ _ _ _ _ HI Hg) as (Hk1 & Hb & Ha).
  destruct HI as ((Hlen & Hn & _) & _).
  split; [exact Hk1|]. split; [exact Hb|].
  apply Forall_app. split; [exact Ha|]. constructor; [|constructor].
  destruct Hk1 as (_ & _ & Hcl).
  split; [rewrite Ho, <- Hlen; exact Hlt|]. split.
  - rewrite Ho, <- Hn. exact Hf.
  - split; [rewrite Hc, Hs, Hcl; reflexivity|]. split; [exact Hne | exact Hclip].
Qed.

Lemma extractPageFeatures_offer (r : ContentResponse) (w' : World) :
  extractPageFeatures w = (Return r, w') ->
  exists fs, features r = Some fs /\ Forall sound fs.
Proof.
  intros H. unfold extractPageFeatures in H.
  unfold bind at 1, emit, modify in H.
  assert (K0 : kept (with_trace (trace w ++ [EExtract]) w)) by (repeat split).
  set (w0 := with_trace (trace w ++ [EExtract]) w) in *.
  unfold bind at 1, get in H. cbv zeta in H.
  unfold bind at 1 in H.
  destruct (collectLinks _ [] ∅ 0 w0) as [[links|e] w1] eqn:Hlinks; [|discriminate].
  assert (H1 : Inv [] (fst links) w1).
  { eapply (collectLinks_offer (Inv [])
              (queryFixed isProductLink (doc w0) ++ queryFixed isOtherLink (doc w0)));
      [| apply incl_refl | | exact Hlinks].
    - intros acc v el s v1 i label aria HI Hin Hg Hurl Hnav Hvis Hinner Hlab.
      destruct HI as (Hk & HI).
      pose proof Hk as (Hlen & Hn & _).
      assert (Hq : (el < length (doc w0))%nat /\ isAnchor (nodeAt (doc w0) el) = true).
      { apply in_app_or in Hin as [Hin|Hin]; apply queryFixed_In in Hin as [Hlt Hp];
          (split; [exact Hlt|]).
        - unfold isProductLink in Hp. apply andb_prop in Hp. tauto.
        - unfold isOtherLink in Hp. apply andb_prop in Hp as [Hp _].
          apply andb_prop in Hp. tauto. }
      destruct Hq as [Hlt Hanchor].
      assert (Htag : isTag (nodeAt (doc w0) el) "A" = true).
      { pose proof (f_equal innerText (Hn el)) as E.
        change (innerText (nodeAt (doc v) el) = innerText (nodeAt (doc w0) el)) in E.
        unfold isAnchor in Hanchor. rewrite <- E in Hanchor.
        destruct (innerText (nodeAt (doc v) el)); [exact Hanchor | congruence]. }
      eapply (Inv_offer_push [] acc v el s v1);
        [split; [exact Hk | exact HI] | exact Hg | | | | | | |]; try reflexivity.
      + rewrite Hlen. exact Hlt.
      + apply orb_false_elim in Hurl as [Hurl Hhash].
        apply orb_false_elim in Hurl as [Hne Hjs].
        apply negb_false_iff in Hne. apply negb_false_iff in Hvis.
        apply bool_decide_eq_false_1 in Hhash.
        unfold offered. cbn [type linkFeature href].
        rewrite attr_unmarked by discriminate. rewrite inNavRegion_unmarked.
        split; [|split; [exact Hvis|split; [exact Hnav|split; [|split; assumption]]]].
        * change (isTag (nodeAt (doc v) el) "A" = true).
          assert (E : tagName (unmarked (nodeAt (doc v) el))
                      = tagName (unmarked (nodeAt (doc w0) el)))
            by (rewrite Hn; reflexivity).
          unfold isTag in *. simpl in E. rewrite E. exact Htag.
        * unfold orUndefined. rewrite Hne. reflexivity.
      + cbn [text linkFeature]. rewrite nonempty_clip, nonempty_or_else.
        destruct (Str.nonempty label), (Str.nonempty aria); try reflexivity; discriminate Hlab.
      + intros _. apply clip_length.
    - split; [exact K0|]. split; constructor. }
  unfold bind at 1, get in H.
  unfold bind at 1 in H.
  destruct (collectInputs _ [] (snd links) w1) as [[ins|e] w2] eqn:Hins; [|discriminate].
  assert (H2 : Inv (fst links) (fst ins) w2).
  { eapply (collectInputs_offer (Inv (fst links)) (queryFixed isInputCandidate (doc w1)));
      [| apply incl_refl | | exact Hins].
    - intros acc v el s v1 i label name holder aria HI Hin Hg Hvis.
      destruct HI as (Hk & HI).
      apply queryFixed_In in Hin as [Hlt Hp].
      pose proof Hk as (Hlen & Hn & _). destruct H1 as ((Hlen1 & Hn1 & _) & _).
      eapply (Inv_offer_push (fst links) acc v el s v1);
        [split; [exact Hk | exact HI] | exact Hg | | | | | | |]; try reflexivity.
      + rewrite Hlen, <- Hlen1. exact Hlt.
      + apply negb_false_iff in Hvis.
        unfold offered. cbn [type inputFeature value_len].
        rewrite isInputCandidate_unmarked.
        split; [|split; [exact Hvis | reflexivity]].
        rewrite <- isInputCandidate_unmarked, Hn, <- Hn1, isInputCandidate_unmarked.
        exact Hp.
      + cbn [text inputFeature]. rewrite !nonempty_or_else. cbn [Str.nonempty].
        rewrite !orb_true_r. reflexivity.
      + intros Hty. destruct Hty. reflexivity.
    - destruct H1 as (Hk1 & _ & Ha). split; [exact Hk1|]. split; [exact Ha | constructor]. }
  unfold bind at 1, get in H.
  unfold bind at 1 in H.
  destruct (collectButtons _ _ [] ∅ (snd ins) w2) as [[btns|e] w3] eqn:Hbtns; [|discriminate].
  assert (H3 : Inv (fst links ++ fst ins) (fst btns) w3).
  { eapply (collectButtons_offer (Inv (fst links ++ fst ins))
              (queryFixed isActionCandidate (doc w2) ++ queryFixed isButtonCandidate (doc w2))
              (queryFixed isActionCandidate (doc w2)));
      [| | apply incl_refl | | exact Hbtns].
    - intros acc v el s v1 HI _ Hg. eapply Inv_offer_skip; eauto.
    - intros acc v el s v1 i label aria name HI Hin Hg Hvis Hlab.
      destruct HI as (Hk & HI).
      pose proof Hk as (Hlen & Hn & _). destruct H2 as ((Hlen2 & Hn2 & _) & _).
      assert (Hb : forall g : Node -> bool, (forall n, g (unmarked n) = g n) ->
                   g (nodeAt (doc v) el) = g (nodeAt (doc w2) el)).
      { intros g Hg'. rewrite <- Hg', Hn, <- Hn2, Hg'. reflexivity. }
      eapply (Inv_offer_push (fst links ++ fst ins) acc v el s v1);
        [split; [exact Hk | exact HI] | exact Hg | | | | | | |]; try reflexivity.
      + rewrite Hlen, <- Hlen2.
        apply in_app_or in Hin as [Hin|Hin]; apply queryFixed_In in Hin; tauto.
      + unfold offered. cbn [type buttonFeature].
        rewrite isActionCandidate_unmarked, isButtonCandidate_unmarked.
        rewrite (Hb _ isActionCandidate_unmarked), (Hb _ isButtonCandidate_unmarked).
        split.
        * apply in_app_or in Hin as [Hin|Hin]; apply queryFixed_In in Hin; tauto.
        * apply andb_false_iff in Hvis as [Hact|Hvis].
          -- left. apply negb_false_iff, bool_decide_eq_true_1 in Hact.
             apply list_elem_of_In, queryFixed_In in Hact. tauto.
          -- right. apply negb_false_iff in Hvis. exact Hvis.
      + cbn [text buttonFeature]. rewrite nonempty_clip, !nonempty_or_else.
        destruct (Str.nonempty label), (Str.nonempty aria), (Str.nonempty name);
          try reflexivity; discriminate Hlab.
      + intros _. apply clip_length.
    - destruct H2 as (Hk2 & Hb & Ha). split; [exact Hk2|]. split; [|constructor].
      apply Forall_app. split; assumption. }
  unfold ret in H. inversion H; subst r w'. clear H.
  destruct H3 as (_ & Hb & Ha).
  eexists. split; [reflexivity|].
  apply List.Forall_forall. intros f Hf.
  apply reindexFrom_In in Hf as (g & j & Hg & ->).
  apply uniqueBy_In in Hg.
  assert (Hs : sound g).
  { rewrite app_assoc in Hg. apply in_app_or in Hg as [Hg|Hg].
    - eapply (proj1 (List.Forall_forall _ _) Hb); exact Hg.
    - eapply (proj1 (List.Forall_forall _ _) Ha); exact Hg. }
  exact Hs.
Qed.

End Offer.

Lemma offered_unmarked (n : Node) (f : PageFeature) :
  offered (unmarked n) f -> offered n f.
Proof.
  unfold offered.
  rewrite isActionCandidate_unmarked, isButtonCandidate_unmarked, isInputCandidate_unmarked,
    inNavRegion_unmarked, (attr_unmarked n "href") by discriminate.
  intros H. exact H.
Qed.

(** X23. What an inventory offers: every feature comes from an element of
    the page that has passed the filters of its loop, as the page stood
    before the extraction.  A link is an anchor that is visible, outside
    header, footer and navigation, and carries its href, which is neither
    a lone hash nor a javascript url; an input is a visible form control
    and the feature has the length of its value; a button is one of the
    button candidates and is visible unless it is an add-to-cart candidate.
    And the flag already_clicked says whether the text of the feature's
    selector is in the clicked memo. *)
Theorem inventory_offers_filtered (w : World) (r : ContentResponse) (w' : World)
    (fs : list PageFeature) (f : PageFeature) :
  extractPageFeatures w = (Return r, w') -> features r = Some fs -> In f fs ->
  (origin f < length (doc w))%nat /\
  offered (nodeAt (doc w) (origin f)) f /\
  already_clicked f = bool_decide (selector_text (selector f) ∈ clickedElements w).
Proof.
  intros H Hfs Hin.
  destruct (extractPageFeatures_offer w r w' H) as (fs' & Hfs' & Hall).
  rewrite Hfs in Hfs'. inversion Hfs'; subst fs'.
  destruct (proj1 (List.Forall_forall _ _) Hall f Hin) as (Hlt & Hoff & Hc & _).
  split; [exact Hlt|]. split; [apply offered_unmarked; exact Hoff | exact Hc].
Qed.

Lemma inventory_offers_filtered_witness :
  exists r w' f,
    extractPageFeatures (loaded shopPage) = (Return r, w') /\
    nth_error (default [] (features r)) 0 = Some f /\
    offered (nodeAt (doc (loaded shopPage)) (origin f)) f /\
    already_clicked f = false.
Proof.
  destruct (extractPageFeatures (loaded shopPage)) as [[r|e] w'] eqn:H;
    [|vm_compute in H; discriminate H].
  destruct (features r) as [fs|] eqn:Hfs;
    [|vm_compute in H; inversion H; subst r; discriminate Hfs].
  destruct fs as [|f fs'];
    [vm_compute in H; inversion H; subst r; discriminate Hfs|].
  destruct (inventory_offers_filtered _ _ _ _ f H Hfs (or_introl eq_refl)) as (_ & Hoff & Hc).
  exists r, w', f. split; [reflexivity|]. split; [rewrite Hfs; reflexivity|].
  split; [exact Hoff|]. rewrite Hc. reflexivity.
Defined.

(** X24. Labels: every feature of an inventory has a non-empty text, and
    the text of a link or of a button is at most 100 characters long. *)
Theorem labels_nonempty_and_clipped (w : World) (r : ContentResponse) (w' : World)
    (fs : list PageFeature) (f : PageFeature) :
  extractPageFeatures w = (Return r, w') -> features r = Some fs -> In f fs ->
  text f <> "" /\ (type f <> input -> (String.length (text f) <= 100)%nat).
Proof.
  intros H Hfs Hin.
  destruct (extractPageFeatures_offer w r w' H) as (fs' & Hfs' & Hall).
  rewrite Hfs in Hfs'. inversion Hfs'; subst fs'.
  destruct (proj1 (List.Forall_forall _ _) Hall f Hin) as (_ & _ & _ & Hne & Hclip).
  split; [|exact Hclip]. intros E. rewrite E in Hne. discriminate Hne.
Qed.

Lemma labels_nonempty_and_clipped_witness :
  exists r w' f fs,
    extractPageFeatures (loaded shopPage) = (Return r, w') /\
    features r = Some (f :: fs) /\ text f <> "" /\
    (type f <> input -> (String.length (text f) <= 100)%nat).
Proof.
  eexists _, _, _, _.
  split; [vm_compute; reflexivity|].
  split; [reflexivity|].
  eapply (labels_nonempty_and_clipped (loaded shopPage)).
  - vm_compute. reflexivity.
  - reflexivity.
  - left. reflexivity.
Defined.

(** ** Matching a procedure to a goal *)

Lemma better_fold (g : string) (procs : list Api.Procedure) (b : option Api.Procedure)
    (s : nat) :
  (fold_left (Api.better g) procs (b, s) = (b, s) /\
   forall q, In q procs -> (Api.score g q <= s)%nat) \/
  (exists pre p post,
     procs = (pre ++ p :: post)%list /\
     fold_left (Api.better g) procs (b, s) = (Some p, Api.score g p) /\
     (s < Api.score g p)%nat /\
     (forall q, In q pre -> (Api.score g q < Api.score g p)%nat) /\
     (forall q, In q post -> (Api.score g q <= Api.score g p)%nat)).
Proof.
  revert b s. induction procs as [|proc rest IH]; intros b s.
  - left. split; [reflexivity | intros q []].
  - assert (Hstep : fold_left (Api.better g) (proc :: rest) (b, s)
                    = fold_left (Api.better g) rest
                        (if (s <? Api.score g proc)%nat
                         then (Some proc, Api.score g proc) else (b, s)))
      by reflexivity.
    rewrite Hstep. clear Hstep.
    destruct (s <? Api.score g proc)%nat eqn:Hlt.
    + apply Nat.ltb_lt in Hlt. right.
      destruct (IH (Some proc) (Api.score g proc))
        as [[Hsame Hall] | (pre & p & post & -> & Hf & Hs & Hpre & Hpost)].
      * exists [], proc, rest. split; [reflexivity|]. split; [exact Hsame|].
        split; [exact Hlt|]. split; [intros q []|exact Hall].
      * exists (proc :: pre), p, post. split; [reflexivity|]. split; [exact Hf|].
        split; [lia|]. split; [|exact Hpost].
        intros q [<-|Hq]; [exact Hs | apply Hpre, Hq].
    + apply Nat.ltb_ge in Hlt.
      destruct (IH b s) as [[Hsame Hall] | (pre & p & post & -> & Hf & Hs & Hpre & Hpost)].
      * left. split; [exact Hsame|]. intros q [<-|Hq]; [exact Hlt | apply Hall, Hq].
      * right. exists (proc :: pre), p, post. split; [reflexivity|]. split; [exact Hf|].
        split; [exact Hs|]. split; [|exact Hpost].
        intros q [<-|Hq]; [lia | apply Hpre, Hq].
Qed.

(** X25. The procedure proposed for a goal is the first one with the
    highest score, and its score is at least one: every procedure before
    it in the list scores strictly less and none after it scores more.
    Nothing is proposed exactly when the procedures could not be fetched
    or none of them scores. *)
Theorem findMatchingProcedure_first_best (fetched : option (list Api.Procedure))
    (userGoal : string) :
  let g := Str.toLowerCase userGoal in
  (forall p, Api.findMatchingProcedure fetched userGoal = Some p ->
     exists pre post,
       fetched = Some (pre ++ p :: post)%list /\
       (1 <= Api.score g p)%nat /\
       (forall q, In q pre -> (Api.score g q < Api.score g p)%nat) /\
       (forall q, In q post -> (Api.score g q <= Api.score g p)%nat)) /\
  (Api.findMatchingProcedure fetched userGoal = None <->
   forall procs q, fetched = Some procs -> In q procs -> Api.score g q = 0%nat).
Proof.
  cbv zeta. unfold Api.findMatchingProcedure.
  destruct fetched as [[|proc rest]|].
  - split; [discriminate|]. split; [|reflexivity].
    intros _ procs q E. inversion E; subst procs. intros [].
  - destruct (better_fold (Str.toLowerCase userGoal) (proc :: rest) None 0)
      as [[Hsame Hall] | (pre & p & post & E & Hf & Hs & Hpre & Hpost)].
    + rewrite Hsame. cbn [fst snd]. split; [discriminate|]. split; [|reflexivity].
      intros _ procs q Ep Hq. inversion Ep; subst procs.
      specialize (Hall q Hq). lia.
    + rewrite Hf. cbn [fst snd].
      destruct (1 <=? Api.score (Str.toLowerCase userGoal) p)%nat eqn:H1;
        [|apply Nat.leb_gt in H1; lia].
      apply Nat.leb_le in H1. split.
      * intros p' Ep. inversion Ep; subst p'. exists pre, post. rewrite E. auto.
      * split; [discriminate|]. intros Hzero.
        specialize (Hzero (proc :: rest) p eq_refl).
        rewrite E in Hzero. specialize (Hzero (in_elt p pre post)). lia.
  - split; [discriminate|]. split; [|reflexivity]. intros _ procs q E. discriminate E.
Qed.

Lemma findMatchingProcedure_first_best_witness :
  let export := {| Api.procId := "p1"; Api.goal := "Export a chart" |} in
  let create := {| Api.procId := "p2"; Api.goal := "Create a new chart" |} in
  let share := {| Api.procId := "p3"; Api.goal := "Share the new chart" |} in
  exists pre post,
    Some [export; create; share] = Some (pre ++ create :: post)%list /\
    (1 <= Api.score (Str.toLowerCase "Make a NEW chart") create)%nat.
Proof.
  intros export create share.
  destruct (proj1 (findMatchingProcedure_first_best (Some [export; create; share])
                     "Make a NEW chart") create eq_refl)
    as (pre & post & E & H1 & _).
  exists pre, post. split; [exact E | exact H1].
Defined.
